(** * Real-estate investment calculator: the yearly simulation engine

    A shallow embedding of [src/model.js] ([pmt], [getAfaRate],
    [simulateScenario]) and of the functions of [src/main.js] that
    compute ([buildScenarioInputs], [buildSocioSuggestions],
    [recalcAllScenarios]), with the properties of the specification and
    further properties of the code.

    Numbers.  The numbers of the ledger are exact rationals ([Q]): [+],
    [-], [*], [/] are the field operations, comparisons are decided by
    [Qle_bool]/[Qeq_bool]; IEEE rounding is not part of the model.
    [Math.pow] is exact at integer exponents; at the other exponents its
    value is irrational in general and is left to a parameter, [pow_frac].

    Two operations of the source can leave the finite numbers: the
    division in [pmt], when its divisor is 0, and [Math.pow], at a base 0
    with a negative exponent and at a negative base with a fractional
    exponent.  Both are modelled on [Num.t], the rationals with
    [Infinity], [-Infinity] and [NaN]: [Num.Math_pow], [pmt_number], and
    the loan schedule of the loop, [loan_ledger_number].  The ledger of
    rationals ([step], [years]) is the run of the code as long as the
    annuities it pays are finite ([annuities_finite]); [pmt] and
    [Math_pow] are the rational values of [pmt_number] and
    [Num.Math_pow] when these are finite.

    The clock.  [new Date().getFullYear()] is the parameter [now] of
    [simulateScenario]. *)

From Stdlib Require Import ZArith QArith Qabs Qround Qpower Qfield.
From Stdlib Require Import Lqa Lia List String Bool.
Import ListNotations.

Local Open Scope Q_scope.

(* ------------------------------------------------------------------ *)
(** ** JavaScript operators on numbers *)

Module JS.

(** [a < b], [a <= b], [a > b], [a === b] *)
Definition lt (a b : Q) : bool := negb (Qle_bool b a).
Definition le (a b : Q) : bool := Qle_bool a b.
Definition gt (a b : Q) : bool := lt b a.
Definition strict_eq (a b : Q) : bool := Qeq_bool a b.

(** [x || d] on numbers: [0] is the only falsy rational. *)
Definition or (x d : Q) : Q := if Qeq_bool x 0 then d else x.

Definition Math_abs (x : Q) : Q := Qabs x.
Definition Math_max (a b : Q) : Q := if lt a b then b else a.
Definition Math_min (a b : Q) : Q := if lt b a then b else a.

Definition is_integer (x : Q) : bool := Qeq_bool (inject_Z (Qfloor x)) x.

End JS.

(* ------------------------------------------------------------------ *)
(** ** JavaScript numbers that need not be finite *)

Module Num.

(** A rational, [Infinity], [-Infinity] or [NaN]. *)
Inductive t : Type :=
  | Fin (q : Q)
  | PosInf
  | NegInf
  | NaN.

Definition is_finite (x : t) : bool :=
  match x with Fin _ => true | _ => false end.

(** The rational that a finite number is.  Where a rational is asked of
    a number that is not finite, 0 stands for it. *)
Definition value (x : t) : Q :=
  match x with Fin q => q | _ => 0 end.

(** The sign of a number, [Eq] for 0 and for [NaN]. *)
Definition sign (x : t) : comparison :=
  match x with
  | Fin q => q ?= 0
  | PosInf => Gt
  | NegInf => Lt
  | NaN => Eq
  end.

Definition sign_mul (a b : comparison) : comparison :=
  match a with
  | Eq => Eq
  | Gt => b
  | Lt => CompOpp b
  end.

(** The infinity of a sign; [NaN] where there is no sign (as in [0 / 0]
    and [0 * Infinity]). *)
Definition infinity (c : comparison) : t :=
  match c with
  | Gt => PosInf
  | Lt => NegInf
  | Eq => NaN
  end.

Definition neg (x : t) : t :=
  match x with
  | Fin q => Fin (- q)
  | PosInf => NegInf
  | NegInf => PosInf
  | NaN => NaN
  end.

(** [x + y] *)
Definition add (x y : t) : t :=
  match x, y with
  | NaN, _ | _, NaN => NaN
  | Fin a, Fin b => Fin (a + b)
  | PosInf, NegInf | NegInf, PosInf => NaN
  | PosInf, _ | _, PosInf => PosInf
  | NegInf, _ | _, NegInf => NegInf
  end.

(** [x - y] *)
Definition sub (x y : t) : t := add x (neg y).

(** [x * y] *)
Definition mul (x y : t) : t :=
  match x, y with
  | NaN, _ | _, NaN => NaN
  | Fin a, Fin b => Fin (a * b)
  | _, _ => infinity (sign_mul (sign x) (sign y))
  end.

(** [x / y].  A divisor that is 0 is taken as [+0]: the one division of
    the source that can meet it is that of [pmt], whose divisor
    [1 - Math.pow(..)] is [+0] when it is 0. *)
Definition div (x y : t) : t :=
  match x, y with
  | NaN, _ | _, NaN => NaN
  | Fin a, Fin b => if Qeq_bool b 0 then infinity (a ?= 0) else Fin (a / b)
  | Fin _, _ => Fin 0
  | _, Fin b => infinity (sign_mul (sign x) (if Qeq_bool b 0 then Gt else b ?= 0))
  | _, _ => NaN
  end.

(** [x < y], [x > y], [x <= y]: false when either is [NaN]. *)
Definition lt (x y : t) : bool :=
  match x, y with
  | NaN, _ | _, NaN => false
  | Fin a, Fin b => JS.lt a b
  | PosInf, _ | _, NegInf => false
  | NegInf, _ | _, PosInf => true
  end.

Definition gt (x y : t) : bool := lt y x.

Definition le (x y : t) : bool :=
  match x, y with
  | NaN, _ | _, NaN => false
  | Fin a, Fin b => JS.le a b
  | NegInf, _ | _, PosInf => true
  | PosInf, _ | _, NegInf => false
  end.

(** [Math.max(x, y)] and [Math.min(x, y)]: [NaN] when either is. *)
Definition Math_max (x y : t) : t :=
  match x, y with
  | NaN, _ | _, NaN => NaN
  | _, _ => if lt x y then y else x
  end.

Definition Math_min (x y : t) : t :=
  match x, y with
  | NaN, _ | _, NaN => NaN
  | _, _ => if lt y x then y else x
  end.

(** [Math.pow(b, e)] at a rational base and exponent.  At an integer
    exponent it is the exact power, but [Infinity] for a base 0 and a
    negative exponent.  At the other exponents it is [pow_frac b e] for a
    positive base, [NaN] for a negative base, and 0 or [Infinity] for a
    base 0.  (A base that is 0 is [+0]: the bases of the source are sums
    [1 + x].) *)
Definition Math_pow (pow_frac : Q -> Q -> Q) (b e : Q) : t :=
  if JS.is_integer e then
    (if Qeq_bool b 0 && (Qfloor e <? 0)%Z then PosInf
     else Fin (Qpower b (Qfloor e)))
  else
    match b ?= 0 with
    | Gt => Fin (pow_frac b e)
    | Eq => if JS.lt e 0 then PosInf else Fin 0
    | Lt => NaN
    end.

End Num.

(* ------------------------------------------------------------------ *)
(** ** The data model *)

(** The property names of the [inputs] object that [simulateScenario]
    reads: those that hold a number and those that hold a string. *)
Module Key.
Inductive num : Type :=
  | startYear
  | buildingValue
  | landValue
  | grEStRate
  | maklerRate
  | grundbuchRate
  | notaryRate
  | companyCost
  | fittingUp
  | initialRepairs
  | buildingLossRate
  | landGrowthRate
  | constructionCostGrowth
  | annualMaintenance
  | maintenanceGrowth
  | sqm
  | monthlyRent
  | vacancyRate
  | rentGrowth
  | incomeTaxRate
  | equity
  | loanTermYears1
  | fixRateYears1
  | interestRate1
  | discountRate
  | loanTermYears2
  | interestRate2
  | sellingCostRate
  | saleYear
  | investmentHorizonYears
  | altReturnBeforeTax
  | altTaxRate
  | buildingLifetimeYears.

Inductive str : Type := saleMode | afaModel.

Definition num_index (k : num) : nat :=
  match k with
  | startYear => 0
  | buildingValue => 1
  | landValue => 2
  | grEStRate => 3
  | maklerRate => 4
  | grundbuchRate => 5
  | notaryRate => 6
  | companyCost => 7
  | fittingUp => 8
  | initialRepairs => 9
  | buildingLossRate => 10
  | landGrowthRate => 11
  | constructionCostGrowth => 12
  | annualMaintenance => 13
  | maintenanceGrowth => 14
  | sqm => 15
  | monthlyRent => 16
  | vacancyRate => 17
  | rentGrowth => 18
  | incomeTaxRate => 19
  | equity => 20
  | loanTermYears1 => 21
  | fixRateYears1 => 22
  | interestRate1 => 23
  | discountRate => 24
  | loanTermYears2 => 25
  | interestRate2 => 26
  | sellingCostRate => 27
  | saleYear => 28
  | investmentHorizonYears => 29
  | altReturnBeforeTax => 30
  | altTaxRate => 31
  | buildingLifetimeYears => 32
  end.

Definition num_eqb (a b : num) : bool := Nat.eqb (num_index a) (num_index b).

Definition str_eqb (a b : str) : bool :=
  match a, b with
  | saleMode, saleMode | afaModel, afaModel => true
  | _, _ => false
  end.
End Key.

(** The [inputs] object.  A property that is absent (or [undefined]) is
    [None]; for [saleYear], [None] also stands for [null], which is what
    an absent [saleYear] is replaced by. *)
Module Raw.
Record t : Type := mk {
  startYear : option Q;
  buildingValue : option Q;
  landValue : option Q;
  grEStRate : option Q;
  maklerRate : option Q;
  grundbuchRate : option Q;
  notaryRate : option Q;
  companyCost : option Q;
  fittingUp : option Q;
  initialRepairs : option Q;
  buildingLossRate : option Q;
  landGrowthRate : option Q;
  constructionCostGrowth : option Q;
  annualMaintenance : option Q;
  maintenanceGrowth : option Q;
  sqm : option Q;
  monthlyRent : option Q;
  vacancyRate : option Q;
  rentGrowth : option Q;
  incomeTaxRate : option Q;
  equity : option Q;
  loanTermYears1 : option Q;
  fixRateYears1 : option Q;
  interestRate1 : option Q;
  discountRate : option Q;
  loanTermYears2 : option Q;
  interestRate2 : option Q;
  sellingCostRate : option Q;
  saleMode : option string;
  saleYear : option Q;
  investmentHorizonYears : option Q;
  altReturnBeforeTax : option Q;
  altTaxRate : option Q;
  afaModel : option string;
  buildingLifetimeYears : option Q
}.

(** The object [{}]. *)
Definition empty : t :=
  mk None None None None None None None None None None None None None
     None None None None None None None None None None None None None
     None None None None None None None None None.

(** [inputs.k] *)
Definition get_num (k : Key.num) (i : t) : option Q :=
  match k with
  | Key.startYear => startYear i
  | Key.buildingValue => buildingValue i
  | Key.landValue => landValue i
  | Key.grEStRate => grEStRate i
  | Key.maklerRate => maklerRate i
  | Key.grundbuchRate => grundbuchRate i
  | Key.notaryRate => notaryRate i
  | Key.companyCost => companyCost i
  | Key.fittingUp => fittingUp i
  | Key.initialRepairs => initialRepairs i
  | Key.buildingLossRate => buildingLossRate i
  | Key.landGrowthRate => landGrowthRate i
  | Key.constructionCostGrowth => constructionCostGrowth i
  | Key.annualMaintenance => annualMaintenance i
  | Key.maintenanceGrowth => maintenanceGrowth i
  | Key.sqm => sqm i
  | Key.monthlyRent => monthlyRent i
  | Key.vacancyRate => vacancyRate i
  | Key.rentGrowth => rentGrowth i
  | Key.incomeTaxRate => incomeTaxRate i
  | Key.equity => equity i
  | Key.loanTermYears1 => loanTermYears1 i
  | Key.fixRateYears1 => fixRateYears1 i
  | Key.interestRate1 => interestRate1 i
  | Key.discountRate => discountRate i
  | Key.loanTermYears2 => loanTermYears2 i
  | Key.interestRate2 => interestRate2 i
  | Key.sellingCostRate => sellingCostRate i
  | Key.saleYear => saleYear i
  | Key.investmentHorizonYears => investmentHorizonYears i
  | Key.altReturnBeforeTax => altReturnBeforeTax i
  | Key.altTaxRate => altTaxRate i
  | Key.buildingLifetimeYears => buildingLifetimeYears i
  end.

Definition get_str (k : Key.str) (i : t) : option string :=
  match k with
  | Key.saleMode => saleMode i
  | Key.afaModel => afaModel i
  end.

(** The object [{ ...i, k: v }]. *)
Definition set_num (k : Key.num) (v : Q) (i : t) : t :=
  let upd k' old := if Key.num_eqb k k' then Some v else old in
  mk
     (upd Key.startYear (startYear i))
     (upd Key.buildingValue (buildingValue i))
     (upd Key.landValue (landValue i))
     (upd Key.grEStRate (grEStRate i))
     (upd Key.maklerRate (maklerRate i))
     (upd Key.grundbuchRate (grundbuchRate i))
     (upd Key.notaryRate (notaryRate i))
     (upd Key.companyCost (companyCost i))
     (upd Key.fittingUp (fittingUp i))
     (upd Key.initialRepairs (initialRepairs i))
     (upd Key.buildingLossRate (buildingLossRate i))
     (upd Key.landGrowthRate (landGrowthRate i))
     (upd Key.constructionCostGrowth (constructionCostGrowth i))
     (upd Key.annualMaintenance (annualMaintenance i))
     (upd Key.maintenanceGrowth (maintenanceGrowth i))
     (upd Key.sqm (sqm i))
     (upd Key.monthlyRent (monthlyRent i))
     (upd Key.vacancyRate (vacancyRate i))
     (upd Key.rentGrowth (rentGrowth i))
     (upd Key.incomeTaxRate (incomeTaxRate i))
     (upd Key.equity (equity i))
     (upd Key.loanTermYears1 (loanTermYears1 i))
     (upd Key.fixRateYears1 (fixRateYears1 i))
     (upd Key.interestRate1 (interestRate1 i))
     (upd Key.discountRate (discountRate i))
     (upd Key.loanTermYears2 (loanTermYears2 i))
     (upd Key.interestRate2 (interestRate2 i))
     (upd Key.sellingCostRate (sellingCostRate i))
     (saleMode i)
     (upd Key.saleYear (saleYear i))
     (upd Key.investmentHorizonYears (investmentHorizonYears i))
     (upd Key.altReturnBeforeTax (altReturnBeforeTax i))
     (upd Key.altTaxRate (altTaxRate i))
     (afaModel i)
     (upd Key.buildingLifetimeYears (buildingLifetimeYears i)).

Definition set_str (k : Key.str) (v : string) (i : t) : t :=
  let upd k' old := if Key.str_eqb k k' then Some v else old in
  mk
     (startYear i)
     (buildingValue i)
     (landValue i)
     (grEStRate i)
     (maklerRate i)
     (grundbuchRate i)
     (notaryRate i)
     (companyCost i)
     (fittingUp i)
     (initialRepairs i)
     (buildingLossRate i)
     (landGrowthRate i)
     (constructionCostGrowth i)
     (annualMaintenance i)
     (maintenanceGrowth i)
     (sqm i)
     (monthlyRent i)
     (vacancyRate i)
     (rentGrowth i)
     (incomeTaxRate i)
     (equity i)
     (loanTermYears1 i)
     (fixRateYears1 i)
     (interestRate1 i)
     (discountRate i)
     (loanTermYears2 i)
     (interestRate2 i)
     (sellingCostRate i)
     (upd Key.saleMode (saleMode i))
     (saleYear i)
     (investmentHorizonYears i)
     (altReturnBeforeTax i)
     (altTaxRate i)
     (upd Key.afaModel (afaModel i))
     (buildingLifetimeYears i).

(** An object literal: the properties of [nums] and [strs] and no other;
    of two entries with one name the last is kept. *)
Definition obj (nums : list (Key.num * Q)) (strs : list (Key.str * string)) : t :=
  fold_left (fun i kv => set_num (fst kv) (snd kv) i) nums
    (fold_left (fun i kv => set_str (fst kv) (snd kv) i) strs empty).
End Raw.

(** The constants bound by the destructuring of [inputs] (section 3.1 of
    [simulateScenario]). *)
Record Params : Type := mkParams {
  startYear : Q;
  buildingValue : Q;
  landValue : Q;
  grEStRate : Q;
  maklerRate : Q;
  grundbuchRate : Q;
  notaryRate : Q;
  companyCost : Q;
  fittingUp : Q;
  initialRepairs : Q;
  buildingLossRate : Q;
  landGrowthRate : Q;
  constructionCostGrowth : Q;
  annualMaintenance : Q;
  maintenanceGrowth : Q;
  sqm : Q;
  monthlyRent : Q;
  vacancyRate : Q;
  rentGrowth : Q;
  incomeTaxRate : Q;
  equity : Q;
  loanTermYears1 : Q;
  fixRateYears1 : Q;
  interestRate1 : Q;
  discountRate : Q;
  loanTermYears2 : Q;
  interestRate2 : Q;
  sellingCostRate : Q;
  saleMode : string;
  saleYear : option Q;
  investmentHorizonYears : Q;
  altReturnBeforeTax : Q;
  altTaxRate : Q;
  afaModel : string;
  buildingLifetimeYears : Q
}.

(** The constants of [p], with [saleMode] bound to ["hold"]. *)
Definition hold_of (p : Params) : Params :=
  {| startYear := startYear p;
     buildingValue := buildingValue p;
     landValue := landValue p;
     grEStRate := grEStRate p;
     maklerRate := maklerRate p;
     grundbuchRate := grundbuchRate p;
     notaryRate := notaryRate p;
     companyCost := companyCost p;
     fittingUp := fittingUp p;
     initialRepairs := initialRepairs p;
     buildingLossRate := buildingLossRate p;
     landGrowthRate := landGrowthRate p;
     constructionCostGrowth := constructionCostGrowth p;
     annualMaintenance := annualMaintenance p;
     maintenanceGrowth := maintenanceGrowth p;
     sqm := sqm p;
     monthlyRent := monthlyRent p;
     vacancyRate := vacancyRate p;
     rentGrowth := rentGrowth p;
     incomeTaxRate := incomeTaxRate p;
     equity := equity p;
     loanTermYears1 := loanTermYears1 p;
     fixRateYears1 := fixRateYears1 p;
     interestRate1 := interestRate1 p;
     discountRate := discountRate p;
     loanTermYears2 := loanTermYears2 p;
     interestRate2 := interestRate2 p;
     sellingCostRate := sellingCostRate p;
     saleMode := "hold"%string;
     saleYear := saleYear p;
     investmentHorizonYears := investmentHorizonYears p;
     altReturnBeforeTax := altReturnBeforeTax p;
     altTaxRate := altTaxRate p;
     afaModel := afaModel p;
     buildingLifetimeYears := buildingLifetimeYears p |}.

(** The default of each string property in the destructuring. *)
Definition default_str (k : Key.str) : string :=
  match k with
  | Key.saleMode => "hold"%string
  | Key.afaModel => "Linear 2%"%string
  end.

(** The number properties whose default in the destructuring is the
    literal [0]: all but [startYear] (the clock), [interestRate2]
    ([interestRate1]), [saleYear] ([null]), [investmentHorizonYears] (30),
    [altTaxRate] ([incomeTaxRate]) and [buildingLifetimeYears] (50). *)
Definition zero_default (k : Key.num) : bool :=
  match k with
  | Key.startYear | Key.interestRate2 | Key.saleYear
  | Key.investmentHorizonYears | Key.altTaxRate
  | Key.buildingLifetimeYears => false
  | _ => true
  end.

(** One element of [years]. *)
Module Year.
Record t : Type := mk {
  yearIndex : Z;
  calendarYear : Q;
  remainingDebt : Q;
  interestPaid : Q;
  principalPaid : Q;
  grossRent : Q;
  netRent : Q;
  maintenance : Q;
  depreciation : Q;
  taxable : Q;
  taxCash : Q;
  cashBeforeTax : Q;
  cashAfterTax : Q;
  cumulativeCF : Q;
  propertyValue : Q;
  wealthFromCFAndLoan : Q;
  equityPosition : Q
}.
End Year.

Module Meta.
Record t : Type := mk {
  startYear : Q;
  horizonYears : Q;
  saleMode : string;
  saleYear : option Q;
  totalInvestment : Q;
  financingNeed : Q;
  loanAmount1 : Q;
  disagio : Q;
  afaBasis : Q;
  purchaseCostBasis : Q
}.
End Meta.

Module Kpis.
Record t : Type := mk {
  equityInvested : Q;
  equityPositionEnd : Q;
  totalProfit : Q;
  roeTotal : Q;
  roeAnnualized : Q;
  equityMultiple : Q;
  propertyValueEnd : Q;
  remainingDebtEnd : Q;
  cumulativeCFEnd : Q;
  altEndValue : Q;
  altProfit : Q
}.
End Kpis.

(** The object returned by [simulateScenario]. *)
Module Result.
Record t : Type := mk {
  meta : Meta.t;
  years : list Year.t;
  kpis : Kpis.t
}.
End Result.

(** The variables the yearly loop mutates. *)
Module St.
Record t : Type := mk {
  remainingDebt : Q;
  cumPrincipal : Q;
  annuity2 : Q;
  secondLoanStarted : bool;
  landVal : Q;
  buildingVal : Q;
  propertyVal : Q;
  cumulativeCF : Q;
  saleHappened : bool
}.
End St.

(** The loan variables of the loop and the sale flag, as numbers that
    need not be finite. *)
Module NumSt.
Record t : Type := mk {
  remainingDebt : Num.t;
  cumPrincipal : Num.t;
  annuity2 : Num.t;
  secondLoanStarted : bool;
  saleHappened : bool
}.
End NumSt.

(** The loan columns of a year record, as numbers that need not be
    finite. *)
Record LoanRow : Type := mkLoanRow {
  row_interestPaid : Num.t;
  row_principalPaid : Num.t;
  row_remainingDebt : Num.t
}.

(** The branch of the loan schedule taken in a year: [withinLoan1], else
    [withinLoan2], else the last branch (no loan, or already repaid). *)
Inductive Phase : Type := Loan1 | Loan2 | Repaid.

(** The order in which a run goes through the branches. *)
Definition phase_rank (ph : Phase) : nat :=
  match ph with Loan1 => 0 | Loan2 => 1 | Repaid => 2 end.

(** The constants of the sale block (they are local to it in the source). *)
Record SaleEvent : Type := mkSale {
  saleGross : Q;
  capitalGain : Q;
  cgt : Q;
  repayDebt : Q;
  saleNetCF : Q
}.

(** One iteration of the loop, with the locals that [years.push] drops:
    the branch of the loan schedule, the balance at the start of the year,
    the payment, and the sale block if it ran. *)
Record Iter : Type := mkIter {
  it_phase : Phase;
  it_debtBefore : Q;
  it_annualPayment : Q;
  it_annuity2 : Q;
  it_sale : option SaleEvent;
  it_year : Year.t
}.

(* ------------------------------------------------------------------ *)
(** ** Quantities the statements are written with *)




(** The value today of [m] yearly payments of 1, the first in a year,
    at the yearly factor [q = 1 + rate]:
    [1/q + 1/q^2 + ... + 1/q^m]. *)
Fixpoint annuity_factor (q : Q) (m : nat) : Q :=
  match m with
  | O => 0
  | S m' => (1 + annuity_factor q m') / q
  end.

(* ------------------------------------------------------------------ *)
(** ** The engine *)

Section Engine.

(** [Math.pow] at the exponents that are not integers. *)
Variable pow_frac : Q -> Q -> Q.

(** [Math.pow(b, e)] where the ledger of rationals takes it. *)
Definition Math_pow (b e : Q) : Q := Num.value (Num.Math_pow pow_frac b e).

(** *** 1. Annuity payment *)

(** [pmt(rate, nper, pv)].  The division of the last line is not
    guarded: its result is not finite when the divisor is 0. *)
Definition pmt_number (rate nper : Q) (pv : Num.t) : Num.t :=
  if JS.lt (JS.Math_abs rate) 1e-9 then
    (if JS.gt nper 0 then Num.div pv (Num.Fin nper) else Num.Fin 0)
  else
    Num.div (Num.mul pv (Num.Fin rate))
      (Num.sub (Num.Fin 1) (Num.Math_pow pow_frac (1 + rate) (- nper))).

(** The annuity as a rational, where [pmt_number] is finite. *)
Definition pmt (rate nper pv : Q) : Q :=
  Num.value (pmt_number rate nper (Num.Fin pv)).

(** Whether [pmt(rate, nper, pv)] is finite.  This does not depend on a
    finite [pv]: the division is by 0 or by [NaN], or it is not. *)
Definition pmt_finite (rate nper : Q) : bool :=
  Num.is_finite (pmt_number rate nper (Num.Fin 1)).

(** *** 2. Depreciation rate of a year *)

Definition getAfaRate (afaModel : string) (year lifetimeYears : Q) : Q :=
  let y := year in
  if (afaModel =? "Linear 2%")%string
     || (afaModel =? "Linear 2% p.a.")%string then
    (if JS.le y 50 then 0.02 else 0.0)
  else if (afaModel =? "Linear 3%")%string
          || (afaModel =? "Linear 3% p.a.")%string then
    (if JS.le y 33 then 0.03 else 0.0)
  else if (afaModel =? "Degressive 5% + Linear 2%")%string then
    (if JS.le y 6 then 0.05 else 0.02)
  else if (afaModel =? "Degressive 5% + Linear 3%")%string then
    (if JS.le y 6 then 0.05 else 0.03)
  else if (afaModel =? "Linear 1/Restnutzungsdauer")%string
          || (afaModel =? "Linear 1 / remaining life")%string then
    (if JS.le y lifetimeYears then 1 / lifetimeYears else 0.0)
  else 0.02.

(** *** 3.1 Destructuring with defaults *)

Definition dflt {A : Type} (d : A) (o : option A) : A :=
  match o with Some v => v | None => d end.

Definition unpack (now : Q) (i : Raw.t) : Params :=
  let incomeTaxRate := dflt 0 (Raw.incomeTaxRate i) in
  let interestRate1 := dflt 0 (Raw.interestRate1 i) in
  {| startYear := dflt now (Raw.startYear i);
     buildingValue := dflt 0 (Raw.buildingValue i);
     landValue := dflt 0 (Raw.landValue i);
     grEStRate := dflt 0 (Raw.grEStRate i);
     maklerRate := dflt 0 (Raw.maklerRate i);
     grundbuchRate := dflt 0 (Raw.grundbuchRate i);
     notaryRate := dflt 0 (Raw.notaryRate i);
     companyCost := dflt 0 (Raw.companyCost i);
     fittingUp := dflt 0 (Raw.fittingUp i);
     initialRepairs := dflt 0 (Raw.initialRepairs i);
     buildingLossRate := dflt 0 (Raw.buildingLossRate i);
     landGrowthRate := dflt 0 (Raw.landGrowthRate i);
     constructionCostGrowth := dflt 0 (Raw.constructionCostGrowth i);
     annualMaintenance := dflt 0 (Raw.annualMaintenance i);
     maintenanceGrowth := dflt 0 (Raw.maintenanceGrowth i);
     sqm := dflt 0 (Raw.sqm i);
     monthlyRent := dflt 0 (Raw.monthlyRent i);
     vacancyRate := dflt 0 (Raw.vacancyRate i);
     rentGrowth := dflt 0 (Raw.rentGrowth i);
     incomeTaxRate := incomeTaxRate;
     equity := dflt 0 (Raw.equity i);
     loanTermYears1 := dflt 0 (Raw.loanTermYears1 i);
     fixRateYears1 := dflt 0 (Raw.fixRateYears1 i);
     interestRate1 := interestRate1;
     discountRate := dflt 0 (Raw.discountRate i);
     loanTermYears2 := dflt 0 (Raw.loanTermYears2 i);
     interestRate2 := dflt interestRate1 (Raw.interestRate2 i);
     sellingCostRate := dflt 0 (Raw.sellingCostRate i);
     saleMode := dflt "hold"%string (Raw.saleMode i);
     saleYear := Raw.saleYear i;
     investmentHorizonYears := dflt 30 (Raw.investmentHorizonYears i);
     altReturnBeforeTax := dflt 0 (Raw.altReturnBeforeTax i);
     altTaxRate := dflt incomeTaxRate (Raw.altTaxRate i);
     afaModel := dflt "Linear 2%"%string (Raw.afaModel i);
     buildingLifetimeYears := dflt 50 (Raw.buildingLifetimeYears i) |}.

Section Run.

Variable p : Params.

Definition horizonYears : Q :=
  JS.Math_max 1 (JS.or (investmentHorizonYears p) 1).

(** *** 3.2 Basic investment and depreciation basis *)

Definition purchasePrice : Q := buildingValue p + landValue p.

Definition sideCostRate : Q :=
  JS.or (grEStRate p) 0 + JS.or (maklerRate p) 0
  + JS.or (grundbuchRate p) 0 + JS.or (notaryRate p) 0.

Definition sideCostsVariable : Q := purchasePrice * sideCostRate.
Definition sideCostsTotal : Q := sideCostsVariable + JS.or (companyCost p) 0.

Definition totalInvestment : Q :=
  purchasePrice + JS.or (fittingUp p) 0 + JS.or (initialRepairs p) 0
  + sideCostsTotal.

Definition financingNeed : Q := totalInvestment - equity p.

Definition payoutFactor : Q := 1 - JS.or (discountRate p) 0.

Definition loanAmount1 : Q :=
  if JS.gt (JS.Math_abs payoutFactor) 1e-9
  then financingNeed / payoutFactor
  else financingNeed.

Definition disagio : Q := loanAmount1 - financingNeed.

Definition buildingShare : Q :=
  if JS.gt purchasePrice 0 then buildingValue p / purchasePrice else 0.

Definition afaBasis : Q :=
  buildingValue p + JS.or (fittingUp p) 0 + sideCostsVariable * buildingShare.

(** *** 3.3 Loan schedule *)

Definition r1 : Q := JS.or (interestRate1 p) 0.
Definition r2 : Q := JS.or (interestRate2 p) 0.
Definition n1 : Q := JS.or (loanTermYears1 p) 0.
Definition n2 : Q := JS.or (loanTermYears2 p) 0.

Definition annuity1_number : Num.t :=
  if JS.gt n1 0 then pmt_number r1 n1 (Num.Fin loanAmount1) else Num.Fin 0.

Definition annuity1 : Q := if JS.gt n1 0 then pmt r1 n1 loanAmount1 else 0.

(** The annuity of the first loan is finite, and so is that of a second
    loan, on whatever balance it starts. *)
Definition annuities_finite : bool :=
  Num.is_finite annuity1_number && (negb (JS.gt n2 0) || pmt_finite r2 n2).

Definition purchaseCostBasis : Q :=
  purchasePrice + JS.or (fittingUp p) 0 + sideCostsVariable * buildingShare.

(** The state before year 1 (sections 3.3 to 3.5). *)
Definition init : St.t :=
  let landVal := landValue p in
  let buildingVal := buildingValue p + JS.or (fittingUp p) 0 in
  {| St.remainingDebt := loanAmount1;
     St.cumPrincipal := 0;
     St.annuity2 := 0;
     St.secondLoanStarted := false;
     St.landVal := landVal;
     St.buildingVal := buildingVal;
     St.propertyVal := landVal + buildingVal;
     St.cumulativeCF := 0;
     St.saleHappened := false |}.

Definition withinLoan1 (year remainingDebt : Q) : bool :=
  JS.le year n1 && JS.gt remainingDebt 1e-6.

Definition withinLoan2 (year remainingDebt : Q) : bool :=
  negb (withinLoan1 year remainingDebt)
  && JS.gt n2 0
  && JS.le year (n1 + n2)
  && JS.gt remainingDebt 1e-6.

(** What the loan branch of a year leaves in the loop variables. *)
Record LoanYear : Type := mkLoanYear {
  ly_phase : Phase;
  ly_annualPayment : Q;
  ly_interestPaid : Q;
  ly_principalPaid : Q;
  ly_remainingDebt : Q;
  ly_cumPrincipal : Q;
  ly_annuity2 : Q;
  ly_secondLoanStarted : bool
}.

Definition loan_year (year : Q) (s : St.t) : LoanYear :=
  let remainingDebt := St.remainingDebt s in
  if withinLoan1 year remainingDebt then
    let annualPayment := annuity1 in
    let interestPaid := remainingDebt * r1 in
    let principalPaid :=
      JS.Math_min (annualPayment - interestPaid) remainingDebt in
    {| ly_phase := Loan1;
       ly_annualPayment := annualPayment;
       ly_interestPaid := interestPaid;
       ly_principalPaid := principalPaid;
       ly_remainingDebt := JS.Math_max (remainingDebt - principalPaid) 0;
       ly_cumPrincipal := St.cumPrincipal s + principalPaid;
       ly_annuity2 := St.annuity2 s;
       ly_secondLoanStarted := St.secondLoanStarted s |}
  else if withinLoan2 year remainingDebt then
    let annuity2 :=
      if negb (St.secondLoanStarted s) then pmt r2 n2 remainingDebt
      else St.annuity2 s in
    let annualPayment := annuity2 in
    let interestPaid := remainingDebt * r2 in
    let principalPaid :=
      JS.Math_min (annualPayment - interestPaid) remainingDebt in
    {| ly_phase := Loan2;
       ly_annualPayment := annualPayment;
       ly_interestPaid := interestPaid;
       ly_principalPaid := principalPaid;
       ly_remainingDebt := JS.Math_max (remainingDebt - principalPaid) 0;
       ly_cumPrincipal := St.cumPrincipal s + principalPaid;
       ly_annuity2 := annuity2;
       ly_secondLoanStarted := true |}
  else
    {| ly_phase := Repaid;
       ly_annualPayment := 0;
       ly_interestPaid := 0;
       ly_principalPaid := 0;
       ly_remainingDebt := remainingDebt;
       ly_cumPrincipal := St.cumPrincipal s;
       ly_annuity2 := St.annuity2 s;
       ly_secondLoanStarted := St.secondLoanStarted s |}.

(** *** The sale block *)

(** The condition of the [if] that guards the sale block. *)
Definition sale_fires (year : Q) (saleHappened : bool) : bool :=
  negb saleHappened
  && (saleMode p =? "sell")%string
  && match saleYear p with
     | Some sy => JS.strict_eq year sy
     | None => false
     end.

Definition capital_gains_tax (saleYear capitalGain : Q) : Q :=
  if JS.le saleYear 10 && JS.gt capitalGain 0
  then capitalGain * incomeTaxRate p
  else 0.

Definition sale_event (saleYear propertyVal remainingDebt : Q) : SaleEvent :=
  let saleGross := propertyVal * (1 - sellingCostRate p) in
  let capitalGain := saleGross - purchaseCostBasis in
  let cgt := capital_gains_tax saleYear capitalGain in
  let repayDebt := remainingDebt in
  {| saleGross := saleGross;
     capitalGain := capitalGain;
     cgt := cgt;
     repayDebt := repayDebt;
     saleNetCF := saleGross - repayDebt - cgt |}.

(** The sale block of year [year], if its condition holds. *)
Definition sale_of (year : Q) (saleHappened : bool)
    (propertyVal remainingDebt : Q) : option SaleEvent :=
  if sale_fires year saleHappened then
    match saleYear p with
    | Some sy => Some (sale_event sy propertyVal remainingDebt)
    | None => None
    end
  else None.

(** *** 3.5 One iteration of the yearly loop *)

Definition step (yr : Z) (s : St.t) : Iter * St.t :=
  let year := inject_Z yr in
  let calendarYear := startYear p + year - 1 in
  let ly := loan_year year s in
  let interestPaid := ly_interestPaid ly in
  let principalPaid := ly_principalPaid ly in
  let grossRent :=
    monthlyRent p * 12
    * Math_pow (1 + rentGrowth p) (JS.Math_max (year - 1) 0) in
  let netRent := grossRent * (1 - vacancyRate p) in
  let maintenance :=
    if JS.strict_eq year 1
    then - (annualMaintenance p + initialRepairs p)
    else - annualMaintenance p * Math_pow (1 + maintenanceGrowth p) (year - 1) in
  let afaRate := getAfaRate (afaModel p) year (buildingLifetimeYears p) in
  let depreciation := - afaBasis * afaRate in
  let interestExpense := - interestPaid in
  let principalFlow := - principalPaid in
  let taxable0 := netRent + maintenance + interestExpense + depreciation in
  let taxable :=
    if JS.strict_eq year 1 && JS.gt (JS.Math_abs disagio) 1e-6
    then taxable0 + - disagio
    else taxable0 in
  let taxCash := - incomeTaxRate p * taxable in
  let cashBeforeTax := netRent + maintenance + interestExpense + principalFlow in
  let cashAfterTax := cashBeforeTax + taxCash in
  let landVal := St.landVal s * (1 + landGrowthRate p) in
  let buildingVal :=
    St.buildingVal s * (1 - buildingLossRate p + constructionCostGrowth p) in
  let propertyVal := landVal + buildingVal in
  let cumulativeCF := St.cumulativeCF s + cashAfterTax in
  let cumPrincipal := ly_cumPrincipal ly in
  let wealthFromCFAndLoan := cumulativeCF + cumPrincipal in
  let equityPosition := propertyVal + wealthFromCFAndLoan - totalInvestment in
  match sale_of year (St.saleHappened s) propertyVal (ly_remainingDebt ly) with
  | Some ev =>
      let remainingDebt := 0 in
      let cashAfterTax := cashAfterTax + saleNetCF ev in
      let cumulativeCF := cumulativeCF + saleNetCF ev in
      let propertyVal := 0 in
      let wealthFromCFAndLoan := cumulativeCF + cumPrincipal in
      let equityPosition := wealthFromCFAndLoan - totalInvestment in
      ({| it_phase := ly_phase ly;
          it_debtBefore := St.remainingDebt s;
          it_annualPayment := ly_annualPayment ly;
          it_annuity2 := ly_annuity2 ly;
          it_sale := Some ev;
          it_year :=
            {| Year.yearIndex := yr;
               Year.calendarYear := calendarYear;
               Year.remainingDebt := remainingDebt;
               Year.interestPaid := interestPaid;
               Year.principalPaid := principalPaid;
               Year.grossRent := grossRent;
               Year.netRent := netRent;
               Year.maintenance := maintenance;
               Year.depreciation := depreciation;
               Year.taxable := taxable;
               Year.taxCash := taxCash;
               Year.cashBeforeTax := cashBeforeTax;
               Year.cashAfterTax := cashAfterTax;
               Year.cumulativeCF := cumulativeCF;
               Year.propertyValue := propertyVal;
               Year.wealthFromCFAndLoan := wealthFromCFAndLoan;
               Year.equityPosition := equityPosition |} |},
       {| St.remainingDebt := remainingDebt;
          St.cumPrincipal := cumPrincipal;
          St.annuity2 := ly_annuity2 ly;
          St.secondLoanStarted := ly_secondLoanStarted ly;
          St.landVal := landVal;
          St.buildingVal := buildingVal;
          St.propertyVal := propertyVal;
          St.cumulativeCF := cumulativeCF;
          St.saleHappened := true |})
  | None =>
      ({| it_phase := ly_phase ly;
          it_debtBefore := St.remainingDebt s;
          it_annualPayment := ly_annualPayment ly;
          it_annuity2 := ly_annuity2 ly;
          it_sale := None;
          it_year :=
            {| Year.yearIndex := yr;
               Year.calendarYear := calendarYear;
               Year.remainingDebt := ly_remainingDebt ly;
               Year.interestPaid := interestPaid;
               Year.principalPaid := principalPaid;
               Year.grossRent := grossRent;
               Year.netRent := netRent;
               Year.maintenance := maintenance;
               Year.depreciation := depreciation;
               Year.taxable := taxable;
               Year.taxCash := taxCash;
               Year.cashBeforeTax := cashBeforeTax;
               Year.cashAfterTax := cashAfterTax;
               Year.cumulativeCF := cumulativeCF;
               Year.propertyValue := propertyVal;
               Year.wealthFromCFAndLoan := wealthFromCFAndLoan;
               Year.equityPosition := equityPosition |} |},
       {| St.remainingDebt := ly_remainingDebt ly;
          St.cumPrincipal := cumPrincipal;
          St.annuity2 := ly_annuity2 ly;
          St.secondLoanStarted := ly_secondLoanStarted ly;
          St.landVal := landVal;
          St.buildingVal := buildingVal;
          St.propertyVal := propertyVal;
          St.cumulativeCF := cumulativeCF;
          St.saleHappened := St.saleHappened s |})
  end.

(** [for (let year = ...; year <= horizonYears; year++)]: the loop from
    [year] on, at most [fuel] iterations. *)
Fixpoint for_loop (fuel : nat) (year : Z) (s : St.t) : list Iter * St.t :=
  match fuel with
  | O => ([], s)
  | S fuel' =>
      if JS.le (inject_Z year) horizonYears then
        let (it, s') := step year s in
        let (its, s'') := for_loop fuel' (year + 1) s' in
        (it :: its, s'')
      else ([], s)
  end.

(** The loop never runs more than [floor horizonYears] times. *)
Definition loop_bound : nat := Z.to_nat (Qfloor horizonYears).

(** The iterations of the run, from year 1. *)
Definition iterations : list Iter := fst (for_loop loop_bound 1 init).

Definition years : list Year.t := map it_year iterations.

(** *** The loan schedule with numbers that need not be finite

    The loan branch of the loop (section 3.5) and the reset of the
    balance by the sale block, on [Num.t]: what the loan columns of the
    year records are when an annuity is not finite. *)

Definition init_number : NumSt.t :=
  {| NumSt.remainingDebt := Num.Fin loanAmount1;
     NumSt.cumPrincipal := Num.Fin 0;
     NumSt.annuity2 := Num.Fin 0;
     NumSt.secondLoanStarted := false;
     NumSt.saleHappened := false |}.

Definition withinLoan1_number (year : Q) (remainingDebt : Num.t) : bool :=
  JS.le year n1 && Num.gt remainingDebt (Num.Fin 1e-6).

Definition withinLoan2_number (year : Q) (remainingDebt : Num.t) : bool :=
  negb (withinLoan1_number year remainingDebt)
  && JS.gt n2 0
  && JS.le year (n1 + n2)
  && Num.gt remainingDebt (Num.Fin 1e-6).

Definition loan_year_number (year : Q) (s : NumSt.t) : LoanRow * NumSt.t :=
  let remainingDebt := NumSt.remainingDebt s in
  if withinLoan1_number year remainingDebt then
    let annualPayment := annuity1_number in
    let interestPaid := Num.mul remainingDebt (Num.Fin r1) in
    let principalPaid :=
      Num.Math_min (Num.sub annualPayment interestPaid) remainingDebt in
    let remainingDebt :=
      Num.Math_max (Num.sub remainingDebt principalPaid) (Num.Fin 0) in
    ({| row_interestPaid := interestPaid;
        row_principalPaid := principalPaid;
        row_remainingDebt := remainingDebt |},
     {| NumSt.remainingDebt := remainingDebt;
        NumSt.cumPrincipal := Num.add (NumSt.cumPrincipal s) principalPaid;
        NumSt.annuity2 := NumSt.annuity2 s;
        NumSt.secondLoanStarted := NumSt.secondLoanStarted s;
        NumSt.saleHappened := NumSt.saleHappened s |})
  else if withinLoan2_number year remainingDebt then
    let annuity2 :=
      if negb (NumSt.secondLoanStarted s) then pmt_number r2 n2 remainingDebt
      else NumSt.annuity2 s in
    let annualPayment := annuity2 in
    let interestPaid := Num.mul remainingDebt (Num.Fin r2) in
    let principalPaid :=
      Num.Math_min (Num.sub annualPayment interestPaid) remainingDebt in
    let remainingDebt :=
      Num.Math_max (Num.sub remainingDebt principalPaid) (Num.Fin 0) in
    ({| row_interestPaid := interestPaid;
        row_principalPaid := principalPaid;
        row_remainingDebt := remainingDebt |},
     {| NumSt.remainingDebt := remainingDebt;
        NumSt.cumPrincipal := Num.add (NumSt.cumPrincipal s) principalPaid;
        NumSt.annuity2 := annuity2;
        NumSt.secondLoanStarted := true;
        NumSt.saleHappened := NumSt.saleHappened s |})
  else
    ({| row_interestPaid := Num.Fin 0;
        row_principalPaid := Num.Fin 0;
        row_remainingDebt := remainingDebt |},
     s).

(** The loan columns of the record of year [yr]: the loan branch, then
    the sale block if its condition holds. *)
Definition loan_step_number (yr : Z) (s : NumSt.t) : LoanRow * NumSt.t :=
  let year := inject_Z yr in
  let (row, s1) := loan_year_number year s in
  if sale_fires year (NumSt.saleHappened s) then
    ({| row_interestPaid := row_interestPaid row;
        row_principalPaid := row_principalPaid row;
        row_remainingDebt := Num.Fin 0 |},
     {| NumSt.remainingDebt := Num.Fin 0;
        NumSt.cumPrincipal := NumSt.cumPrincipal s1;
        NumSt.annuity2 := NumSt.annuity2 s1;
        NumSt.secondLoanStarted := NumSt.secondLoanStarted s1;
        NumSt.saleHappened := true |})
  else (row, s1).

Fixpoint for_loop_number (fuel : nat) (year : Z) (s : NumSt.t) : list LoanRow :=
  match fuel with
  | O => []
  | S fuel' =>
      if JS.le (inject_Z year) horizonYears then
        let (row, s') := loan_step_number year s in
        row :: for_loop_number fuel' (year + 1) s'
      else []
  end.

(** The loan columns of [years]. *)
Definition loan_ledger_number : list LoanRow :=
  for_loop_number loop_bound 1 init_number.

(** *** 3.6 KPIs *)

(** [years[years.length - 1]], [None] when it is [undefined]. *)
Definition last_year (ys : list Year.t) : option Year.t :=
  nth_error ys (List.length ys - 1).

Definition yearsUsed : Q :=
  if (saleMode p =? "sell")%string then
    match saleYear p with
    | Some sy => JS.Math_min sy horizonYears
    | None => horizonYears
    end
  else horizonYears.

Definition kpis_of (last : Year.t) : Kpis.t :=
  let equityInvested := equity p in
  let equityPositionEnd := Year.equityPosition last in
  let totalProfit := equityPositionEnd in
  let roeTotal :=
    if JS.gt equityInvested 0 then totalProfit / equityInvested else 0 in
  let roeAnnualized :=
    if JS.gt equityInvested 0 && JS.gt yearsUsed 0
    then Math_pow (1 + roeTotal) (1 / yearsUsed) - 1
    else 0 in
  let equityMultiple :=
    if JS.gt equityInvested 0
    then (equityInvested + totalProfit) / equityInvested
    else 0 in
  let altAfterTaxReturn := altReturnBeforeTax p * (1 - altTaxRate p) in
  let altEndValue :=
    equityInvested * Math_pow (1 + altAfterTaxReturn) yearsUsed in
  let altProfit := altEndValue - equityInvested in
  {| Kpis.equityInvested := equityInvested;
     Kpis.equityPositionEnd := equityPositionEnd;
     Kpis.totalProfit := totalProfit;
     Kpis.roeTotal := roeTotal;
     Kpis.roeAnnualized := roeAnnualized;
     Kpis.equityMultiple := equityMultiple;
     Kpis.propertyValueEnd := Year.propertyValue last;
     Kpis.remainingDebtEnd := Year.remainingDebt last;
     Kpis.cumulativeCFEnd := Year.cumulativeCF last;
     Kpis.altEndValue := altEndValue;
     Kpis.altProfit := altProfit |}.

Definition meta_of : Meta.t :=
  {| Meta.startYear := startYear p;
     Meta.horizonYears := horizonYears;
     Meta.saleMode := saleMode p;
     Meta.saleYear := saleYear p;
     Meta.totalInvestment := totalInvestment;
     Meta.financingNeed := financingNeed;
     Meta.loanAmount1 := loanAmount1;
     Meta.disagio := disagio;
     Meta.afaBasis := afaBasis;
     Meta.purchaseCostBasis := purchaseCostBasis |}.

(** The body of [simulateScenario] after the destructuring.  [None] is
    the [TypeError] that reading [last.equityPosition] raises when [years]
    is empty. *)
Definition simulate : option Result.t :=
  match last_year years with
  | Some last =>
      Some {| Result.meta := meta_of;
              Result.years := years;
              Result.kpis := kpis_of last |}
  | None => None
  end.

End Run.

(** [simulateScenario(inputs, socioContext)]; [socioContext] is not read
    by the source and is left out. *)
Definition simulateScenario (now : Q) (inputs : Raw.t) : option Result.t :=
  simulate (unpack now inputs).

End Engine.

(* ------------------------------------------------------------------ *)
(** ** The callers in [src/main.js] *)

(** [buildScenarioInputs(baseInputs, variant)].  The copy changes
    [monthlyRent], [rentGrowth] and [vacancyRate] for the variants ["opt"]
    and ["pes"].  The arithmetic on a property that is absent gives NaN,
    which the model of numbers does not have: the result is then [None]. *)
Definition buildScenarioInputs (baseInputs : Raw.t) (variant : string)
    : option Raw.t :=
  let copy := baseInputs in
  if (variant =? "opt")%string then
    match Raw.monthlyRent baseInputs, Raw.rentGrowth baseInputs,
          Raw.vacancyRate baseInputs with
    | Some rent, Some rentGrowth, Some vac =>
        let copy := Raw.set_num Key.monthlyRent (rent * 1.05) copy in
        let copy := Raw.set_num Key.rentGrowth (rentGrowth + 0.005) copy in
        let copy := Raw.set_num Key.vacancyRate (JS.Math_max 0 (vac - 0.02)) copy in
        Some copy
    | _, _, _ => None
    end
  else if (variant =? "pes")%string then
    match Raw.monthlyRent baseInputs, Raw.rentGrowth baseInputs,
          Raw.vacancyRate baseInputs with
    | Some rent, Some rentGrowth, Some vac =>
        let copy := Raw.set_num Key.monthlyRent (rent * 0.95) copy in
        let copy :=
          Raw.set_num Key.rentGrowth (JS.Math_max 0 (rentGrowth - 0.005)) copy in
        let copy := Raw.set_num Key.vacancyRate (vac + 0.02) copy in
        Some copy
    | _, _, _ => None
    end
  else Some copy.

(** A record of [socioData], with the properties that [main.js] reads. *)
Record SocioRecord : Type := mkSocio {
  plz : string;
  population : Q;
  population_growth_pct : Q;
  median_net_income_eur : Q;
  unemployment_rate_pct : Q;
  avg_rent_eur_m2 : Q;
  new_construction_units_per_1000_residents : Q;
  vacancy_rate_pct : Q;
  avg_purchase_price_eur_m2 : Q
}.

(** The object returned by [buildSocioSuggestions]; [None] is [null]. *)
Module Suggest.
Record t : Type := mk {
  rec : SocioRecord;
  sqm : Q;
  totalPrice : Q;
  suggestedMonthlyRent : option Q;
  suggestedVacancyRate : Q;
  rentGrowth : Q;
  benchmarkPricePerM2 : Q;
  benchmarkTotalPrice : option Q;
  priceComment : string;
  priceBadge : string
}.
End Suggest.

(** The rent growth suggested for a postcode, before the floor at 0. *)
Definition suggested_growth (r : SocioRecord) : Q :=
  let rentGrowth := 0.01 in
  let rentGrowth :=
    if JS.gt (population_growth_pct r) 1.5 then rentGrowth + 0.005
    else if JS.lt (population_growth_pct r) 0 then rentGrowth - 0.003
    else rentGrowth in
  let rentGrowth :=
    if JS.lt (vacancy_rate_pct r) 2 then rentGrowth + 0.003 else rentGrowth in
  let rentGrowth :=
    if JS.gt (new_construction_units_per_1000_residents r) 5
    then rentGrowth - 0.003 else rentGrowth in
  rentGrowth.

(** [buildSocioSuggestions()].  What the function reads from the page is
    passed to it: [selected] is the result of [getSelectedPlzRecord()],
    and [sqm], [buildingValue], [landValue] are the results of the three
    calls of [parseNumber]. *)
Definition buildSocioSuggestions (selected : option SocioRecord)
    (sqm buildingValue landValue : Q) : option Suggest.t :=
  match selected with
  | None => None
  | Some rec =>
      let totalPrice := buildingValue + landValue in
      let suggestedMonthlyRent :=
        if JS.gt sqm 0 then Some (avg_rent_eur_m2 rec * sqm) else None in
      let rentGrowth := suggested_growth rec in
      let rentGrowth := if JS.lt rentGrowth 0 then 0 else rentGrowth in
      let suggestedVacancyRate := vacancy_rate_pct rec / 100 in
      let benchmarkPricePerM2 := avg_purchase_price_eur_m2 rec in
      let benchmarkTotalPrice :=
        if JS.gt sqm 0 then Some (benchmarkPricePerM2 * sqm) else None in
      let truthy :=
        match benchmarkTotalPrice with
        | Some b => negb (Qeq_bool b 0)
        | None => false
        end in
      let '(priceComment, priceBadge) :=
        match benchmarkTotalPrice with
        | Some b =>
            if truthy && JS.gt totalPrice 0 then
              let diff := totalPrice - b in
              let diffPct := diff / b in
              if JS.lt diffPct (- 0.1) then
                ("Below benchmark price level."%string, "good"%string)
              else if JS.le (JS.Math_abs diffPct) 0.1 then
                ("Around benchmark price level."%string, "neutral"%string)
              else
                ("Above benchmark price level."%string, "bad"%string)
            else (""%string, "neutral"%string)
        | None => (""%string, "neutral"%string)
        end in
      Some {| Suggest.rec := rec;
              Suggest.sqm := sqm;
              Suggest.totalPrice := totalPrice;
              Suggest.suggestedMonthlyRent := suggestedMonthlyRent;
              Suggest.suggestedVacancyRate := suggestedVacancyRate;
              Suggest.rentGrowth := rentGrowth;
              Suggest.benchmarkPricePerM2 := benchmarkPricePerM2;
              Suggest.benchmarkTotalPrice := benchmarkTotalPrice;
              Suggest.priceComment := priceComment;
              Suggest.priceBadge := priceBadge |}
  end.

(** [recalcAllScenarios()], from the inputs that [collectInputsFromForm]
    returned: the results of the base, the optimistic and the pessimistic
    scenario. *)
Definition recalcAllScenarios (pow_frac : Q -> Q -> Q) (now : Q)
    (baseInputs : Raw.t)
    : option (Result.t * Result.t * Result.t) :=
  match simulateScenario pow_frac now baseInputs,
        buildScenarioInputs baseInputs "opt",
        buildScenarioInputs baseInputs "pes" with
  | Some baseResult, Some optInputs, Some pesInputs =>
      match simulateScenario pow_frac now optInputs,
            simulateScenario pow_frac now pesInputs with
      | Some optResult, Some pesResult =>
          Some (baseResult, optResult, pesResult)
      | _, _ => None
      end
  | _, _, _ => None
  end.

(* ------------------------------------------------------------------ *)
(** ** The loan schedule, year by year *)

(** What holds of an iteration by itself. *)
Definition loan_year_ok (p : Params) (it : Iter) : Prop :=
  (it_phase it = Loan2 ->
     n1 p < inject_Z (Year.yearIndex (it_year it)) /\
     inject_Z (Year.yearIndex (it_year it)) <= n1 p + n2 p /\
     1e-6 < it_debtBefore it) /\
  (it_debtBefore it <= 1e-6 -> it_phase it = Repaid) /\
  (it_phase it = Repaid ->
     Year.interestPaid (it_year it) = 0 /\
     Year.principalPaid (it_year it) = 0 /\
     it_annualPayment it = 0).

(** What holds of an iteration [a] and a later one [b]. *)
Definition loan_years_ok (a b : Iter) : Prop :=
  (phase_rank (it_phase a) <= phase_rank (it_phase b))%nat /\
  (it_debtBefore a <= 1e-6 -> it_debtBefore b <= 1e-6) /\
  (it_phase a = Loan2 -> it_phase b = Loan2 ->
     it_annualPayment b = it_annualPayment a).

(* ------------------------------------------------------------------ *)
(** ** Rationals as numbers *)

(** The loan columns of a year record of the ledger. *)
Definition loan_row (y : Year.t) : LoanRow :=
  {| row_interestPaid := Num.Fin (Year.interestPaid y);
     row_principalPaid := Num.Fin (Year.principalPaid y);
     row_remainingDebt := Num.Fin (Year.remainingDebt y) |}.

(** The loan variables and the sale flag of a state of the ledger. *)
Definition loan_state (s : St.t) : NumSt.t :=
  {| NumSt.remainingDebt := Num.Fin (St.remainingDebt s);
     NumSt.cumPrincipal := Num.Fin (St.cumPrincipal s);
     NumSt.annuity2 := Num.Fin (St.annuity2 s);
     NumSt.secondLoanStarted := St.secondLoanStarted s;
     NumSt.saleHappened := St.saleHappened s |}.

(** The loan branch of a year as the ledger has it: the loan columns and
    the loan variables it leaves. *)
Definition loan_year_rows (pow_frac : Q -> Q -> Q) (p : Params) (year : Q)
    (s : St.t) : LoanRow * NumSt.t :=
  let ly := loan_year pow_frac p year s in
  ({| row_interestPaid := Num.Fin (ly_interestPaid ly);
      row_principalPaid := Num.Fin (ly_principalPaid ly);
      row_remainingDebt := Num.Fin (ly_remainingDebt ly) |},
   {| NumSt.remainingDebt := Num.Fin (ly_remainingDebt ly);
      NumSt.cumPrincipal := Num.Fin (ly_cumPrincipal ly);
      NumSt.annuity2 := Num.Fin (ly_annuity2 ly);
      NumSt.secondLoanStarted := ly_secondLoanStarted ly;
      NumSt.saleHappened := St.saleHappened s |}).

(* ------------------------------------------------------------------ *)
(** ** Sums over the ledger *)

Definition sum_cashAfterTax (ys : list Year.t) : Q :=
  fold_right (fun y acc => Year.cashAfterTax y + acc) 0 ys.

(** The depreciation rates of the years [1..n] added up. *)
Fixpoint afa_total (getRate : Q -> Q) (n : nat) : Q :=
  match n with
  | O => 0
  | S n' => afa_total getRate n' + getRate (inject_Z (Z.of_nat n))
  end.

(* ------------------------------------------------------------------ *)
(** ** Inputs of the examples *)

(** A [Math.pow] for the examples; no statement below depends on its
    values at fractional exponents. *)
Definition pow_example : Q -> Q -> Q := fun _ _ => 0.

(** The scenario of the specification. *)
Definition scenario_inputs : Raw.t :=
  Raw.obj
    [ (Key.buildingValue, 200000); (Key.landValue, 80000);
      (Key.grEStRate, 0.05); (Key.maklerRate, 0.03);
      (Key.grundbuchRate, 0.005); (Key.notaryRate, 0.015);
      (Key.fittingUp, 30000); (Key.initialRepairs, 5000);
      (Key.equity, 80000); (Key.loanTermYears1, 30);
      (Key.interestRate1, 0.035); (Key.monthlyRent, 1200);
      (Key.vacancyRate, 0.05); (Key.rentGrowth, 0.01);
      (Key.incomeTaxRate, 0.3); (Key.investmentHorizonYears, 30);
      (Key.discountRate, 0) ]
    [ (Key.afaModel, "Linear 2%"%string); (Key.saleMode, "hold"%string) ].

(** A plot of land bought for cash and sold in year 1 of 2. *)
Definition sold_land_inputs : Raw.t :=
  Raw.obj
    [ (Key.startYear, 2025); (Key.landValue, 100); (Key.equity, 100);
      (Key.saleYear, 1); (Key.investmentHorizonYears, 2) ]
    [ (Key.saleMode, "sell"%string) ].

(** A loan of 2100 at 10 % over 2 years, horizon 3 years. *)
Definition two_year_loan_inputs : Raw.t :=
  Raw.obj
    [ (Key.startYear, 2025); (Key.buildingValue, 2100);
      (Key.loanTermYears1, 2); (Key.interestRate1, 0.1);
      (Key.investmentHorizonYears, 3) ]
    [ ].

(** Nothing bought, nothing borrowed, a full discount, a horizon below 1
    and a sale year of 0. *)
Definition degenerate_inputs : Raw.t :=
  Raw.obj
    [ (Key.discountRate, 1); (Key.investmentHorizonYears, -3);
      (Key.saleYear, 0) ]
    [ (Key.saleMode, "sell"%string) ].

(** Selling is asked for, in a year 0 that the loop never reaches. *)
Definition sale_year_zero_inputs : Raw.t :=
  Raw.obj
    [ (Key.startYear, 2025); (Key.equity, 100);
      (Key.altReturnBeforeTax, 0.5); (Key.saleYear, 0);
      (Key.investmentHorizonYears, 1) ]
    [ (Key.saleMode, "sell"%string) ].

(** Selling is asked for, in year 5 of a horizon of 2 years. *)
Definition sale_after_horizon_inputs : Raw.t :=
  Raw.obj
    [ (Key.startYear, 2025); (Key.landValue, 100); (Key.equity, 100);
      (Key.saleYear, 5); (Key.investmentHorizonYears, 2) ]
    [ (Key.saleMode, "sell"%string) ].

(** No first loan; 100 refinanced over one year; [interestRate2] is
    absent and [interestRate1] is 50 %. *)
Definition second_loan_inputs : Raw.t :=
  Raw.obj
    [ (Key.startYear, 2025); (Key.buildingValue, 100);
      (Key.loanTermYears2, 1); (Key.interestRate1, 0.5);
      (Key.investmentHorizonYears, 1) ]
    [ ].

(** 300 borrowed without interest: a first term of one and a half years,
    then two years of refinancing, over a horizon of 4 years. *)
Definition refinanced_inputs : Raw.t :=
  Raw.obj
    [ (Key.startYear, 2025); (Key.buildingValue, 300);
      (Key.loanTermYears1, 1.5); (Key.loanTermYears2, 2);
      (Key.investmentHorizonYears, 4) ]
    [ ].



(** A flat let at 1000 a month, growing 1 % a year, 5 % vacant, over a
    horizon of 2 years. *)
Definition let_flat_inputs : Raw.t :=
  Raw.obj
    [ (Key.startYear, 2025); (Key.monthlyRent, 1000); (Key.rentGrowth, 0.01);
      (Key.vacancyRate, 0.05); (Key.investmentHorizonYears, 2) ]
    [ ].

(** A postcode with a growing population, little vacancy and much new
    construction; 3000 per square metre. *)
Definition example_postcode : SocioRecord :=
  {| plz := "10115";
     population := 50000;
     population_growth_pct := 2;
     median_net_income_eur := 2500;
     unemployment_rate_pct := 6;
     avg_rent_eur_m2 := 12;
     new_construction_units_per_1000_residents := 7;
     vacancy_rate_pct := 1.5;
     avg_purchase_price_eur_m2 := 3000 |}.

(** A plot of 100 bought with an equity of 150 and held for 2 years. *)
Definition cash_purchase_inputs : Raw.t :=
  Raw.obj
    [ (Key.startYear, 2025); (Key.landValue, 100); (Key.equity, 150);
      (Key.investmentHorizonYears, 2) ]
    [ ].

(** 100 borrowed for two years at an interest rate of -200 %. *)
Definition negative_rate_inputs : Raw.t :=
  Raw.obj
    [ (Key.startYear, 2025); (Key.buildingValue, 100);
      (Key.loanTermYears1, 2); (Key.interestRate1, -2);
      (Key.investmentHorizonYears, 2) ]
    [ ].

(** A plot of land bought for cash at 100, which gains 50 % a year, sold
    in year 1 of 2 at an income tax rate of 30 %. *)
Definition sold_at_a_gain_inputs : Raw.t :=
  Raw.obj
    [ (Key.startYear, 2025); (Key.landValue, 100); (Key.equity, 100);
      (Key.landGrowthRate, 0.5); (Key.incomeTaxRate, 0.3);
      (Key.saleYear, 1); (Key.investmentHorizonYears, 2) ]
    [ (Key.saleMode, "sell"%string) ].

(** The same plot, sold in year 11 of 11. *)
Definition sold_after_ten_years_inputs : Raw.t :=
  Raw.obj
    [ (Key.startYear, 2025); (Key.landValue, 100); (Key.equity, 100);
      (Key.landGrowthRate, 0.5); (Key.incomeTaxRate, 0.3);
      (Key.saleYear, 11); (Key.investmentHorizonYears, 11) ]
    [ (Key.saleMode, "sell"%string) ].

(** A plot of land bought for cash at 100, which gains 50 % in the one
    year of the horizon; selling is asked for in a year 0. *)
Definition gain_without_sale_inputs : Raw.t :=
  Raw.obj
    [ (Key.startYear, 2025); (Key.landValue, 100); (Key.equity, 100);
      (Key.landGrowthRate, 0.5); (Key.saleYear, 0);
      (Key.investmentHorizonYears, 1) ]
    [ (Key.saleMode, "sell"%string) ].

(* ------------------------------------------------------------------ *)
(** ** Facts about the JavaScript operators *)

Lemma lt_true (a b : Q) : JS.lt a b = true <-> a < b.
Proof.
  unfold JS.lt. rewrite negb_true_iff. split; intro H.
  - apply Qnot_le_lt. intro Hle. apply Qle_bool_iff in Hle. congruence.
  - destruct (Qle_bool b a) eqn:E; [|reflexivity].
    apply Qle_bool_iff in E. exfalso. apply (Qlt_not_le _ _ H E).
Qed.

Lemma lt_false (a b : Q) : JS.lt a b = false <-> b <= a.
Proof.
  unfold JS.lt. rewrite negb_false_iff. apply Qle_bool_iff.
Qed.

Lemma le_true (a b : Q) : JS.le a b = true <-> a <= b.
Proof. apply Qle_bool_iff. Qed.

Lemma le_false (a b : Q) : JS.le a b = false <-> b < a.
Proof.
  unfold JS.le. split; intro H.
  - apply Qnot_le_lt. intro Hle. apply Qle_bool_iff in Hle. congruence.
  - destruct (Qle_bool a b) eqn:E; [|reflexivity].
    apply Qle_bool_iff in E. exfalso. apply (Qlt_not_le _ _ H E).
Qed.

Lemma gt_true (a b : Q) : JS.gt a b = true <-> b < a.
Proof. apply lt_true. Qed.

Lemma gt_false (a b : Q) : JS.gt a b = false <-> a <= b.
Proof. apply lt_false. Qed.

Lemma strict_eq_true (a b : Q) : JS.strict_eq a b = true <-> a == b.
Proof. apply Qeq_bool_iff. Qed.

Lemma Math_max_ge_r (a b : Q) : b <= JS.Math_max a b.
Proof.
  unfold JS.Math_max. destruct (JS.lt a b) eqn:E.
  - apply Qle_refl.
  - apply lt_false in E. exact E.
Qed.

Lemma Math_max_ge_l (a b : Q) : a <= JS.Math_max a b.
Proof.
  unfold JS.Math_max. destruct (JS.lt a b) eqn:E.
  - apply lt_true in E. apply Qlt_le_weak. exact E.
  - apply Qle_refl.
Qed.

Lemma Math_max_l (a b : Q) : b <= a -> JS.Math_max a b = a.
Proof.
  intro H. unfold JS.Math_max. apply lt_false in H. rewrite H. reflexivity.
Qed.

Lemma Math_min_le_r (a b : Q) : JS.Math_min a b <= b.
Proof.
  unfold JS.Math_min. destruct (JS.lt b a) eqn:E.
  - apply Qle_refl.
  - apply lt_false in E. exact E.
Qed.

Lemma Math_min_le_l (a b : Q) : JS.Math_min a b <= a.
Proof.
  unfold JS.Math_min. destruct (JS.lt b a) eqn:E.
  - apply lt_true in E. apply Qlt_le_weak. exact E.
  - apply Qle_refl.
Qed.

Lemma Math_min_l (a b : Q) : a <= b -> JS.Math_min a b = a.
Proof.
  intro H. unfold JS.Math_min. apply lt_false in H. rewrite H. reflexivity.
Qed.

Lemma Math_min_r (a b : Q) : b < a -> JS.Math_min a b = b.
Proof.
  intro H. unfold JS.Math_min. apply lt_true in H. rewrite H. reflexivity.
Qed.

Lemma is_integer_inject_Z (z : Z) : JS.is_integer (inject_Z z) = true.
Proof.
  unfold JS.is_integer. rewrite Qfloor_Z. apply Qeq_bool_iff. reflexivity.
Qed.

Lemma is_integer_eq (x : Q) (z : Z) : x == inject_Z z -> JS.is_integer x = true /\ Qfloor x = z.
Proof.
  intro H. unfold JS.is_integer.
  assert (Hf : Qfloor x = z) by (rewrite H; apply Qfloor_Z).
  split; [|exact Hf]. rewrite Hf. apply Qeq_bool_iff. symmetry. exact H.
Qed.

(** A power of 0 with a negative exponent, in [Q]. *)
Lemma Qpower_positive_zero (d n : positive) :
  exists d', Qpower_positive (0 # d) n = 0 # d'.
Proof.
  unfold Qpower_positive. revert d.
  induction n as [n IH|n IH|]; intro d; simpl.
  - destruct (IH d) as [d' E]. rewrite E. eexists. reflexivity.
  - destruct (IH d) as [d' E]. rewrite E. eexists. reflexivity.
  - eexists. reflexivity.
Qed.

Lemma Qpower_zero_neg (b : Q) (z : Z) :
  Qeq_bool b 0 = true -> (z < 0)%Z -> Qpower b z = 0.
Proof.
  intros Hb Hz. destruct z as [|n|n]; try lia.
  destruct b as [a d]. unfold Qeq_bool in Hb. simpl in Hb.
  apply Z.eqb_eq in Hb. rewrite Z.mul_1_r in Hb. subst a.
  simpl. destruct (Qpower_positive_zero d n) as [d' E]. rewrite E. reflexivity.
Qed.

Lemma Math_pow_integer (pf : Q -> Q -> Q) (b e : Q) (z : Z) :
  e == inject_Z z -> Math_pow pf b e = Qpower b z.
Proof.
  intro H. unfold Math_pow, Num.Math_pow.
  destruct (is_integer_eq e z H) as [Hi Hf]. rewrite Hi, Hf.
  destruct (Qeq_bool b 0 && (z <? 0)%Z) eqn:E; [|reflexivity].
  apply andb_prop in E. destruct E as [E1 E2]. apply Z.ltb_lt in E2.
  simpl. symmetry. apply Qpower_zero_neg; assumption.
Qed.

(** The power as a number, at an integer exponent and a base other than
    0. *)
Lemma Math_pow_number_integer (pf : Q -> Q -> Q) (b e : Q) (z : Z) :
  e == inject_Z z -> ~ b == 0 ->
  Num.Math_pow pf b e = Num.Fin (Qpower b z).
Proof.
  intros H Hb. unfold Num.Math_pow.
  destruct (is_integer_eq e z H) as [Hi Hf]. rewrite Hi, Hf.
  destruct (Qeq_bool b 0) eqn:E; [|reflexivity].
  apply Qeq_bool_iff in E. contradiction.
Qed.

Lemma is_finite_value (x : Num.t) :
  Num.is_finite x = true -> x = Num.Fin (Num.value x).
Proof. destruct x; simpl; [reflexivity|discriminate..]. Qed.

Section PmtFacts.

Variable pow_frac : Q -> Q -> Q.

Lemma pmt_number_zero_rate (rate nper pv : Q) :
  Qabs rate < 1e-9 ->
  pmt_number pow_frac rate nper (Num.Fin pv)
  = Num.Fin (if JS.gt nper 0 then pv / nper else 0).
Proof.
  intro H. unfold pmt_number, JS.Math_abs. apply lt_true in H. rewrite H.
  destruct (JS.gt nper 0) eqn:G; [|reflexivity].
  apply gt_true in G. simpl.
  destruct (Qeq_bool nper 0) eqn:E; [|reflexivity].
  apply Qeq_bool_iff in E. rewrite E in G. discriminate.
Qed.

Lemma pmt_zero_rate (rate nper pv : Q) :
  Qabs rate < 1e-9 ->
  pmt pow_frac rate nper pv = if JS.gt nper 0 then pv / nper else 0.
Proof.
  intro H. unfold pmt. rewrite pmt_number_zero_rate by exact H. reflexivity.
Qed.

(** The annuity at a rate of 1e-9 or more in absolute value, a term of a
    whole number of years and a divisor other than 0. *)
Lemma pmt_number_regular (rate nper pv : Q) (z : Z) :
  1e-9 <= Qabs rate -> nper == inject_Z z -> ~ 1 + rate == 0 ->
  ~ 1 - Qpower (1 + rate) (- z) == 0 ->
  pmt_number pow_frac rate nper (Num.Fin pv)
  = Num.Fin (pv * rate / (1 - Qpower (1 + rate) (- z))).
Proof.
  intros Hr Hn Hb Hd. unfold pmt_number, JS.Math_abs.
  apply lt_false in Hr. rewrite Hr.
  assert (He : - nper == inject_Z (- z)).
  { rewrite Hn, inject_Z_opp. reflexivity. }
  rewrite (Math_pow_number_integer pow_frac _ _ _ He Hb). simpl.
  destruct (Qeq_bool (1 + - Qpower (1 + rate) (- z)) 0) eqn:E; [|reflexivity].
  apply Qeq_bool_iff in E. contradiction.
Qed.

Lemma pmt_regular (rate nper pv : Q) (z : Z) :
  1e-9 <= Qabs rate -> nper == inject_Z z -> ~ 1 + rate == 0 ->
  ~ 1 - Qpower (1 + rate) (- z) == 0 ->
  pmt pow_frac rate nper pv = pv * rate / (1 - Qpower (1 + rate) (- z)).
Proof.
  intros Hr Hn Hb Hd. unfold pmt.
  rewrite (pmt_number_regular rate nper pv z) by assumption. reflexivity.
Qed.

(** A finite [pmt] is finite on every finite [pv]. *)
Lemma pmt_number_finite (rate nper pv : Q) :
  pmt_finite pow_frac rate nper = true ->
  pmt_number pow_frac rate nper (Num.Fin pv)
  = Num.Fin (pmt pow_frac rate nper pv).
Proof.
  unfold pmt_finite, pmt. intro H. apply is_finite_value.
  unfold pmt_number in *.
  destruct (JS.lt (JS.Math_abs rate) 1e-9).
  - destruct (JS.gt nper 0); [|reflexivity]. simpl in *.
    destruct (Qeq_bool nper 0); [|reflexivity].
    destruct (1 ?= 0) eqn:E; simpl in H; try discriminate H.
  - destruct (Num.sub (Num.Fin 1) (Num.Math_pow pow_frac (1 + rate) (- nper)))
      as [d| | |]; simpl in *; try reflexivity; try discriminate H.
    destruct (Qeq_bool d 0); [|reflexivity].
    destruct (1 * rate ?= 0); discriminate H.
Qed.

End PmtFacts.

Section LoopFacts.

Variable pow_frac : Q -> Q -> Q.
Variable p : Params.

Lemma horizonYears_ge_1 : 1 <= horizonYears p.
Proof. unfold horizonYears. apply Math_max_ge_l. Qed.

Lemma loop_bound_pos : (1 <= loop_bound p)%nat.
Proof.
  unfold loop_bound.
  assert (H : (1 <= Qfloor (horizonYears p))%Z).
  { change 1%Z with (Qfloor 1). apply Qfloor_resp_le. apply horizonYears_ge_1. }
  lia.
Qed.

Lemma guard_iff (y : Z) :
  JS.le (inject_Z y) (horizonYears p) = true <-> (y <= Qfloor (horizonYears p))%Z.
Proof.
  rewrite le_true. split; intro H.
  - rewrite <- (Qfloor_Z y). apply Qfloor_resp_le. exact H.
  - apply Qle_trans with (inject_Z (Qfloor (horizonYears p))).
    + rewrite <- Zle_Qle. exact H.
    + apply Qfloor_le.
Qed.

Lemma for_loop_cons (fuel : nat) (y : Z) (s : St.t) :
  JS.le (inject_Z y) (horizonYears p) = true ->
  for_loop pow_frac p (S fuel) y s =
  (fst (step pow_frac p y s)
     :: fst (for_loop pow_frac p fuel (y + 1) (snd (step pow_frac p y s))),
   snd (for_loop pow_frac p fuel (y + 1) (snd (step pow_frac p y s)))).
Proof.
  intro H. simpl. rewrite H.
  destruct (step pow_frac p y s) as [it s']. cbn [fst snd].
  destruct (for_loop pow_frac p fuel (y + 1) s') as [its s'']. reflexivity.
Qed.

Lemma for_loop_stop (fuel : nat) (y : Z) (s : St.t) :
  JS.le (inject_Z y) (horizonYears p) = false ->
  for_loop pow_frac p fuel y s = ([], s).
Proof. intro H. destruct fuel; simpl; [|rewrite H]; reflexivity. Qed.

(** The loop leaves by its guard: [loop_bound] iterations are all there
    are, whatever fuel is added. *)
Lemma for_loop_fuel (fuel : nat) : forall (extra : nat) (y : Z) (s : St.t),
  (Qfloor (horizonYears p) < y + Z.of_nat fuel)%Z ->
  for_loop pow_frac p (fuel + extra) y s = for_loop pow_frac p fuel y s.
Proof.
  induction fuel as [|fuel IH]; intros extra y s H.
  - simpl Nat.add. apply for_loop_stop. apply not_true_is_false.
    intro G. apply guard_iff in G. simpl in H. lia.
  - destruct (JS.le (inject_Z y) (horizonYears p)) eqn:G.
    + change (S fuel + extra)%nat with (S (fuel + extra)).
      rewrite !for_loop_cons by exact G.
      rewrite IH by lia. reflexivity.
    + rewrite !for_loop_stop by exact G. reflexivity.
Qed.

Lemma for_loop_length (fuel : nat) : forall (y : Z) (s : St.t),
  (y + Z.of_nat fuel <= Qfloor (horizonYears p) + 1)%Z ->
  List.length (fst (for_loop pow_frac p fuel y s)) = fuel.
Proof.
  induction fuel as [|fuel IH]; intros y s H; [reflexivity|].
  rewrite for_loop_cons by (apply guard_iff; lia).
  simpl. rewrite IH by lia. reflexivity.
Qed.

(** Every iteration is [step] at a year of the loop, from some state that
    satisfies what the steps before it keep. *)
Lemma for_loop_invariant (Inv : Z -> St.t -> Prop) (P : Iter -> Prop) :
  (forall y s, (1 <= y)%Z -> inject_Z y <= horizonYears p -> Inv y s ->
     P (fst (step pow_frac p y s)) /\ Inv (y + 1)%Z (snd (step pow_frac p y s))) ->
  forall (fuel : nat) (y : Z) (s : St.t), (1 <= y)%Z -> Inv y s ->
  Forall P (fst (for_loop pow_frac p fuel y s)).
Proof.
  intros Hstep. induction fuel as [|fuel IH]; intros y s Hy Hs.
  - constructor.
  - destruct (JS.le (inject_Z y) (horizonYears p)) eqn:G.
    + rewrite for_loop_cons by exact G. simpl.
      destruct (Hstep y s Hy (proj1 (le_true _ _) G) Hs) as [HP HI].
      constructor; [exact HP|]. apply IH; [lia|exact HI].
    + rewrite for_loop_stop by exact G. constructor.
Qed.

Lemma iterations_length : List.length (iterations pow_frac p) = loop_bound p.
Proof.
  unfold iterations. apply for_loop_length.
  unfold loop_bound. pose proof loop_bound_pos as H. unfold loop_bound in H. lia.
Qed.

Lemma years_length : List.length (years pow_frac p) = loop_bound p.
Proof. unfold years. rewrite length_map. apply iterations_length. Qed.

Lemma iterations_head :
  exists rest, iterations pow_frac p = fst (step pow_frac p 1 (init p)) :: rest.
Proof.
  unfold iterations. pose proof loop_bound_pos as H.
  destruct (loop_bound p) as [|n] eqn:E; [lia|].
  assert (G : JS.le (inject_Z 1) (horizonYears p) = true).
  { apply le_true. apply horizonYears_ge_1. }
  rewrite for_loop_cons by exact G. simpl. eexists. reflexivity.
Qed.

Lemma last_year_some (ys : list Year.t) :
  ys <> [] -> exists y, last_year ys = Some y.
Proof.
  intro H. unfold last_year.
  destruct (nth_error ys (List.length ys - 1)) eqn:E; [eauto|].
  apply nth_error_None in E. destruct ys; [congruence|simpl in E; lia].
Qed.

End LoopFacts.

Section StepFacts.

Variable pow_frac : Q -> Q -> Q.
Variable p : Params.


Ltac step_cases y s :=
  unfold step;
  destruct (sale_of p (inject_Z y) (St.saleHappened s) _ _); reflexivity.

Lemma step_phase y s : it_phase (fst (step pow_frac p y s)) = ly_phase (loan_year pow_frac p (inject_Z y) s).
Proof. step_cases y s. Qed.

Lemma step_debtBefore y s : it_debtBefore (fst (step pow_frac p y s)) = St.remainingDebt s.
Proof. step_cases y s. Qed.

Lemma step_annualPayment y s :
  it_annualPayment (fst (step pow_frac p y s)) = ly_annualPayment (loan_year pow_frac p (inject_Z y) s).
Proof. step_cases y s. Qed.

Lemma step_interestPaid y s :
  Year.interestPaid (it_year (fst (step pow_frac p y s))) = ly_interestPaid (loan_year pow_frac p (inject_Z y) s).
Proof. step_cases y s. Qed.

Lemma step_principalPaid y s :
  Year.principalPaid (it_year (fst (step pow_frac p y s))) = ly_principalPaid (loan_year pow_frac p (inject_Z y) s).
Proof. step_cases y s. Qed.

Lemma step_yearIndex y s : Year.yearIndex (it_year (fst (step pow_frac p y s))) = y.
Proof. step_cases y s. Qed.

Lemma step_calendarYear y s :
  Year.calendarYear (it_year (fst (step pow_frac p y s))) = startYear p + inject_Z y - 1.
Proof. step_cases y s. Qed.

Lemma step_it_sale y s :
  it_sale (fst (step pow_frac p y s)) =
  sale_of p (inject_Z y) (St.saleHappened s)
    (St.landVal s * (1 + landGrowthRate p)
     + St.buildingVal s * (1 - buildingLossRate p + constructionCostGrowth p))
    (ly_remainingDebt (loan_year pow_frac p (inject_Z y) s)).
Proof.
  unfold step.
  destruct (sale_of p (inject_Z y) (St.saleHappened s) _ _) eqn:E; reflexivity.
Qed.

Lemma step_remainingDebt y s :
  Year.remainingDebt (it_year (fst (step pow_frac p y s))) = St.remainingDebt (snd (step pow_frac p y s)).
Proof. step_cases y s. Qed.

Lemma step_st_remainingDebt y s :
  St.remainingDebt (snd (step pow_frac p y s)) =
  match it_sale (fst (step pow_frac p y s)) with
  | Some _ => 0
  | None => ly_remainingDebt (loan_year pow_frac p (inject_Z y) s)
  end.
Proof. step_cases y s. Qed.

Lemma step_st_cumPrincipal y s :
  St.cumPrincipal (snd (step pow_frac p y s)) = ly_cumPrincipal (loan_year pow_frac p (inject_Z y) s).
Proof. step_cases y s. Qed.

Lemma step_st_annuity2 y s :
  St.annuity2 (snd (step pow_frac p y s)) = ly_annuity2 (loan_year pow_frac p (inject_Z y) s).
Proof. step_cases y s. Qed.

Lemma step_st_secondLoanStarted y s :
  St.secondLoanStarted (snd (step pow_frac p y s)) = ly_secondLoanStarted (loan_year pow_frac p (inject_Z y) s).
Proof. step_cases y s. Qed.

Lemma step_st_landVal y s :
  St.landVal (snd (step pow_frac p y s)) = St.landVal s * (1 + landGrowthRate p).
Proof. step_cases y s. Qed.

Lemma step_st_buildingVal y s :
  St.buildingVal (snd (step pow_frac p y s)) =
  St.buildingVal s * (1 - buildingLossRate p + constructionCostGrowth p).
Proof. step_cases y s. Qed.

Lemma step_st_saleHappened y s :
  St.saleHappened (snd (step pow_frac p y s)) =
  match it_sale (fst (step pow_frac p y s)) with
  | Some _ => true
  | None => St.saleHappened s
  end.
Proof. step_cases y s. Qed.

(** The balance a loan branch leaves is never negative. *)
Lemma loan_year_debt_nonneg (year : Q) (s : St.t) :
  0 <= St.remainingDebt s -> 0 <= ly_remainingDebt (loan_year pow_frac p year s).
Proof.
  intro H. unfold loan_year.
  destruct (withinLoan1 p year (St.remainingDebt s));
    [|destruct (withinLoan2 p year (St.remainingDebt s))]; simpl.
  - apply Math_max_ge_r.
  - apply Math_max_ge_r.
  - exact H.
Qed.

Lemma step_debt_nonneg y s :
  0 <= St.remainingDebt s -> 0 <= St.remainingDebt (snd (step pow_frac p y s)).
Proof.
  intro H. rewrite step_st_remainingDebt.
  destruct (it_sale (fst (step pow_frac p y s))).
  - apply Qle_refl.
  - apply loan_year_debt_nonneg. exact H.
Qed.

End StepFacts.

Section ResultFacts.

Variable pow_frac : Q -> Q -> Q.

Lemma years_nonempty (p : Params) : years pow_frac p <> [].
Proof.
  intro H. apply (f_equal (@List.length _)) in H.
  rewrite years_length in H. pose proof (loop_bound_pos p). simpl in H. lia.
Qed.

(** [simulate] returns: the last element of [years] is always there. *)
Lemma simulate_some (p : Params) :
  exists last,
    last_year (years pow_frac p) = Some last /\
    simulate pow_frac p =
    Some {| Result.meta := meta_of p;
            Result.years := years pow_frac p;
            Result.kpis := kpis_of pow_frac p last |}.
Proof.
  destruct (last_year_some (years pow_frac p) (years_nonempty p)) as [l Hl].
  exists l. split; [exact Hl|]. unfold simulate. rewrite Hl. reflexivity.
Qed.

Lemma simulateScenario_some (now : Q) (i : Raw.t) :
  exists r, simulateScenario pow_frac now i = Some r /\
            Result.years r = years pow_frac (unpack now i) /\
            Result.meta r = meta_of (unpack now i).
Proof.
  destruct (simulate_some (unpack now i)) as [l [_ H]].
  eexists. split; [exact H|]. split; reflexivity.
Qed.

Lemma In_years_iterations (p : Params) (y : Year.t) :
  In y (years pow_frac p) <-> exists it, In it (iterations pow_frac p) /\ it_year it = y.
Proof.
  unfold years. rewrite in_map_iff. split; intros [it [A B]]; exists it; tauto.
Qed.

End ResultFacts.

(* ------------------------------------------------------------------ *)
(** ** Properties of the specification *)

Section Claims.

Variable pow_frac : Q -> Q -> Q.

(** C9.  Two calls of [simulateScenario] on the same inputs, with
    [startYear] supplied, return the same result whatever the clock reads
    at each call: the clock is the only thing the engine reads besides its
    inputs, and it reads it for the default of [startYear] only. *)
Theorem simulateScenario_deterministic (now1 now2 : Q) (i : Raw.t) (y : Q) :
  Raw.startYear i = Some y ->
  simulateScenario pow_frac now1 i = simulateScenario pow_frac now2 i.
Proof.
  intro H. unfold simulateScenario. f_equal.
  unfold unpack. rewrite H. reflexivity.
Qed.

End Claims.

Lemma simulateScenario_deterministic_witness :
  Raw.startYear sold_land_inputs = Some 2025
  /\ simulateScenario pow_example 2026 sold_land_inputs
     = simulateScenario pow_example 1999 sold_land_inputs.
Proof.
  split; [reflexivity|].
  apply (simulateScenario_deterministic pow_example 2026 1999
           sold_land_inputs 2025).
  reflexivity.
Defined.

Section Scenario.

Variable pow_frac : Q -> Q -> Q.

(** C7.  For the scenario of the specification the engine derives
    purchasePrice = 280000, sideCostRate = 0.1, sideCostsVariable = 28000,
    totalInvestment = 343000, financingNeed = 263000, loanAmount1 = 263000,
    and the record of year 1 has grossRent = 14400 and netRent = 13680. *)
Theorem scenario_derived_values (now : Q) :
  purchasePrice (unpack now scenario_inputs) == 280000 /\
  sideCostRate (unpack now scenario_inputs) == 0.1 /\
  sideCostsVariable (unpack now scenario_inputs) == 28000 /\
  totalInvestment (unpack now scenario_inputs) == 343000 /\
  financingNeed (unpack now scenario_inputs) == 263000 /\
  loanAmount1 (unpack now scenario_inputs) == 263000 /\
  exists r y1 rest,
    simulateScenario pow_frac now scenario_inputs = Some r /\
    Result.years r = y1 :: rest /\
    Year.yearIndex y1 = 1%Z /\
    Year.grossRent y1 == 14400 /\
    Year.netRent y1 == 13680.
Proof.
  repeat (split; [apply Qeq_bool_iff; vm_compute; reflexivity|]).
  destruct (simulateScenario_some pow_frac now scenario_inputs) as [r [Hr [Hy _]]].
  destruct (iterations_head pow_frac (unpack now scenario_inputs)) as [rest Hrest].
  exists r. eexists. exists (map it_year rest).
  split; [exact Hr|]. split.
  - rewrite Hy. unfold years. rewrite Hrest. reflexivity.
  - split; [apply step_yearIndex|].
    split; apply Qeq_bool_iff; vm_compute; reflexivity.
Qed.

End Scenario.

Section Guards.

Variable pow_frac : Q -> Q -> Q.

Lemma horizonYears_floor (p : Params) :
  investmentHorizonYears p <= 1 -> horizonYears p = 1.
Proof.
  intro H. unfold horizonYears. apply Math_max_l.
  unfold JS.or. destruct (Qeq_bool (investmentHorizonYears p) 0).
  - apply Qle_refl.
  - exact H.
Qed.

(** C8, as the code has it.  [simulateScenario] returns a result for
    every input: the one read that could fail, [last.equityPosition],
    never does.  These divisions are guarded: the annuity is [pv / nper]
    when [|rate| < 1e-9] and 0 when the term is not positive;
    [loanAmount1] is [financingNeed] when [|payoutFactor| < 1e-9];
    [buildingShare] is 0 when [purchasePrice] is not positive; [roeTotal],
    [roeAnnualized] and [equityMultiple] are 0 when [equity <= 0], and
    [roeAnnualized], but no other, is 0 when [yearsUsed <= 0].  The
    division of [pmt] at the other rates is not guarded; it gives a finite
    annuity where [pmt_finite] holds.  An [investmentHorizonYears] of 0 or
    less is raised to 1, and the result then has exactly one year
    record. *)
Theorem engine_total_and_guarded (now : Q) (i : Raw.t) :
  exists r,
    simulateScenario pow_frac now i = Some r /\
    (forall rate nper pv, Qabs rate < 1e-9 -> 0 < nper ->
       pmt pow_frac rate nper pv = pv / nper) /\
    (forall rate nper pv, Qabs rate < 1e-9 -> nper <= 0 ->
       pmt pow_frac rate nper pv = 0) /\
    (forall rate nper pv, pmt_finite pow_frac rate nper = true ->
       pmt_number pow_frac rate nper (Num.Fin pv)
       = Num.Fin (pmt pow_frac rate nper pv)) /\
    (n1 (unpack now i) <= 0 -> annuity1 pow_frac (unpack now i) = 0) /\
    (Qabs (payoutFactor (unpack now i)) < 1e-9 ->
       loanAmount1 (unpack now i) = financingNeed (unpack now i)) /\
    (purchasePrice (unpack now i) <= 0 -> buildingShare (unpack now i) = 0) /\
    (equity (unpack now i) <= 0 ->
       Kpis.roeTotal (Result.kpis r) = 0 /\
       Kpis.roeAnnualized (Result.kpis r) = 0 /\
       Kpis.equityMultiple (Result.kpis r) = 0) /\
    (yearsUsed (unpack now i) <= 0 -> Kpis.roeAnnualized (Result.kpis r) = 0) /\
    (investmentHorizonYears (unpack now i) <= 0 ->
       Meta.horizonYears (Result.meta r) = 1 /\
       exists y, Result.years r = [y]).
Proof.
  unfold simulateScenario.
  destruct (simulate_some pow_frac (unpack now i)) as [last [Hl Hr]].
  eexists. split; [exact Hr|].
  cbn [Result.kpis Result.meta Result.years].
  split.
  { intros rate nper pv H1 H2. rewrite pmt_zero_rate by exact H1.
    apply gt_true in H2. rewrite H2. reflexivity. }
  split.
  { intros rate nper pv H1 H2. rewrite pmt_zero_rate by exact H1.
    apply gt_false in H2. rewrite H2. reflexivity. }
  split.
  { intros rate nper pv H. apply pmt_number_finite. exact H. }
  split.
  { intro H. unfold annuity1. apply gt_false in H. rewrite H. reflexivity. }
  split.
  { intro H. unfold loanAmount1, JS.Math_abs.
    assert (G : JS.gt (Qabs (payoutFactor (unpack now i))) 1e-9 = false).
    { apply gt_false. apply Qlt_le_weak. exact H. }
    rewrite G. reflexivity. }
  split.
  { intro H. unfold buildingShare. apply gt_false in H. rewrite H. reflexivity. }
  split.
  { intro H. apply gt_false in H. unfold kpis_of.
    cbn [Kpis.roeTotal Kpis.roeAnnualized Kpis.equityMultiple].
    rewrite H. cbn [andb]. repeat split; reflexivity. }
  split.
  { intro H. apply gt_false in H. unfold kpis_of.
    cbn [Kpis.roeAnnualized]. rewrite H, andb_false_r. reflexivity. }
  intro H.
  assert (H1 : horizonYears (unpack now i) = 1).
  { apply horizonYears_floor. apply Qle_trans with 0; [exact H|discriminate]. }
  split; [exact H1|].
  pose proof (years_length pow_frac (unpack now i)) as L.
  unfold loop_bound in L. rewrite H1 in L. change (Z.to_nat (Qfloor 1)) with 1%nat in L.
  destruct (years pow_frac (unpack now i)) as [|y [|y' ys]]; try discriminate.
  exists y. reflexivity.
Qed.

End Guards.

Lemma engine_total_and_guarded_witness :
  exists r,
    simulateScenario pow_example 2026 degenerate_inputs = Some r /\
    pmt pow_example 0 4 100 = 100 / 4 /\
    pmt pow_example 0 0 100 = 0 /\
    annuity1 pow_example (unpack 2026 degenerate_inputs) = 0 /\
    loanAmount1 (unpack 2026 degenerate_inputs)
      = financingNeed (unpack 2026 degenerate_inputs) /\
    buildingShare (unpack 2026 degenerate_inputs) = 0 /\
    Kpis.roeTotal (Result.kpis r) = 0 /\
    Kpis.roeAnnualized (Result.kpis r) = 0 /\
    Kpis.equityMultiple (Result.kpis r) = 0 /\
    Meta.horizonYears (Result.meta r) = 1 /\
    exists y, Result.years r = [y].
Proof.
  destruct (engine_total_and_guarded pow_example 2026 degenerate_inputs)
    as [r [Hr [P1 [P2 [_ [A [L [B [K [Ky Hh]]]]]]]]]].
  exists r. split; [exact Hr|].
  split; [apply P1; reflexivity|].
  split; [apply P2; [reflexivity|discriminate]|].
  split; [apply A; apply Qle_bool_iff; vm_compute; reflexivity|].
  split; [apply L; vm_compute; reflexivity|].
  split; [apply B; apply Qle_bool_iff; vm_compute; reflexivity|].
  assert (E : equity (unpack 2026 degenerate_inputs) <= 0).
  { apply Qle_bool_iff. vm_compute. reflexivity. }
  assert (Y : yearsUsed (unpack 2026 degenerate_inputs) <= 0).
  { apply Qle_bool_iff. vm_compute. reflexivity. }
  destruct (K E) as [K1 [_ K3]].
  split; [exact K1|]. split; [exact (Ky Y)|]. split; [exact K3|].
  apply Hh. apply Qle_bool_iff. vm_compute. reflexivity.
Defined.

(** C8, as stated, fails twice.  With an equity of 100, land of 100 that
    gains 50 % in the one year of the horizon and a sale asked for in a
    year 0, [yearsUsed] is 0, yet [roeTotal] is 0.5 and [equityMultiple]
    is 1.5: only [roeAnnualized] is guarded by [yearsUsed].  And the
    division of [pmt] is not guarded: at a rate of -200 % over 2 years it
    divides by [1 - (-1)^-2 = 0], and the annuity on 100 is
    [-Infinity]. *)
Lemma engine_guards_missing :
  (yearsUsed (unpack 2026 gain_without_sale_inputs) <= 0 /\
   exists r,
     simulateScenario pow_example 2026 gain_without_sale_inputs = Some r /\
     Kpis.roeTotal (Result.kpis r) == 0.5 /\
     ~ Kpis.roeTotal (Result.kpis r) == 0 /\
     Kpis.equityMultiple (Result.kpis r) == 1.5 /\
     ~ Kpis.equityMultiple (Result.kpis r) == 0 /\
     Kpis.roeAnnualized (Result.kpis r) = 0) /\
  (1e-9 <= Qabs (-2) /\
   Num.sub (Num.Fin 1) (Num.Math_pow pow_example (1 + -2) (- 2)) = Num.Fin (1 + - 1) /\
   pmt_number pow_example (-2) 2 (Num.Fin 100) = Num.NegInf /\
   Num.is_finite (pmt_number pow_example (-2) 2 (Num.Fin 100)) = false).
Proof.
  split.
  - split; [apply Qle_bool_iff; vm_compute; reflexivity|].
    eexists. split; [vm_compute; reflexivity|].
    split; [vm_compute; reflexivity|].
    split; [vm_compute; discriminate|].
    split; [vm_compute; reflexivity|].
    split; [vm_compute; discriminate|].
    vm_compute. reflexivity.
  - split; [apply Qle_bool_iff; vm_compute; reflexivity|].
    split; [vm_compute; reflexivity|].
    split; [vm_compute; reflexivity|].
    vm_compute. reflexivity.
Defined.

Section Sale.

Variable pow_frac : Q -> Q -> Q.

(** C1, at an input where it fails.  A plot worth 100 is sold in year 1
    of 2.  The record of year 1 has propertyValue 0 and an equityPosition
    without the property value; the record of year 2 has propertyValue 100
    again, and its equityPosition counts it. *)
Theorem property_value_returns_after_sale (now : Q) :
  exists r y1 y2,
    simulateScenario pow_frac now sold_land_inputs = Some r /\
    Result.years r = [y1; y2] /\
    Year.propertyValue y1 == 0 /\
    Year.equityPosition y1
      == Year.wealthFromCFAndLoan y1 - totalInvestment (unpack now sold_land_inputs) /\
    Year.propertyValue y2 == 100 /\
    ~ Year.propertyValue y2 == 0 /\
    Year.equityPosition y2
      == 100 + Year.wealthFromCFAndLoan y2 - totalInvestment (unpack now sold_land_inputs) /\
    ~ Year.equityPosition y2
      == Year.wealthFromCFAndLoan y2 - totalInvestment (unpack now sold_land_inputs).
Proof.
  destruct (simulateScenario_some pow_frac now sold_land_inputs) as [r [Hr [Hy _]]].
  exists r.
  assert (E : exists y1 y2, years pow_frac (unpack now sold_land_inputs) = [y1; y2]
    /\ Year.propertyValue y1 == 0
    /\ Year.equityPosition y1
       == Year.wealthFromCFAndLoan y1 - totalInvestment (unpack now sold_land_inputs)
    /\ Year.propertyValue y2 == 100
    /\ Year.equityPosition y2
       == 100 + Year.wealthFromCFAndLoan y2 - totalInvestment (unpack now sold_land_inputs)).
  { eexists. eexists. split; [vm_compute; reflexivity|].
    repeat split; apply Qeq_bool_iff; vm_compute; reflexivity. }
  destruct E as [y1 [y2 [E0 [E1 [E2 [E3 E4]]]]]].
  exists y1, y2. rewrite Hy.
  split; [exact Hr|]. split; [exact E0|]. split; [exact E1|]. split; [exact E2|].
  split; [exact E3|]. split; [rewrite E3; discriminate|]. split; [exact E4|].
  rewrite E4. intro H. lra.
Qed.

(** The constants of [p] with [saleMode] bound to ["hold"]. *)
Lemma unpack_hold (now : Q) (i : Raw.t) :
  unpack now (Raw.set_str Key.saleMode "hold" i) = hold_of (unpack now i).
Proof. reflexivity. Qed.

Lemma sale_of_hold (p : Params) (year : Q) (sh : bool) (pv d : Q) :
  sale_of (hold_of p) year sh pv d = None.
Proof.
  unfold sale_of, sale_fires. cbn [saleMode hold_of].
  change ("hold" =? "sell")%string with false.
  rewrite andb_false_r. reflexivity.
Qed.

Lemma step_hold (p : Params) (y : Z) (s : St.t) :
  (forall pv d, sale_of p (inject_Z y) (St.saleHappened s) pv d = None) ->
  step pow_frac (hold_of p) y s = step pow_frac p y s.
Proof.
  intro H. unfold step. rewrite sale_of_hold, H. reflexivity.
Qed.

Lemma sale_of_unmatched (p : Params) (y : Z) (sh : bool) (pv d : Q) :
  (forall sy, saleYear p = Some sy -> ~ sy == inject_Z y) ->
  sale_of p (inject_Z y) sh pv d = None.
Proof.
  intro H. unfold sale_of, sale_fires.
  destruct (saleYear p) as [sy|]; [|rewrite andb_false_r; reflexivity].
  destruct (JS.strict_eq (inject_Z y) sy) eqn:E.
  - apply strict_eq_true in E. exfalso. apply (H sy eq_refl). symmetry. exact E.
  - rewrite andb_false_r. reflexivity.
Qed.

Lemma for_loop_hold (p : Params) :
  (forall sy y, saleYear p = Some sy -> (1 <= y)%Z ->
     inject_Z y <= horizonYears p -> ~ sy == inject_Z y) ->
  forall (fuel : nat) (y : Z) (s : St.t), (1 <= y)%Z ->
  for_loop pow_frac (hold_of p) fuel y s = for_loop pow_frac p fuel y s.
Proof.
  intro H. induction fuel as [|fuel IH]; intros y s Hy; [reflexivity|].
  simpl. change (horizonYears (hold_of p)) with (horizonYears p).
  destruct (JS.le (inject_Z y) (horizonYears p)) eqn:G; [|reflexivity].
  rewrite step_hold.
  - destruct (step pow_frac p y s) as [it s']. rewrite IH by lia. reflexivity.
  - intros pv d. apply sale_of_unmatched. intros sy Hs.
    apply (H sy y Hs Hy). apply le_true. exact G.
Qed.

(** C2, as the code has it.  With [saleMode = "sell"] and a [saleYear]
    that is no year of the loop, the sale block never runs and the year
    records are those of the same inputs with [saleMode = "hold"].  The
    KPIs are those of "hold" as well when [saleYear] is null or greater
    than [horizonYears]. *)
Theorem unmatched_sale_year_as_hold (now : Q) (i : Raw.t) :
  Raw.saleMode i = Some "sell"%string ->
  (forall sy y, Raw.saleYear i = Some sy -> (1 <= y)%Z ->
     inject_Z y <= horizonYears (unpack now i) -> ~ sy == inject_Z y) ->
  exists r h,
    simulateScenario pow_frac now i = Some r /\
    simulateScenario pow_frac now (Raw.set_str Key.saleMode "hold" i) = Some h /\
    Forall (fun it => it_sale it = None) (iterations pow_frac (unpack now i)) /\
    Result.years r = Result.years h /\
    (Raw.saleYear i = None
     \/ (exists sy, Raw.saleYear i = Some sy /\ horizonYears (unpack now i) < sy) ->
     Result.kpis r = Result.kpis h).
Proof.
  intros Hm Hu. unfold simulateScenario. rewrite unpack_hold.
  set (p := unpack now i) in *.
  assert (Hy : years pow_frac (hold_of p) = years pow_frac p).
  { unfold years, iterations. change (loop_bound (hold_of p)) with (loop_bound p).
    change (init (hold_of p)) with (init p).
    rewrite (for_loop_hold p Hu) by lia. reflexivity. }
  destruct (simulate_some pow_frac p) as [last [Hl Hr]].
  destruct (simulate_some pow_frac (hold_of p)) as [last' [Hl' Hr']].
  rewrite Hy in Hl'. assert (last' = last) by congruence. subst last'.
  eexists. eexists. split; [exact Hr|]. split; [exact Hr'|].
  cbn [Result.years Result.kpis]. split; [|split; [symmetry; exact Hy|]].
  - unfold iterations.
    apply (for_loop_invariant pow_frac p (fun _ _ => True)); [|lia|exact I].
    intros y s Hy1 Hy2 _. split; [|exact I].
    rewrite step_it_sale. apply sale_of_unmatched.
    intros sy Hs. apply (Hu sy y Hs Hy1 Hy2).
  - intro Hk.
    assert (Yu : yearsUsed p = horizonYears p).
    { unfold yearsUsed. destruct ((saleMode p =? "sell")%string); [|reflexivity].
      change (saleYear p) with (Raw.saleYear i).
      destruct Hk as [Hn|[sy [Hs Hlt]]]; rewrite ?Hn, ?Hs; [reflexivity|].
      apply Math_min_r. exact Hlt. }
    unfold kpis_of. rewrite Yu. reflexivity.
Qed.

End Sale.

Lemma unmatched_sale_year_as_hold_witness :
  exists r h,
    simulateScenario pow_example 2026 sale_after_horizon_inputs = Some r /\
    simulateScenario pow_example 2026
      (Raw.set_str Key.saleMode "hold" sale_after_horizon_inputs) = Some h /\
    Forall (fun it => it_sale it = None)
      (iterations pow_example (unpack 2026 sale_after_horizon_inputs)) /\
    Result.years r = Result.years h /\
    Result.kpis r = Result.kpis h.
Proof.
  destruct (unmatched_sale_year_as_hold pow_example 2026 sale_after_horizon_inputs)
    as [r [h [Hr [Hh [Hs [Hy Hk]]]]]].
  - reflexivity.
  - intros sy y Hsy Hy1 Hy2 Heq.
    injection Hsy as <-.
    assert (H2 : inject_Z y <= 2).
    { apply Qle_trans with (horizonYears (unpack 2026 sale_after_horizon_inputs));
        [exact Hy2|]. apply Qle_bool_iff. vm_compute. reflexivity. }
    rewrite <- Heq in H2. apply Qle_bool_iff in H2. vm_compute in H2. discriminate.
  - exists r, h. split; [exact Hr|]. split; [exact Hh|]. split; [exact Hs|].
    split; [exact Hy|]. apply Hk. right. exists 5. split; [reflexivity|].
    vm_compute. reflexivity.
Defined.

(** C2, as stated, fails when [saleYear] is 0: no sale happens and the
    year records are those of "hold", but the KPIs are computed over
    [yearsUsed = 0] instead of the horizon. *)
Lemma unmatched_sale_year_kpis_differ :
  Raw.saleMode sale_year_zero_inputs = Some "sell"%string /\
  (forall sy y, Raw.saleYear sale_year_zero_inputs = Some sy -> (1 <= y)%Z ->
     inject_Z y <= horizonYears (unpack 2026 sale_year_zero_inputs) ->
     ~ sy == inject_Z y) /\
  exists r h,
    simulateScenario pow_example 2026 sale_year_zero_inputs = Some r /\
    simulateScenario pow_example 2026
      (Raw.set_str Key.saleMode "hold" sale_year_zero_inputs) = Some h /\
    Result.years r = Result.years h /\
    Kpis.altEndValue (Result.kpis r) == 100 /\
    Kpis.altEndValue (Result.kpis h) == 150 /\
    Result.kpis r <> Result.kpis h.
Proof.
  split; [reflexivity|]. split.
  - intros sy y Hsy Hy1 _ Heq. injection Hsy as <-.
    assert (H : inject_Z 1 <= inject_Z y) by (rewrite <- Zle_Qle; exact Hy1).
    rewrite <- Heq in H. apply Qle_bool_iff in H. vm_compute in H. discriminate.
  - eexists. eexists. split; [vm_compute; reflexivity|].
    split; [vm_compute; reflexivity|].
    split; [reflexivity|].
    split; [apply Qeq_bool_iff; vm_compute; reflexivity|].
    split; [apply Qeq_bool_iff; vm_compute; reflexivity|].
    intro H. apply (f_equal Kpis.altEndValue) in H. vm_compute in H. discriminate.
Defined.

Section Defaults.

Variable pow_frac : Q -> Q -> Q.

Lemma unpack_set_num_default (now : Q) (i : Raw.t) (k : Key.num) (d : Q) :
  Raw.get_num k i = None ->
  match k with
  | Key.startYear => d = now
  | Key.interestRate2 => d = interestRate1 (unpack now i)
  | Key.altTaxRate => d = incomeTaxRate (unpack now i)
  | Key.investmentHorizonYears => d = 30
  | Key.buildingLifetimeYears => d = 50
  | Key.saleYear => False
  | _ => d = 0
  end ->
  unpack now (Raw.set_num k d i) = unpack now i.
Proof.
  intros H Hd.
  destruct k; try contradiction; subst d; cbn in H;
    unfold unpack; cbn; rewrite ?H; reflexivity.
Qed.

Lemma unpack_set_str_default (now : Q) (i : Raw.t) (k : Key.str) :
  Raw.get_str k i = None ->
  unpack now (Raw.set_str k (default_str k) i) = unpack now i.
Proof.
  intro H. destruct k; cbn in H; unfold unpack; cbn; rewrite H; reflexivity.
Qed.

(** C3, as the code has it.  A property that is absent is replaced
    before the computation: by 0 for every number property but six; by
    the clock's year for [startYear], by [interestRate1] for
    [interestRate2], by [incomeTaxRate] for [altTaxRate], by 30 for
    [investmentHorizonYears] and by 50 for [buildingLifetimeYears]; by
    ["hold"] for [saleMode] and by ["Linear 2%"] for [afaModel].  The
    result is that of the inputs with the property set to that value. *)
Theorem absent_properties_take_defaults (now : Q) (i : Raw.t) :
  (forall k, zero_default k = true -> Raw.get_num k i = None ->
     simulateScenario pow_frac now (Raw.set_num k 0 i)
     = simulateScenario pow_frac now i) /\
  (Raw.startYear i = None ->
     simulateScenario pow_frac now (Raw.set_num Key.startYear now i)
     = simulateScenario pow_frac now i) /\
  (Raw.interestRate2 i = None ->
     simulateScenario pow_frac now
       (Raw.set_num Key.interestRate2 (interestRate1 (unpack now i)) i)
     = simulateScenario pow_frac now i) /\
  (Raw.altTaxRate i = None ->
     simulateScenario pow_frac now
       (Raw.set_num Key.altTaxRate (incomeTaxRate (unpack now i)) i)
     = simulateScenario pow_frac now i) /\
  (Raw.investmentHorizonYears i = None ->
     simulateScenario pow_frac now (Raw.set_num Key.investmentHorizonYears 30 i)
     = simulateScenario pow_frac now i) /\
  (Raw.buildingLifetimeYears i = None ->
     simulateScenario pow_frac now (Raw.set_num Key.buildingLifetimeYears 50 i)
     = simulateScenario pow_frac now i) /\
  (forall k, Raw.get_str k i = None ->
     simulateScenario pow_frac now (Raw.set_str k (default_str k) i)
     = simulateScenario pow_frac now i).
Proof.
  unfold simulateScenario.
  split.
  { intros k Hz H. rewrite unpack_set_num_default; [reflexivity|exact H|].
    destruct k; try discriminate Hz; reflexivity. }
  repeat split; intro H;
    try (rewrite unpack_set_num_default; [reflexivity|exact H|reflexivity]).
  intro Hs. rewrite unpack_set_str_default; [reflexivity|exact Hs].
Qed.

End Defaults.

Lemma absent_properties_take_defaults_witness :
  simulateScenario pow_example 2026 (Raw.set_num Key.landValue 0 Raw.empty)
  = simulateScenario pow_example 2026 Raw.empty /\
  simulateScenario pow_example 2026 (Raw.set_num Key.startYear 2026 Raw.empty)
  = simulateScenario pow_example 2026 Raw.empty /\
  simulateScenario pow_example 2026
    (Raw.set_num Key.interestRate2 (interestRate1 (unpack 2026 Raw.empty)) Raw.empty)
  = simulateScenario pow_example 2026 Raw.empty /\
  simulateScenario pow_example 2026
    (Raw.set_num Key.altTaxRate (incomeTaxRate (unpack 2026 Raw.empty)) Raw.empty)
  = simulateScenario pow_example 2026 Raw.empty /\
  simulateScenario pow_example 2026
    (Raw.set_num Key.investmentHorizonYears 30 Raw.empty)
  = simulateScenario pow_example 2026 Raw.empty /\
  simulateScenario pow_example 2026
    (Raw.set_num Key.buildingLifetimeYears 50 Raw.empty)
  = simulateScenario pow_example 2026 Raw.empty /\
  simulateScenario pow_example 2026
    (Raw.set_str Key.afaModel (default_str Key.afaModel) Raw.empty)
  = simulateScenario pow_example 2026 Raw.empty.
Proof.
  destruct (absent_properties_take_defaults pow_example 2026 Raw.empty)
    as [Z [S [I [A [H [B T]]]]]].
  split; [apply (Z Key.landValue); reflexivity|].
  split; [apply S; reflexivity|].
  split; [apply I; reflexivity|].
  split; [apply A; reflexivity|].
  split; [apply H; reflexivity|].
  split; [apply B; reflexivity|].
  apply (T Key.afaModel). reflexivity.
Defined.

(** C3, as stated, fails at [interestRate2]: left out, it is
    [interestRate1], not 0.  With 100 refinanced at [interestRate1 = 0.5]
    the interest of year 1 is 50; with [interestRate2] set to 0 it is 0. *)
Lemma absent_interestRate2_is_not_zero :
  Raw.get_num Key.interestRate2 second_loan_inputs = None /\
  exists r r0 y y0,
    simulateScenario pow_example 2026 second_loan_inputs = Some r /\
    simulateScenario pow_example 2026
      (Raw.set_num Key.interestRate2 0 second_loan_inputs) = Some r0 /\
    Result.years r = [y] /\ Result.years r0 = [y0] /\
    Year.interestPaid y == 50 /\ Year.interestPaid y0 == 0 /\
    r <> r0.
Proof.
  split; [reflexivity|].
  eexists. eexists. eexists. eexists.
  split; [vm_compute; reflexivity|].
  split; [vm_compute; reflexivity|].
  split; [reflexivity|]. split; [reflexivity|].
  split; [apply Qeq_bool_iff; vm_compute; reflexivity|].
  split; [apply Qeq_bool_iff; vm_compute; reflexivity|].
  intro H. apply (f_equal Result.years) in H.
  apply (f_equal (fun l => option_map Year.interestPaid (hd_error l))) in H.
  vm_compute in H. discriminate.
Defined.

Section LoanFacts.

Variable pow_frac : Q -> Q -> Q.
Variable p : Params.

Lemma withinLoan1_true (year debt : Q) :
  withinLoan1 p year debt = true <-> year <= n1 p /\ 1e-6 < debt.
Proof.
  unfold withinLoan1. rewrite andb_true_iff, le_true, gt_true. tauto.
Qed.

Lemma withinLoan2_true (year debt : Q) :
  withinLoan2 p year debt = true <->
  withinLoan1 p year debt = false /\ 0 < n2 p /\ year <= n1 p + n2 p /\ 1e-6 < debt.
Proof.
  unfold withinLoan2.
  rewrite !andb_true_iff, negb_true_iff, le_true, !gt_true. tauto.
Qed.

(** What each branch of the loan schedule means for the year. *)
Lemma loan_year_Loan1 (year : Q) (s : St.t) :
  ly_phase (loan_year pow_frac p year s) = Loan1 ->
  year <= n1 p /\ 1e-6 < St.remainingDebt s /\
  ly_annualPayment (loan_year pow_frac p year s) = annuity1 pow_frac p.
Proof.
  unfold loan_year.
  destruct (withinLoan1 p year (St.remainingDebt s)) eqn:W1.
  - intros _. apply withinLoan1_true in W1. cbn. tauto.
  - destruct (withinLoan2 p year (St.remainingDebt s)); cbn; discriminate.
Qed.

Lemma loan_year_Loan2 (year : Q) (s : St.t) :
  ly_phase (loan_year pow_frac p year s) = Loan2 ->
  n1 p < year /\ year <= n1 p + n2 p /\ 0 < n2 p /\ 1e-6 < St.remainingDebt s /\
  ly_secondLoanStarted (loan_year pow_frac p year s) = true /\
  ly_annuity2 (loan_year pow_frac p year s)
    = ly_annualPayment (loan_year pow_frac p year s) /\
  ly_annualPayment (loan_year pow_frac p year s)
    = (if St.secondLoanStarted s then St.annuity2 s
       else pmt pow_frac (r2 p) (n2 p) (St.remainingDebt s)).
Proof.
  unfold loan_year.
  destruct (withinLoan1 p year (St.remainingDebt s)) eqn:W1; [cbn; discriminate|].
  destruct (withinLoan2 p year (St.remainingDebt s)) eqn:W2; [|cbn; discriminate].
  intros _. apply withinLoan2_true in W2. destruct W2 as [_ [A [B C]]].
  cbn. repeat split; try assumption.
  - apply Qnot_le_lt. intro H.
    assert (W : withinLoan1 p year (St.remainingDebt s) = true)
      by (apply withinLoan1_true; tauto).
    congruence.
  - destruct (St.secondLoanStarted s); reflexivity.
Qed.

Lemma loan_year_Repaid (year : Q) (s : St.t) :
  ly_phase (loan_year pow_frac p year s) = Repaid ->
  ly_annualPayment (loan_year pow_frac p year s) = 0 /\
  ly_interestPaid (loan_year pow_frac p year s) = 0 /\
  ly_principalPaid (loan_year pow_frac p year s) = 0 /\
  ly_remainingDebt (loan_year pow_frac p year s) = St.remainingDebt s /\
  (St.remainingDebt s <= 1e-6
   \/ (n1 p < year /\ (n2 p <= 0 \/ n1 p + n2 p < year))).
Proof.
  unfold loan_year.
  destruct (withinLoan1 p year (St.remainingDebt s)) eqn:W1; [cbn; discriminate|].
  destruct (withinLoan2 p year (St.remainingDebt s)) eqn:W2; [cbn; discriminate|].
  intros _. cbn. repeat split.
  destruct (Qlt_le_dec 1e-6 (St.remainingDebt s)) as [D|D]; [right|left; exact D].
  assert (N1 : n1 p < year).
  { apply Qnot_le_lt. intro H.
    assert (W : withinLoan1 p year (St.remainingDebt s) = true)
      by (apply withinLoan1_true; tauto).
    congruence. }
  split; [exact N1|].
  destruct (Qlt_le_dec 0 (n2 p)) as [A|A]; [|left; exact A].
  right. apply Qnot_le_lt. intro H.
  assert (W : withinLoan2 p year (St.remainingDebt s) = true)
    by (apply withinLoan2_true; tauto).
  congruence.
Qed.

(** A year with no balance above the cut-off, or past the terms, takes
    the last branch. *)
Lemma loan_year_idle (year : Q) (s : St.t) :
  St.remainingDebt s <= 1e-6
  \/ (n1 p < year /\ (n2 p <= 0 \/ n1 p + n2 p < year)) ->
  ly_phase (loan_year pow_frac p year s) = Repaid.
Proof.
  intro H.
  destruct (ly_phase (loan_year pow_frac p year s)) eqn:E; [| |reflexivity]; exfalso.
  - apply loan_year_Loan1 in E. destruct E as [A [B _]].
    destruct H as [H|[H _]].
    + apply (Qlt_not_le _ _ B H).
    + apply (Qlt_not_le _ _ H A).
  - apply loan_year_Loan2 in E. destruct E as [A [B [C [D _]]]].
    destruct H as [H|[_ [H|H]]].
    + apply (Qlt_not_le _ _ D H).
    + apply (Qlt_not_le _ _ C H).
    + apply (Qlt_not_le _ _ H B).
Qed.

Lemma loan_year_flag_kept (year : Q) (s : St.t) :
  ly_phase (loan_year pow_frac p year s) <> Loan2 ->
  ly_secondLoanStarted (loan_year pow_frac p year s) = St.secondLoanStarted s /\
  ly_annuity2 (loan_year pow_frac p year s) = St.annuity2 s.
Proof.
  unfold loan_year.
  destruct (withinLoan1 p year (St.remainingDebt s)); [cbn; tauto|].
  destruct (withinLoan2 p year (St.remainingDebt s)); cbn; [congruence|tauto].
Qed.

(** The years of the loop from [y] on are [y] or later. *)
Lemma for_loop_years_from (y0 : Z) (fuel : nat) (y : Z) (s : St.t) :
  (1 <= y)%Z -> (y0 <= y)%Z ->
  Forall (fun it => (y0 <= Year.yearIndex (it_year it))%Z)
    (fst (for_loop pow_frac p fuel y s)).
Proof.
  intros H1 H0.
  apply (for_loop_invariant pow_frac p (fun y _ => (y0 <= y)%Z)); [|exact H1|exact H0].
  intros y' s' _ _ H. rewrite step_yearIndex. split; [exact H|lia].
Qed.

Lemma for_loop_years_upto (fuel : nat) (y : Z) (s : St.t) :
  (1 <= y)%Z ->
  Forall (fun it => inject_Z (Year.yearIndex (it_year it)) <= horizonYears p)
    (fst (for_loop pow_frac p fuel y s)).
Proof.
  intros H1.
  apply (for_loop_invariant pow_frac p (fun _ _ => True)); [|exact H1|exact I].
  intros y' s' _ G _. rewrite step_yearIndex. split; [exact G|exact I].
Qed.

(** Pairs of an iteration and a later one: what the first leaves in the
    state decides what holds of the later ones. *)
Lemma for_loop_pairs (Inv : Z -> St.t -> Prop) (R : Iter -> Iter -> Prop) :
  (forall y s, (1 <= y)%Z -> inject_Z y <= horizonYears p -> Inv y s ->
     Inv (y + 1)%Z (snd (step pow_frac p y s)) /\
     forall fuel,
       Forall (R (fst (step pow_frac p y s)))
         (fst (for_loop pow_frac p fuel (y + 1) (snd (step pow_frac p y s))))) ->
  forall (fuel : nat) (y : Z) (s : St.t), (1 <= y)%Z -> Inv y s ->
  ForallOrdPairs R (fst (for_loop pow_frac p fuel y s)).
Proof.
  intros Hstep. induction fuel as [|fuel IH]; intros y s Hy Hs.
  - constructor.
  - destruct (JS.le (inject_Z y) (horizonYears p)) eqn:G.
    + rewrite for_loop_cons by exact G. cbn [fst].
      destruct (Hstep y s Hy (proj1 (le_true _ _) G) Hs) as [HI HR].
      constructor; [apply HR|]. apply IH; [lia|exact HI].
    + rewrite for_loop_stop by exact G. constructor.
Qed.

Lemma ordered_pairs_later (R : Iter -> Iter -> Prop) (l : list Iter) (a b : Iter) :
  ForallOrdPairs
    (fun a b => (Year.yearIndex (it_year a) < Year.yearIndex (it_year b))%Z /\ R a b) l ->
  In a l -> In b l ->
  (Year.yearIndex (it_year a) < Year.yearIndex (it_year b))%Z ->
  R a b.
Proof.
  intros H Ha Hb Hlt.
  destruct (ForallOrdPairs_In H a b Ha Hb) as [E|[[_ E]|[E _]]].
  - subst b. lia.
  - exact E.
  - lia.
Qed.

End LoanFacts.

Section PairsAndPrefixes.

Variable pow_frac : Q -> Q -> Q.
Variable p : Params.

(** A relation between an iteration and the later ones, from what the
    first leaves in the state. *)
Lemma iterations_later (Inv : Z -> St.t -> Prop) (R : Iter -> Iter -> Prop) :
  (forall y s, (1 <= y)%Z -> inject_Z y <= horizonYears p -> Inv y s ->
     Inv (y + 1)%Z (snd (step pow_frac p y s)) /\
     forall fuel,
       Forall (R (fst (step pow_frac p y s)))
         (fst (for_loop pow_frac p fuel (y + 1) (snd (step pow_frac p y s))))) ->
  Inv 1%Z (init p) ->
  forall a b, In a (iterations pow_frac p) -> In b (iterations pow_frac p) ->
    (Year.yearIndex (it_year a) < Year.yearIndex (it_year b))%Z -> R a b.
Proof.
  intros Hstep Hinit a b Ha Hb Hlt.
  apply (ordered_pairs_later R (iterations pow_frac p) a b); try assumption.
  unfold iterations.
  apply (for_loop_pairs pow_frac p Inv); [|lia|exact Hinit].
  intros y s Hy Hg Hs. destruct (Hstep y s Hy Hg Hs) as [H1 H2].
  split; [exact H1|]. intro fuel.
  pose proof (for_loop_years_from pow_frac p (y + 1) fuel (y + 1)
                (snd (step pow_frac p y s)) ltac:(lia) (Z.le_refl _)) as Fy.
  specialize (H2 fuel). rewrite Forall_forall in *.
  intros x Hx. split; [|apply H2; exact Hx].
  rewrite step_yearIndex. specialize (Fy x Hx). lia.
Qed.

(** A property of an iteration that holds as long as every iteration up
    to it meets a condition. *)
Lemma for_loop_prefix (Inv : St.t -> Prop) (C P : Iter -> Prop) :
  (forall y s, (1 <= y)%Z -> Inv s -> C (fst (step pow_frac p y s)) ->
     P (fst (step pow_frac p y s)) /\ Inv (snd (step pow_frac p y s))) ->
  forall (fuel : nat) (y : Z) (s : St.t) (it : Iter),
    (1 <= y)%Z -> Inv s ->
    In it (fst (for_loop pow_frac p fuel y s)) ->
    (forall c, In c (fst (for_loop pow_frac p fuel y s)) ->
       (Year.yearIndex (it_year c) <= Year.yearIndex (it_year it))%Z -> C c) ->
    P it.
Proof.
  intros Hstep. induction fuel as [|fuel IH]; intros y s it Hy Hs Hin Hc;
    [contradiction|].
  destruct (JS.le (inject_Z y) (horizonYears p)) eqn:G;
    [|rewrite for_loop_stop in Hin by exact G; contradiction].
  rewrite for_loop_cons in Hin, Hc by exact G. cbn [fst] in Hin, Hc.
  destruct Hin as [E|Hin].
  - subst it. apply (Hstep y s Hy Hs). apply Hc; [left; reflexivity|lia].
  - assert (Hle : (Year.yearIndex (it_year (fst (step pow_frac p y s)))
                   <= Year.yearIndex (it_year it))%Z).
    { rewrite step_yearIndex.
      pose proof (for_loop_years_from pow_frac p (y + 1) fuel (y + 1)
                    (snd (step pow_frac p y s)) ltac:(lia) (Z.le_refl _)) as F.
      rewrite Forall_forall in F. specialize (F it Hin). lia. }
    apply (IH (y + 1)%Z (snd (step pow_frac p y s)) it); [lia| |exact Hin|].
    + apply (Hstep y s Hy Hs). apply Hc; [left; reflexivity|exact Hle].
    + intros c Hcin. apply Hc. right. exact Hcin.
Qed.

End PairsAndPrefixes.

Section LoanSchedule.

Variable pow_frac : Q -> Q -> Q.
Variable p : Params.

Lemma step_loan_year_ok (y : Z) (s : St.t) :
  loan_year_ok p (fst (step pow_frac p y s)).
Proof.
  unfold loan_year_ok.
  rewrite step_phase, step_debtBefore, step_yearIndex, step_interestPaid,
    step_principalPaid, step_annualPayment.
  split; [|split].
  - intro H. apply loan_year_Loan2 in H. tauto.
  - intro H. apply loan_year_idle. left. exact H.
  - intro H. apply loan_year_Repaid in H. tauto.
Qed.

Lemma iterations_loan_year_ok : Forall (loan_year_ok p) (iterations pow_frac p).
Proof.
  unfold iterations.
  apply (for_loop_invariant pow_frac p (fun _ _ => True)); [|lia|exact I].
  intros y s _ _ _. split; [apply step_loan_year_ok|exact I].
Qed.

(** Once the balance is at the cut-off or below, it stays there. *)
Lemma step_debt_small (y : Z) (s : St.t) :
  St.remainingDebt s <= 1e-6 -> St.remainingDebt (snd (step pow_frac p y s)) <= 1e-6.
Proof.
  intro H. rewrite step_st_remainingDebt.
  destruct (it_sale (fst (step pow_frac p y s))); [discriminate|].
  assert (E : ly_phase (loan_year pow_frac p (inject_Z y) s) = Repaid)
    by (apply loan_year_idle; left; exact H).
  apply loan_year_Repaid in E. destruct E as [_ [_ [_ [E _]]]].
  rewrite E. exact H.
Qed.

Lemma tail_debt_small (fuel : nat) (y : Z) (s : St.t) :
  (1 <= y)%Z -> St.remainingDebt s <= 1e-6 ->
  Forall (fun it => it_debtBefore it <= 1e-6) (fst (for_loop pow_frac p fuel y s)).
Proof.
  intros Hy Hs.
  apply (for_loop_invariant pow_frac p (fun _ s => St.remainingDebt s <= 1e-6));
    [|exact Hy|exact Hs].
  intros y' s' _ _ H. rewrite step_debtBefore.
  split; [exact H|apply step_debt_small; exact H].
Qed.

(** After the terms, or with nothing left, every later year is idle. *)
Lemma tail_repaid (fuel : nat) (y : Z) (s : St.t) :
  (1 <= y)%Z ->
  St.remainingDebt s <= 1e-6
  \/ (n1 p < inject_Z y /\ (n2 p <= 0 \/ n1 p + n2 p < inject_Z y)) ->
  Forall (fun it => it_phase it = Repaid) (fst (for_loop pow_frac p fuel y s)).
Proof.
  intros Hy Hs.
  apply (for_loop_invariant pow_frac p
    (fun y s => St.remainingDebt s <= 1e-6
       \/ (n1 p < inject_Z y /\ (n2 p <= 0 \/ n1 p + n2 p < inject_Z y))));
    [|exact Hy|exact Hs].
  intros y' s' _ _ H. rewrite step_phase.
  split; [apply loan_year_idle; exact H|].
  destruct H as [H|[A B]].
  - left. apply step_debt_small. exact H.
  - right. rewrite inject_Z_plus.
    assert (0 < inject_Z 1) by reflexivity.
    split; [lra|]. destruct B as [B|B]; [left; exact B|right; lra].
Qed.

Lemma tail_not_loan1 (fuel : nat) (y : Z) (s : St.t) :
  (1 <= y)%Z -> n1 p < inject_Z y ->
  Forall (fun it => it_phase it <> Loan1) (fst (for_loop pow_frac p fuel y s)).
Proof.
  intros Hy Hs.
  apply (for_loop_invariant pow_frac p (fun y _ => n1 p < inject_Z y));
    [|exact Hy|exact Hs].
  intros y' s' _ _ H. rewrite step_phase. split.
  - intro E. apply loan_year_Loan1 in E. destruct E as [E _].
    apply (Qlt_not_le _ _ H E).
  - rewrite inject_Z_plus. assert (0 < inject_Z 1) by reflexivity. lra.
Qed.

(** Once the second loan has started, its payment is the stored one. *)
Lemma tail_annuity2 (A : Q) (fuel : nat) (y : Z) (s : St.t) :
  (1 <= y)%Z -> St.secondLoanStarted s = true -> St.annuity2 s = A ->
  Forall (fun it => it_phase it = Loan2 -> it_annualPayment it = A)
    (fst (for_loop pow_frac p fuel y s)).
Proof.
  intros Hy Hf Ha.
  apply (for_loop_invariant pow_frac p
    (fun _ s => St.secondLoanStarted s = true /\ St.annuity2 s = A));
    [|exact Hy|tauto].
  intros y' s' _ _ [F E].
  rewrite step_phase, step_annualPayment, step_st_secondLoanStarted, step_st_annuity2.
  destruct (ly_phase (loan_year pow_frac p (inject_Z y') s')) eqn:Ph.
  - split; [discriminate|].
    destruct (loan_year_flag_kept pow_frac p (inject_Z y') s') as [K1 K2];
      [congruence|]. rewrite K1, K2. tauto.
  - pose proof (loan_year_Loan2 pow_frac p _ _ Ph) as [_ [_ [_ [_ [K1 [K2 K3]]]]]].
    rewrite F in K3. rewrite K2, K3. tauto.
  - split; [discriminate|].
    destruct (loan_year_flag_kept pow_frac p (inject_Z y') s') as [K1 K2];
      [congruence|]. rewrite K1, K2. tauto.
Qed.

Lemma iterations_loan_years_ok :
  ForallOrdPairs
    (fun a b => (Year.yearIndex (it_year a) < Year.yearIndex (it_year b))%Z
                /\ loan_years_ok a b)
    (iterations pow_frac p).
Proof.
  unfold iterations.
  apply (for_loop_pairs pow_frac p (fun _ _ => True)); [|lia|exact I].
  intros y s Hy _ _. split; [exact I|]. intro fuel.
  set (s' := snd (step pow_frac p y s)).
  assert (Hy' : (1 <= y + 1)%Z) by lia.
  pose proof (for_loop_years_from pow_frac p (y + 1) fuel (y + 1) s' Hy' (Z.le_refl _)) as Fy.
  assert (Fr : Forall (fun b =>
      (phase_rank (it_phase (fst (step pow_frac p y s))) <= phase_rank (it_phase b))%nat)
      (fst (for_loop pow_frac p fuel (y + 1) s'))).
  { rewrite step_phase.
    destruct (ly_phase (loan_year pow_frac p (inject_Z y) s)) eqn:Ph.
    - apply Forall_forall. intros b _. cbn. lia.
    - apply loan_year_Loan2 in Ph. destruct Ph as [N _].
      eapply Forall_impl; [|apply (tail_not_loan1 fuel (y + 1) s' Hy')].
      + intros b Hb. cbv beta in Hb.
        destruct (it_phase b); cbn; [congruence|lia|lia].
      + rewrite inject_Z_plus. assert (0 < inject_Z 1) by reflexivity. lra.
    - eapply Forall_impl; [|apply (tail_repaid fuel (y + 1) s' Hy')].
      + intros b Hb. cbv beta in Hb. rewrite Hb. cbn. lia.
      + pose proof (loan_year_Repaid pow_frac p _ _ Ph) as [_ [_ [_ [_ [D|[A B]]]]]].
        * left. apply step_debt_small. exact D.
        * right. rewrite inject_Z_plus. assert (0 < inject_Z 1) by reflexivity.
          split; [lra|]. destruct B as [B|B]; [left; exact B|right; lra]. }
  assert (Fd : Forall (fun b =>
      it_debtBefore (fst (step pow_frac p y s)) <= 1e-6 -> it_debtBefore b <= 1e-6)
      (fst (for_loop pow_frac p fuel (y + 1) s'))).
  { rewrite step_debtBefore.
    destruct (Qlt_le_dec 1e-6 (St.remainingDebt s)) as [D|D].
    - apply Forall_forall. intros b _ H. exfalso. apply (Qlt_not_le _ _ D H).
    - eapply Forall_impl; [|apply (tail_debt_small fuel (y + 1) s' Hy')].
      + intros b Hb _. exact Hb.
      + apply step_debt_small. exact D. }
  assert (Fa : Forall (fun b =>
      it_phase (fst (step pow_frac p y s)) = Loan2 -> it_phase b = Loan2 ->
      it_annualPayment b = it_annualPayment (fst (step pow_frac p y s)))
      (fst (for_loop pow_frac p fuel (y + 1) s'))).
  { rewrite step_phase, step_annualPayment.
    destruct (ly_phase (loan_year pow_frac p (inject_Z y) s)) eqn:Ph;
      try (apply Forall_forall; intros b _ H; discriminate H).
    pose proof (loan_year_Loan2 pow_frac p _ _ Ph) as [_ [_ [_ [_ [K1 [K2 _]]]]]].
    eapply Forall_impl;
      [|apply (tail_annuity2 (ly_annualPayment (loan_year pow_frac p (inject_Z y) s))
                 fuel (y + 1) s' Hy')].
    - intros b Hb _. exact Hb.
    - unfold s'. rewrite step_st_secondLoanStarted. exact K1.
    - unfold s'. rewrite step_st_annuity2. exact K2. }
  rewrite step_yearIndex.
  rewrite Forall_forall in Fy, Fr, Fd, Fa. apply Forall_forall. intros b Hb.
  split; [specialize (Fy b Hb); lia|].
  unfold loan_years_ok. split; [apply Fr; exact Hb|].
  split; [apply Fd; exact Hb|apply Fa; exact Hb].
Qed.

(** The first year of the second loan computes its annuity from the
    balance of that year. *)
Lemma first_loan2_annuity (fuel : nat) : forall (y : Z) (s : St.t) (a : Iter),
  (1 <= y)%Z -> St.secondLoanStarted s = false ->
  In a (fst (for_loop pow_frac p fuel y s)) ->
  it_phase a = Loan2 ->
  (forall c, In c (fst (for_loop pow_frac p fuel y s)) ->
     (Year.yearIndex (it_year c) < Year.yearIndex (it_year a))%Z ->
     it_phase c <> Loan2) ->
  it_annualPayment a = pmt pow_frac (r2 p) (n2 p) (it_debtBefore a).
Proof.
  induction fuel as [|fuel IH]; intros y s a Hy Hf Hin Hph Hfirst;
    [contradiction|].
  destruct (JS.le (inject_Z y) (horizonYears p)) eqn:G;
    [|rewrite for_loop_stop in Hin by exact G; contradiction].
  rewrite for_loop_cons in Hin, Hfirst by exact G. cbn [fst] in Hin, Hfirst.
  destruct Hin as [E|Hin].
  - subst a. rewrite step_phase in Hph.
    rewrite step_annualPayment, step_debtBefore.
    pose proof (loan_year_Loan2 pow_frac p _ _ Hph) as [_ [_ [_ [_ [_ [_ K]]]]]].
    rewrite Hf in K. exact K.
  - apply (IH (y + 1)%Z (snd (step pow_frac p y s)) a); try assumption; [lia| |].
    + assert (Hlt : (Year.yearIndex (it_year (fst (step pow_frac p y s)))
                     < Year.yearIndex (it_year a))%Z).
      { rewrite step_yearIndex.
        pose proof (for_loop_years_from pow_frac p (y + 1) fuel (y + 1)
                      (snd (step pow_frac p y s)) ltac:(lia) (Z.le_refl _)) as F.
        rewrite Forall_forall in F. specialize (F a Hin). lia. }
      pose proof (Hfirst _ (or_introl eq_refl) Hlt) as Hn.
      rewrite step_phase in Hn. rewrite step_st_secondLoanStarted.
      destruct (loan_year_flag_kept pow_frac p (inject_Z y) s Hn) as [K _].
      rewrite K. exact Hf.
    + intros c Hc. apply Hfirst. right. exact Hc.
Qed.

(** C5.  The loan schedule goes through its branches in one direction.
    The second loan is only active in a year after [loanTermYears1], within
    [loanTermYears1 + loanTermYears2], with a balance above 1e-6.  No later
    year is in an earlier branch: none is back in loan 1 after loan 2, and
    none leaves the last branch.  Once the balance at the start of a year
    is 1e-6 or less, that year and every later one pay no interest, no
    principal and no annuity; so does every year after one whose record
    has a [remainingDebt] of 1e-6 or less.  The annuity of the second loan is computed
    in its first year, from the balance of that year, [r2] and [n2], and
    is the payment of every later year of the second loan. *)
Theorem loan_schedule_state_machine :
  (forall it, In it (iterations pow_frac p) -> it_phase it = Loan2 ->
     n1 p < inject_Z (Year.yearIndex (it_year it)) /\
     inject_Z (Year.yearIndex (it_year it)) <= n1 p + n2 p /\
     1e-6 < it_debtBefore it) /\
  (forall a b, In a (iterations pow_frac p) -> In b (iterations pow_frac p) ->
     (Year.yearIndex (it_year a) < Year.yearIndex (it_year b))%Z ->
     (phase_rank (it_phase a) <= phase_rank (it_phase b))%nat) /\
  (forall a b, In a (iterations pow_frac p) -> In b (iterations pow_frac p) ->
     (Year.yearIndex (it_year a) <= Year.yearIndex (it_year b))%Z ->
     it_debtBefore a <= 1e-6 ->
     it_phase b = Repaid /\
     Year.interestPaid (it_year b) = 0 /\
     Year.principalPaid (it_year b) = 0 /\
     it_annualPayment b = 0) /\
  (forall a b, In a (iterations pow_frac p) -> In b (iterations pow_frac p) ->
     (Year.yearIndex (it_year a) < Year.yearIndex (it_year b))%Z ->
     Year.remainingDebt (it_year a) <= 1e-6 ->
     it_phase b = Repaid /\
     Year.interestPaid (it_year b) = 0 /\
     Year.principalPaid (it_year b) = 0 /\
     it_annualPayment b = 0) /\
  (forall a, In a (iterations pow_frac p) -> it_phase a = Loan2 ->
     (forall c, In c (iterations pow_frac p) ->
        (Year.yearIndex (it_year c) < Year.yearIndex (it_year a))%Z ->
        it_phase c <> Loan2) ->
     it_annualPayment a = pmt pow_frac (r2 p) (n2 p) (it_debtBefore a)) /\
  (forall a b, In a (iterations pow_frac p) -> In b (iterations pow_frac p) ->
     (Year.yearIndex (it_year a) < Year.yearIndex (it_year b))%Z ->
     it_phase a = Loan2 -> it_phase b = Loan2 ->
     it_annualPayment b = it_annualPayment a).
Proof.
  pose proof iterations_loan_year_ok as One. rewrite Forall_forall in One.
  pose proof iterations_loan_years_ok as Two.
  split; [|split; [|split; [|split; [|split]]]].
  - intros it Hin Hph. apply (proj1 (One it Hin) Hph).
  - intros a b Ha Hb Hlt.
    apply (ordered_pairs_later loan_years_ok _ a b Two Ha Hb Hlt).
  - intros a b Ha Hb Hle Hd.
    assert (Hdb : it_debtBefore b <= 1e-6).
    { destruct (Z.eq_dec (Year.yearIndex (it_year a)) (Year.yearIndex (it_year b)))
        as [E|N].
      - destruct (ForallOrdPairs_In Two a b Ha Hb) as [E'|[[L _]|[L _]]];
          [subst b; exact Hd|lia|lia].
      - apply (ordered_pairs_later loan_years_ok _ a b Two Ha Hb); [lia|exact Hd]. }
    destruct (One b Hb) as [_ [R1 R2]].
    pose proof (R1 Hdb) as Hr. split; [exact Hr|]. apply R2. exact Hr.
  - intros a b Ha Hb Hlt Hd.
    assert (Hdb : it_debtBefore b <= 1e-6).
    { apply (iterations_later pow_frac p (fun _ _ => True)
               (fun a b => Year.remainingDebt (it_year a) <= 1e-6 ->
                           it_debtBefore b <= 1e-6))
        with (a := a); try assumption; try exact I.
      intros y s Hy _ _. split; [exact I|]. intro fuel.
      rewrite step_remainingDebt.
      destruct (Qlt_le_dec 1e-6 (St.remainingDebt (snd (step pow_frac p y s))))
        as [D|D].
      - apply Forall_forall. intros x _ H. exfalso. apply (Qlt_not_le _ _ D H).
      - eapply Forall_impl; [|apply (tail_debt_small fuel (y + 1)); [lia|exact D]].
        intros x Hx _. exact Hx. }
    destruct (One b Hb) as [_ [R1 R2]].
    pose proof (R1 Hdb) as Hr. split; [exact Hr|]. apply R2. exact Hr.
  - intros a Ha Hph Hfirst. unfold iterations in *.
    apply (first_loan2_annuity (loop_bound p) 1 (init p) a); try assumption;
      [lia|reflexivity].
  - intros a b Ha Hb Hlt.
    apply (ordered_pairs_later loan_years_ok _ a b Two Ha Hb Hlt).
Qed.

End LoanSchedule.

Lemma loan_schedule_state_machine_witness :
  exists a b c,
    nth_error (iterations pow_example (unpack 2026 refinanced_inputs)) 1 = Some a /\
    nth_error (iterations pow_example (unpack 2026 refinanced_inputs)) 2 = Some b /\
    nth_error (iterations pow_example (unpack 2026 refinanced_inputs)) 3 = Some c /\
    it_phase a = Loan2 /\ it_phase b = Loan2 /\ it_debtBefore c <= 1e-6 /\
    (n1 (unpack 2026 refinanced_inputs) < inject_Z (Year.yearIndex (it_year a)) /\
     inject_Z (Year.yearIndex (it_year a))
       <= n1 (unpack 2026 refinanced_inputs) + n2 (unpack 2026 refinanced_inputs) /\
     1e-6 < it_debtBefore a) /\
    (phase_rank (it_phase a) <= phase_rank (it_phase b))%nat /\
    (it_phase c = Repaid /\
     Year.interestPaid (it_year c) = 0 /\
     Year.principalPaid (it_year c) = 0 /\
     it_annualPayment c = 0) /\
    (Year.remainingDebt (it_year b) <= 1e-6 /\ it_phase c = Repaid) /\
    it_annualPayment a
      = pmt pow_example (r2 (unpack 2026 refinanced_inputs))
          (n2 (unpack 2026 refinanced_inputs)) (it_debtBefore a) /\
    it_annualPayment b = it_annualPayment a.
Proof.
  destruct (loan_schedule_state_machine pow_example (unpack 2026 refinanced_inputs))
    as [P1 [P2 [P3 [P3' [P4 P5]]]]].
  eexists. eexists. eexists.
  split; [vm_compute; reflexivity|].
  split; [vm_compute; reflexivity|].
  split; [vm_compute; reflexivity|].
  match goal with
  | |- it_phase ?a = _ /\ it_phase ?b = _ /\ it_debtBefore ?c <= _ /\ _ =>
      assert (Ha : In a (iterations pow_example (unpack 2026 refinanced_inputs)))
        by (apply (nth_error_In _ 1); vm_compute; reflexivity);
      assert (Hb : In b (iterations pow_example (unpack 2026 refinanced_inputs)))
        by (apply (nth_error_In _ 2); vm_compute; reflexivity);
      assert (Hc : In c (iterations pow_example (unpack 2026 refinanced_inputs)))
        by (apply (nth_error_In _ 3); vm_compute; reflexivity)
  end.
  split; [reflexivity|]. split; [reflexivity|].
  split; [apply Qle_bool_iff; vm_compute; reflexivity|].
  split; [apply (P1 _ Ha); reflexivity|].
  split; [apply (P2 _ _ Ha Hb); vm_compute; reflexivity|].
  split.
  { apply (P3 _ _ Hc Hc); [vm_compute; discriminate|].
    apply Qle_bool_iff. vm_compute. reflexivity. }
  split.
  { match goal with
    | |- Year.remainingDebt (it_year ?b) <= _ /\ _ =>
        assert (Hz : Year.remainingDebt (it_year b) <= 1e-6)
          by (apply Qle_bool_iff; vm_compute; reflexivity)
    end.
    split; [exact Hz|].
    apply (P3' _ _ Hb Hc); [vm_compute; reflexivity|exact Hz]. }
  split.
  { apply (P4 _ Ha); [reflexivity|].
    intros x Hx Hlt. vm_compute in Hx.
    destruct Hx as [E|[E|[E|[E|[]]]]]; subst x; vm_compute in Hlt;
      try discriminate Hlt; vm_compute; discriminate. }
  apply (P5 _ _ Ha Hb); [vm_compute|..]; reflexivity.
Defined.

(** ** The value of an annuity *)

Lemma annuity_factor_nonneg (q : Q) (m : nat) : 0 < q -> 0 <= annuity_factor q m.
Proof.
  intro Hq. induction m as [|m IH]; simpl; [apply Qle_refl|].
  apply Qle_shift_div_l; [exact Hq|]. lra.
Qed.

Lemma annuity_factor_succ (q : Q) (m : nat) :
  0 < q -> annuity_factor q (S m) * q == 1 + annuity_factor q m.
Proof.
  intro Hq. simpl. field. intro H. rewrite H in Hq. discriminate.
Qed.

Lemma annuity_factor_one (q : Q) (m : nat) :
  q == 1 -> annuity_factor q m == inject_Z (Z.of_nat m).
Proof.
  intro Hq. induction m as [|m IH]; [reflexivity|].
  rewrite Nat2Z.inj_succ. unfold Z.succ. rewrite inject_Z_plus.
  simpl annuity_factor. rewrite IH, Hq. change (inject_Z 1) with 1. field.
Qed.

Lemma annuity_factor_closed (r : Q) (m : nat) :
  0 < 1 + r ->
  annuity_factor (1 + r) m * r == 1 - Qpower (1 + r) (- Z.of_nat m).
Proof.
  intro Hq.
  assert (Hq0 : ~ 1 + r == 0) by (intro H; rewrite H in Hq; discriminate).
  induction m as [|m IH].
  - simpl. ring.
  - rewrite Nat2Z.inj_succ. unfold Z.succ.
    replace (- (Z.of_nat m + 1))%Z with (- Z.of_nat m - 1)%Z by lia.
    rewrite Qpower_minus by exact Hq0.
    simpl annuity_factor. change (Qpower (1 + r) 1) with (1 + r).
    transitivity ((r + annuity_factor (1 + r) m * r) / (1 + r)).
    + field. exact Hq0.
    + rewrite IH. field. exact Hq0.
Qed.

Section Loan1.

Variable pow_frac : Q -> Q -> Q.
Variable p : Params.



End Loan1.

Section YearsOfTheLoop.

Variable pow_frac : Q -> Q -> Q.
Variable p : Params.

(** Every year from 1 to the bound of the loop has its iteration. *)
Lemma for_loop_nth_year (fuel : nat) : forall (y : Z) (s : St.t) (i : nat),
  (i < fuel)%nat ->
  (y + Z.of_nat fuel <= Qfloor (horizonYears p) + 1)%Z ->
  exists it, nth_error (fst (for_loop pow_frac p fuel y s)) i = Some it /\
             Year.yearIndex (it_year it) = (y + Z.of_nat i)%Z.
Proof.
  induction fuel as [|fuel IH]; intros y s i Hi Hb; [lia|].
  rewrite for_loop_cons by (apply guard_iff; lia). cbn [fst].
  destruct i as [|i].
  - eexists. split; [reflexivity|]. rewrite step_yearIndex. simpl. lia.
  - destruct (IH (y + 1)%Z (snd (step pow_frac p y s)) i) as [it [A B]]; try lia.
    exists it. split; [exact A|]. lia.
Qed.

End YearsOfTheLoop.
(* ------------------------------------------------------------------ *)
(** ** The ledger of rationals is the run of the code while the
       annuities are finite *)

Lemma Math_min_Fin (a b : Q) :
  Num.Math_min (Num.Fin a) (Num.Fin b) = Num.Fin (JS.Math_min a b).
Proof.
  unfold Num.Math_min, JS.Math_min, Num.lt. destruct (JS.lt b a); reflexivity.
Qed.

Lemma Math_max_Fin (a b : Q) :
  Num.Math_max (Num.Fin a) (Num.Fin b) = Num.Fin (JS.Math_max a b).
Proof.
  unfold Num.Math_max, JS.Math_max, Num.lt. destruct (JS.lt a b); reflexivity.
Qed.

Section LoanNumbers.

Variable pow_frac : Q -> Q -> Q.
Variable p : Params.

Lemma annuity1_number_finite :
  Num.is_finite (annuity1_number pow_frac p) = true ->
  annuity1_number pow_frac p = Num.Fin (annuity1 pow_frac p).
Proof.
  unfold annuity1_number, annuity1, pmt.
  destruct (JS.gt (n1 p) 0); [apply is_finite_value|reflexivity].
Qed.

Lemma sale_of_fires (year : Q) (sh : bool) (pv d : Q) :
  sale_of p year sh pv d = None <-> sale_fires p year sh = false.
Proof.
  unfold sale_of. destruct (sale_fires p year sh) eqn:F.
  - unfold sale_fires in F. destruct (saleYear p).
    + split; discriminate.
    + rewrite andb_false_r in F. discriminate.
  - tauto.
Qed.

(** One year: the loan columns of the record, and the state it leaves,
    when the loan branch is that of the ledger. *)
Lemma loan_step_number_eq (y : Z) (s : St.t) :
  loan_year_number pow_frac p (inject_Z y) (loan_state s)
  = loan_year_rows pow_frac p (inject_Z y) s ->
  loan_step_number pow_frac p y (loan_state s)
  = (loan_row (it_year (fst (step pow_frac p y s))),
     loan_state (snd (step pow_frac p y s))).
Proof.
  intro H. unfold loan_step_number. rewrite H.
  unfold loan_year_rows, loan_row, loan_state.
  rewrite step_interestPaid, step_principalPaid, step_remainingDebt,
    step_st_remainingDebt, step_st_cumPrincipal, step_st_annuity2,
    step_st_secondLoanStarted, step_st_saleHappened, step_it_sale.
  cbn [NumSt.saleHappened row_interestPaid row_principalPaid
       NumSt.cumPrincipal NumSt.annuity2 NumSt.secondLoanStarted].
  destruct (sale_fires p (inject_Z y) (St.saleHappened s)) eqn:F.
  - destruct (sale_of p (inject_Z y) (St.saleHappened s) _ _) eqn:E;
      [reflexivity|].
    apply sale_of_fires in E. congruence.
  - rewrite (proj2 (sale_of_fires _ _ _ _) F). reflexivity.
Qed.

(** A year of the first loan with a finite annuity. *)
Lemma loan_year_number_loan1 (year : Q) (s : St.t) :
  Num.is_finite (annuity1_number pow_frac p) = true ->
  withinLoan1 p year (St.remainingDebt s) = true ->
  loan_year_number pow_frac p year (loan_state s)
  = loan_year_rows pow_frac p year s.
Proof.
  intros Hfin W1.
  unfold loan_year_rows, loan_year_number, loan_year, withinLoan1_number.
  cbn [loan_state NumSt.remainingDebt NumSt.cumPrincipal NumSt.annuity2
       NumSt.secondLoanStarted NumSt.saleHappened].
  change (Num.gt (Num.Fin (St.remainingDebt s)) (Num.Fin 1e-6))
    with (JS.gt (St.remainingDebt s) 1e-6).
  fold (withinLoan1 p year (St.remainingDebt s)). rewrite W1.
  rewrite (annuity1_number_finite Hfin).
  cbn [ly_interestPaid ly_principalPaid ly_remainingDebt ly_cumPrincipal
       ly_annuity2 ly_secondLoanStarted Num.mul Num.sub Num.add Num.neg].
  rewrite !Math_min_Fin. cbn [Num.sub Num.add Num.neg].
  rewrite !Math_max_Fin. reflexivity.
Qed.

(** A year that is not of the first loan, with a finite annuity of the
    second. *)
Lemma loan_year_number_other (year : Q) (s : St.t) :
  (JS.gt (n2 p) 0 = true -> pmt_finite pow_frac (r2 p) (n2 p) = true) ->
  withinLoan1 p year (St.remainingDebt s) = false ->
  loan_year_number pow_frac p year (loan_state s)
  = loan_year_rows pow_frac p year s.
Proof.
  intros Hfin W1.
  unfold loan_year_rows, loan_year_number, loan_year, withinLoan2_number,
    withinLoan1_number.
  cbn [loan_state NumSt.remainingDebt NumSt.cumPrincipal NumSt.annuity2
       NumSt.secondLoanStarted NumSt.saleHappened].
  change (Num.gt (Num.Fin (St.remainingDebt s)) (Num.Fin 1e-6))
    with (JS.gt (St.remainingDebt s) 1e-6).
  fold (withinLoan1 p year (St.remainingDebt s)).
  fold (withinLoan2 p year (St.remainingDebt s)). rewrite W1.
  destruct (withinLoan2 p year (St.remainingDebt s)) eqn:W2.
  - assert (N2 : JS.gt (n2 p) 0 = true).
    { unfold withinLoan2 in W2. rewrite !andb_true_iff in W2. tauto. }
    rewrite (pmt_number_finite pow_frac _ _ (St.remainingDebt s) (Hfin N2)).
    destruct (St.secondLoanStarted s);
      cbn [negb ly_interestPaid ly_principalPaid ly_remainingDebt ly_cumPrincipal
           ly_annuity2 ly_secondLoanStarted Num.mul Num.sub Num.add Num.neg];
      rewrite !Math_min_Fin; cbn [Num.sub Num.add Num.neg];
      rewrite !Math_max_Fin; reflexivity.
  - destruct s; reflexivity.
Qed.


Hypothesis finite : annuities_finite pow_frac p = true.

Lemma loan_year_number_finite (year : Q) (s : St.t) :
  loan_year_number pow_frac p year (loan_state s)
  = loan_year_rows pow_frac p year s.
Proof.
  pose proof finite as F. unfold annuities_finite in F.
  apply andb_prop in F. destruct F as [F1 F2].
  destruct (withinLoan1 p year (St.remainingDebt s)) eqn:W1.
  - apply loan_year_number_loan1; assumption.
  - apply loan_year_number_other; [|exact W1].
    intro N2. rewrite N2 in F2. exact F2.
Qed.

Lemma loan_step_number_finite (y : Z) (s : St.t) :
  loan_step_number pow_frac p y (loan_state s)
  = (loan_row (it_year (fst (step pow_frac p y s))),
     loan_state (snd (step pow_frac p y s))).
Proof. apply loan_step_number_eq. apply loan_year_number_finite. Qed.

Lemma for_loop_number_finite (fuel : nat) : forall (y : Z) (s : St.t),
  for_loop_number pow_frac p fuel y (loan_state s)
  = map (fun it => loan_row (it_year it)) (fst (for_loop pow_frac p fuel y s)).
Proof.
  induction fuel as [|fuel IH]; intros y s; [reflexivity|].
  destruct (JS.le (inject_Z y) (horizonYears p)) eqn:G.
  - rewrite for_loop_cons by exact G. cbn [fst map for_loop_number].
    rewrite G, loan_step_number_finite, IH. reflexivity.
  - rewrite for_loop_stop by exact G. cbn [fst map for_loop_number].
    rewrite G. reflexivity.
Qed.

(** With finite annuities, the loan columns of the code's records are
    finite and are those of the ledger of rationals. *)
Lemma loan_ledger_finite :
  loan_ledger_number pow_frac p = map loan_row (years pow_frac p).
Proof.
  unfold loan_ledger_number, years, iterations. rewrite map_map.
  apply (for_loop_number_finite (loop_bound p) 1 (init p)).
Qed.

End LoanNumbers.
Section DebtSign.

Variable pow_frac : Q -> Q -> Q.

(** C10, as the code has it.  If the derived [loanAmount1] is not
    negative and the annuities of the loans are finite, the loan columns
    of the year records are finite numbers, those of the ledger of
    rationals, and no record reports a negative [remainingDebt]. *)
Theorem remainingDebt_never_negative (now : Q) (i : Raw.t) :
  0 <= loanAmount1 (unpack now i) ->
  annuities_finite pow_frac (unpack now i) = true ->
  exists r, simulateScenario pow_frac now i = Some r /\
            loan_ledger_number pow_frac (unpack now i)
              = map loan_row (Result.years r) /\
            Forall (fun y => 0 <= Year.remainingDebt y) (Result.years r).
Proof.
  intros H Hfin.
  destruct (simulateScenario_some pow_frac now i) as [r [Hr [Hy _]]].
  exists r. split; [exact Hr|]. rewrite Hy.
  split; [apply loan_ledger_finite; exact Hfin|].
  unfold years. apply Forall_map. unfold iterations.
  apply (for_loop_invariant pow_frac (unpack now i)
           (fun _ s => 0 <= St.remainingDebt s)).
  - intros y s _ _ Hs. rewrite step_remainingDebt.
    split; apply step_debt_nonneg; exact Hs.
  - lia.
  - exact H.
Qed.

End DebtSign.

Lemma remainingDebt_never_negative_witness :
  0 <= loanAmount1 (unpack 2026 two_year_loan_inputs)
  /\ annuities_finite pow_example (unpack 2026 two_year_loan_inputs) = true
  /\ exists r, simulateScenario pow_example 2026 two_year_loan_inputs = Some r /\
               loan_ledger_number pow_example (unpack 2026 two_year_loan_inputs)
                 = map loan_row (Result.years r) /\
               Forall (fun y => 0 <= Year.remainingDebt y) (Result.years r).
Proof.
  assert (H : 0 <= loanAmount1 (unpack 2026 two_year_loan_inputs)).
  { apply Qle_bool_iff. vm_compute. reflexivity. }
  assert (F : annuities_finite pow_example (unpack 2026 two_year_loan_inputs) = true).
  { vm_compute. reflexivity. }
  split; [exact H|]. split; [exact F|].
  apply (remainingDebt_never_negative pow_example 2026 two_year_loan_inputs H F).
Defined.

(** C10, as stated, fails.  100 borrowed over two years at an interest
    rate of -200 %: [loanAmount1] is 100, and [pmt] divides by
    [1 - (-1)^-2 = 0], so the annuity is [-Infinity].  In year 1 the
    principal paid is [-Infinity] and the balance becomes [Infinity]; in
    year 2 the interest is [-Infinity], the principal [NaN] and the
    balance [NaN], which is not [>= 0]. *)
Lemma remainingDebt_not_a_number :
  0 <= loanAmount1 (unpack 2026 negative_rate_inputs) /\
  loanAmount1 (unpack 2026 negative_rate_inputs) == 100 /\
  annuity1_number pow_example (unpack 2026 negative_rate_inputs) = Num.NegInf /\
  map row_principalPaid
    (loan_ledger_number pow_example (unpack 2026 negative_rate_inputs))
  = [Num.NegInf; Num.NaN] /\
  map row_remainingDebt
    (loan_ledger_number pow_example (unpack 2026 negative_rate_inputs))
  = [Num.PosInf; Num.NaN] /\
  Num.le (Num.Fin 0) Num.NaN = false.
Proof.
  split; [apply Qle_bool_iff; vm_compute; reflexivity|].
  split; [vm_compute; reflexivity|].
  split; [vm_compute; reflexivity|].
  split; [vm_compute; reflexivity|].
  split; [vm_compute; reflexivity|].
  reflexivity.
Defined.

(* ------------------------------------------------------------------ *)
(** ** The ledger *)

Section Ledger.

Variable pow_frac : Q -> Q -> Q.
Variable p : Params.

Lemma for_loop_nth_inv (fuel : nat) (y : Z) (s : St.t) (i : nat) (it : Iter) :
  (y + Z.of_nat fuel <= Qfloor (horizonYears p) + 1)%Z ->
  nth_error (fst (for_loop pow_frac p fuel y s)) i = Some it ->
  Year.yearIndex (it_year it) = (y + Z.of_nat i)%Z.
Proof.
  intros Hb Hn.
  assert (Hi : (i < fuel)%nat).
  { rewrite <- (for_loop_length pow_frac p fuel y s Hb).
    apply nth_error_Some. congruence. }
  destruct (for_loop_nth_year pow_frac p fuel y s i Hi Hb) as [it' [A B]].
  congruence.
Qed.

(** The result has one record per whole year of the horizon, in order:
    the record at position [k] (from 0) is that of year [k + 1], and its
    calendar year is [startYear + k]. *)
Theorem years_in_order :
  List.length (years pow_frac p) = Z.to_nat (Qfloor (horizonYears p)) /\
  (1 <= List.length (years pow_frac p))%nat /\
  forall k y, nth_error (years pow_frac p) k = Some y ->
    Year.yearIndex y = Z.of_nat (k + 1) /\
    Year.calendarYear y = startYear p + inject_Z (Z.of_nat (k + 1)) - 1.
Proof.
  split; [apply years_length|].
  split; [rewrite years_length; apply loop_bound_pos|].
  intros k y Hk. unfold years in Hk. rewrite nth_error_map in Hk.
  destruct (nth_error (iterations pow_frac p) k) as [it|] eqn:E; [|discriminate].
  injection Hk as <-.
  assert (Hidx : Year.yearIndex (it_year it) = Z.of_nat (k + 1)).
  { unfold iterations in E.
    rewrite (for_loop_nth_inv (loop_bound p) 1 (init p) k it); [lia| |exact E].
    pose proof (loop_bound_pos p). unfold loop_bound in *. lia. }
  split; [exact Hidx|].
  apply nth_error_In in E.
  assert (F : Forall (fun it => Year.calendarYear (it_year it)
                = startYear p + inject_Z (Year.yearIndex (it_year it)) - 1)
              (iterations pow_frac p)).
  { unfold iterations.
    apply (for_loop_invariant pow_frac p (fun _ _ => True)); [|lia|exact I].
    intros y' s' _ _ _. rewrite step_calendarYear, step_yearIndex.
    split; [reflexivity|exact I]. }
  rewrite Forall_forall in F. rewrite (F it E), Hidx. reflexivity.
Qed.

Lemma step_cumulativeCF (y : Z) (s : St.t) :
  Year.cumulativeCF (it_year (fst (step pow_frac p y s)))
    == St.cumulativeCF s + Year.cashAfterTax (it_year (fst (step pow_frac p y s))) /\
  St.cumulativeCF (snd (step pow_frac p y s))
    = Year.cumulativeCF (it_year (fst (step pow_frac p y s))).
Proof.
  unfold step.
  destruct (sale_of p (inject_Z y) (St.saleHappened s) _ _); cbn;
    split; try reflexivity; ring.
Qed.

Lemma for_loop_cumulativeCF (fuel : nat) : forall (y : Z) (s : St.t) (k : nat) (it : Iter),
  nth_error (fst (for_loop pow_frac p fuel y s)) k = Some it ->
  Year.cumulativeCF (it_year it)
    == St.cumulativeCF s
       + sum_cashAfterTax
           (map it_year (firstn (S k) (fst (for_loop pow_frac p fuel y s)))).
Proof.
  induction fuel as [|fuel IH]; intros y s k it Hk.
  - destruct k; discriminate Hk.
  - destruct (JS.le (inject_Z y) (horizonYears p)) eqn:G.
    + rewrite for_loop_cons in * by exact G. cbn [fst] in *.
      destruct (step_cumulativeCF y s) as [C1 C2].
      destruct k as [|k].
      * injection Hk as <-. cbn. rewrite C1. ring.
      * cbn [nth_error] in Hk. rewrite (IH _ _ _ _ Hk), C2, C1.
        change (firstn (S (S k)) (?a :: ?l)) with (a :: firstn (S k) l).
        cbn [map sum_cashAfterTax fold_right]. unfold sum_cashAfterTax. ring.
    + rewrite for_loop_stop in Hk by exact G. destruct k; discriminate Hk.
Qed.

(** [cumulativeCF] of a year is the sum of [cashAfterTax] of the years up
    to it, the proceeds of a sale included. *)
Theorem cumulativeCF_is_running_sum (k : nat) (y : Year.t) :
  nth_error (years pow_frac p) k = Some y ->
  Year.cumulativeCF y == sum_cashAfterTax (firstn (S k) (years pow_frac p)).
Proof.
  intro Hk. unfold years in *. rewrite nth_error_map in Hk.
  destruct (nth_error (iterations pow_frac p) k) as [it|] eqn:E; [|discriminate].
  injection Hk as <-. unfold iterations in *.
  rewrite (for_loop_cumulativeCF _ _ _ _ _ E). rewrite firstn_map.
  cbn [St.cumulativeCF init]. ring.
Qed.

End Ledger.

Lemma cumulativeCF_is_running_sum_witness :
  exists y,
    nth_error (years pow_example (unpack 2026 two_year_loan_inputs)) 1 = Some y /\
    Year.cumulativeCF y
    == sum_cashAfterTax
         (firstn 2 (years pow_example (unpack 2026 two_year_loan_inputs))).
Proof.
  eexists. split; [vm_compute; reflexivity|].
  apply (cumulativeCF_is_running_sum pow_example (unpack 2026 two_year_loan_inputs) 1).
  vm_compute. reflexivity.
Defined.



Section SaleYear.

Variable pow_frac : Q -> Q -> Q.
Variable p : Params.

(** What the sale block leaves in the record of its year. *)
Lemma step_sale_record (y : Z) (s : St.t) (ev : SaleEvent) :
  it_sale (fst (step pow_frac p y s)) = Some ev ->
  Year.propertyValue (it_year (fst (step pow_frac p y s))) = 0 /\
  Year.remainingDebt (it_year (fst (step pow_frac p y s))) = 0 /\
  Year.equityPosition (it_year (fst (step pow_frac p y s)))
    = Year.wealthFromCFAndLoan (it_year (fst (step pow_frac p y s)))
      - totalInvestment p /\
  repayDebt ev = ly_remainingDebt (loan_year pow_frac p (inject_Z y) s) /\
  St.saleHappened s = false /\
  (saleMode p =? "sell")%string = true /\
  exists sy, saleYear p = Some sy /\ sy == inject_Z y.
Proof.
  unfold step.
  destruct (sale_of p (inject_Z y) (St.saleHappened s) _ _) as [e|] eqn:E;
    cbn [fst it_sale it_year Year.propertyValue Year.remainingDebt
         Year.equityPosition Year.wealthFromCFAndLoan]; [|discriminate].
  intro H. injection H as <-.
  unfold sale_of in E.
  destruct (sale_fires p (inject_Z y) (St.saleHappened s)) eqn:F; [|discriminate].
  destruct (saleYear p) as [sy|] eqn:S; [|discriminate].
  injection E as <-. unfold sale_fires in F. rewrite S in F.
  apply andb_prop in F. destruct F as [F F3]. apply andb_prop in F.
  destruct F as [F1 F2]. apply negb_true_iff in F1. apply strict_eq_true in F3.
  repeat split; try assumption; try reflexivity.
  exists sy. split; [reflexivity|symmetry; exact F3].
Qed.

Lemma step_sale_fires (y : Z) (s : St.t) (sy : Q) :
  (saleMode p =? "sell")%string = true -> saleYear p = Some sy ->
  sy == inject_Z y -> St.saleHappened s = false ->
  exists ev, it_sale (fst (step pow_frac p y s)) = Some ev.
Proof.
  intros Hm Hs He Hh. rewrite step_it_sale. unfold sale_of, sale_fires.
  rewrite Hm, Hs, Hh.
  assert (E : JS.strict_eq (inject_Z y) sy = true)
    by (apply strict_eq_true; symmetry; exact He).
  rewrite E. cbn. eexists. reflexivity.
Qed.

Lemma tail_no_debt (fuel : nat) (y : Z) (s : St.t) :
  (1 <= y)%Z -> St.remainingDebt s = 0 ->
  Forall (fun it => it_phase it = Repaid /\
                    Year.remainingDebt (it_year it) = 0 /\
                    Year.interestPaid (it_year it) = 0 /\
                    Year.principalPaid (it_year it) = 0)
    (fst (for_loop pow_frac p fuel y s)).
Proof.
  intros Hy Hs.
  apply (for_loop_invariant pow_frac p (fun _ s => St.remainingDebt s = 0));
    [|exact Hy|exact Hs].
  intros y' s' _ _ H.
  assert (E : ly_phase (loan_year pow_frac p (inject_Z y') s') = Repaid).
  { apply loan_year_idle. left. rewrite H. discriminate. }
  pose proof (loan_year_Repaid pow_frac p _ _ E) as [_ [A [B [C _]]]].
  assert (D : St.remainingDebt (snd (step pow_frac p y' s')) = 0).
  { rewrite step_st_remainingDebt.
    destruct (it_sale (fst (step pow_frac p y' s'))); [reflexivity|].
    rewrite C. exact H. }
  rewrite step_phase, step_remainingDebt, step_interestPaid, step_principalPaid.
  repeat split; assumption.
Qed.

Lemma sale_year_found (k : Z) (sy : Q) (fuel : nat) : forall (y : Z) (s : St.t),
  (saleMode p =? "sell")%string = true -> saleYear p = Some sy ->
  sy == inject_Z k -> inject_Z k <= horizonYears p ->
  (1 <= y <= k)%Z -> (k < y + Z.of_nat fuel)%Z ->
  St.saleHappened s = false ->
  exists it ev, In it (fst (for_loop pow_frac p fuel y s)) /\
                Year.yearIndex (it_year it) = k /\ it_sale it = Some ev.
Proof.
  induction fuel as [|fuel IH]; intros y s Hm Hs He Hh Hy Hf Hn; [lia|].
  assert (G : JS.le (inject_Z y) (horizonYears p) = true).
  { apply le_true. apply Qle_trans with (inject_Z k);
      [rewrite <- Zle_Qle; lia|exact Hh]. }
  rewrite for_loop_cons by exact G. cbn [fst].
  destruct (Z.eq_dec y k) as [E|N].
  - subst y. destruct (step_sale_fires k s sy Hm Hs He Hn) as [ev Hev].
    exists (fst (step pow_frac p k s)), ev.
    split; [left; reflexivity|]. split; [apply step_yearIndex|exact Hev].
  - destruct (IH (y + 1)%Z (snd (step pow_frac p y s))) as [it [ev [A [B C]]]];
      try assumption; try lia.
    + rewrite step_st_saleHappened.
      destruct (it_sale (fst (step pow_frac p y s))) as [ev|] eqn:Sale; [|exact Hn].
      exfalso. destruct (step_sale_record y s ev Sale)
        as [_ [_ [_ [_ [_ [_ [sy' [S1 S2]]]]]]]].
      rewrite Hs in S1. injection S1 as <-. rewrite He in S2.
      apply N. symmetry. apply inject_Z_injective. exact S2.
    + exists it, ev. split; [right; exact A|]. tauto.
Qed.

(** Selling in a whole year [k] of the horizon.  The sale block runs in
    year [k] and in no other year.  The record of year [k] has
    [propertyValue] 0, [remainingDebt] 0 and an [equityPosition] of
    [wealthFromCFAndLoan - totalInvestment].  Every later year has no debt
    and pays neither interest nor principal. *)
Theorem sale_in_year (k : Z) (sy : Q) :
  saleMode p = "sell"%string -> saleYear p = Some sy -> sy == inject_Z k ->
  (1 <= k)%Z -> inject_Z k <= horizonYears p ->
  (exists it ev,
     In it (iterations pow_frac p) /\ Year.yearIndex (it_year it) = k /\
     it_sale it = Some ev /\
     Year.propertyValue (it_year it) = 0 /\
     Year.remainingDebt (it_year it) = 0 /\
     Year.equityPosition (it_year it)
       = Year.wealthFromCFAndLoan (it_year it) - totalInvestment p) /\
  (forall it, In it (iterations pow_frac p) ->
     Year.yearIndex (it_year it) <> k -> it_sale it = None) /\
  (forall it, In it (iterations pow_frac p) ->
     (k < Year.yearIndex (it_year it))%Z ->
     it_phase it = Repaid /\
     Year.remainingDebt (it_year it) = 0 /\
     Year.interestPaid (it_year it) = 0 /\
     Year.principalPaid (it_year it) = 0).
Proof.
  intros Hm Hs He Hk Hh.
  assert (Hm' : (saleMode p =? "sell")%string = true) by (rewrite Hm; reflexivity).
  assert (Hf : (k <= Qfloor (horizonYears p))%Z).
  { rewrite <- (Qfloor_Z k). apply Qfloor_resp_le. exact Hh. }
  assert (Sale : Forall (fun it => forall ev, it_sale it = Some ev ->
              Year.yearIndex (it_year it) = k /\
              Year.propertyValue (it_year it) = 0 /\
              Year.remainingDebt (it_year it) = 0 /\
              Year.equityPosition (it_year it)
                = Year.wealthFromCFAndLoan (it_year it) - totalInvestment p)
            (iterations pow_frac p)).
  { unfold iterations.
    apply (for_loop_invariant pow_frac p (fun _ _ => True)); [|lia|exact I].
    intros y s _ _ _. split; [|exact I]. intros ev Hev.
    destruct (step_sale_record y s ev Hev) as [A [B [C [_ [_ [_ [sy' [S1 S2]]]]]]]].
    rewrite Hs in S1. injection S1 as <-. rewrite He in S2.
    rewrite step_yearIndex. split; [symmetry; apply inject_Z_injective; exact S2|].
    tauto. }
  rewrite Forall_forall in Sale.
  destruct (sale_year_found k sy (loop_bound p) 1 (init p))
    as [it [ev [A [B C]]]]; try assumption; try reflexivity.
  { lia. } { unfold loop_bound. lia. }
  split; [|split].
  - exists it, ev. destruct (Sale it A ev C) as [_ [S1 [S2 S3]]]. tauto.
  - intros x Hx Hne. destruct (it_sale x) as [e|] eqn:E; [|reflexivity].
    exfalso. apply Hne. apply (Sale x Hx e E).
  - intros b Hb Hlt.
    apply (iterations_later pow_frac p (fun _ _ => True)
             (fun a b => it_sale a <> None ->
                it_phase b = Repaid /\
                Year.remainingDebt (it_year b) = 0 /\
                Year.interestPaid (it_year b) = 0 /\
                Year.principalPaid (it_year b) = 0))
      with (a := it); try assumption; try exact I; [|lia|congruence].
    intros y s Hy _ _. split; [exact I|]. intro fuel.
    destruct (it_sale (fst (step pow_frac p y s))) as [e|] eqn:E.
    + eapply Forall_impl; [|apply tail_no_debt; [lia|]].
      * intros x Hx _. exact Hx.
      * rewrite step_st_remainingDebt, E. reflexivity.
    + apply Forall_forall. intros x _ Hn. exfalso. apply Hn. reflexivity.
Qed.

End SaleYear.

Lemma sale_in_year_witness :
  (exists it ev,
     In it (iterations pow_example (unpack 2026 sold_land_inputs)) /\
     Year.yearIndex (it_year it) = 1%Z /\
     it_sale it = Some ev /\
     Year.propertyValue (it_year it) = 0 /\
     Year.remainingDebt (it_year it) = 0 /\
     Year.equityPosition (it_year it)
       = Year.wealthFromCFAndLoan (it_year it)
         - totalInvestment (unpack 2026 sold_land_inputs)) /\
  (forall it, In it (iterations pow_example (unpack 2026 sold_land_inputs)) ->
     Year.yearIndex (it_year it) <> 1%Z -> it_sale it = None) /\
  (forall it, In it (iterations pow_example (unpack 2026 sold_land_inputs)) ->
     (1 < Year.yearIndex (it_year it))%Z ->
     it_phase it = Repaid /\
     Year.remainingDebt (it_year it) = 0 /\
     Year.interestPaid (it_year it) = 0 /\
     Year.principalPaid (it_year it) = 0).
Proof.
  apply (sale_in_year pow_example (unpack 2026 sold_land_inputs) 1 1).
  - reflexivity.
  - reflexivity.
  - reflexivity.
  - lia.
  - apply Qle_bool_iff. vm_compute. reflexivity.
Defined.

Section Balances.

Variable pow_frac : Q -> Q -> Q.
Variable p : Params.

(** A year of the schedule moves principal from the balance to the
    principal repaid, and nothing else. *)
Lemma loan_year_conserves (year : Q) (s : St.t) :
  ly_cumPrincipal (loan_year pow_frac p year s)
  + ly_remainingDebt (loan_year pow_frac p year s)
  == St.cumPrincipal s + St.remainingDebt s.
Proof.
  unfold loan_year.
  destruct (withinLoan1 p year (St.remainingDebt s)) eqn:W1;
    [|destruct (withinLoan2 p year (St.remainingDebt s)) eqn:W2]; cbn.
  - rewrite Math_max_l; [ring|].
    pose proof (Math_min_le_r (annuity1 pow_frac p - St.remainingDebt s * r1 p)
                  (St.remainingDebt s)). lra.
  - match goal with
    | |- context [JS.Math_min ?a ?b] =>
        pose proof (Math_min_le_r a b); rewrite (Math_max_l (b - JS.Math_min a b) 0)
    end; [ring|lra].
  - reflexivity.
Qed.

(** The record of a year without a sale. *)
Lemma step_no_sale_record (y : Z) (s : St.t) :
  it_sale (fst (step pow_frac p y s)) = None ->
  Year.remainingDebt (it_year (fst (step pow_frac p y s)))
    = ly_remainingDebt (loan_year pow_frac p (inject_Z y) s) /\
  Year.wealthFromCFAndLoan (it_year (fst (step pow_frac p y s)))
    = Year.cumulativeCF (it_year (fst (step pow_frac p y s)))
      + ly_cumPrincipal (loan_year pow_frac p (inject_Z y) s) /\
  Year.equityPosition (it_year (fst (step pow_frac p y s)))
    = Year.propertyValue (it_year (fst (step pow_frac p y s)))
      + Year.wealthFromCFAndLoan (it_year (fst (step pow_frac p y s)))
      - totalInvestment p /\
  Year.propertyValue (it_year (fst (step pow_frac p y s)))
    = St.landVal s * (1 + landGrowthRate p)
      + St.buildingVal s * (1 - buildingLossRate p + constructionCostGrowth p).
Proof.
  unfold step.
  destruct (sale_of p (inject_Z y) (St.saleHappened s) _ _); cbn;
    [discriminate|]. intros _. repeat split.
Qed.

(** With finite annuities and until a sale, the principal repaid so far
    and the remaining debt add up to the loan, and the equity position is
    the property value, plus the cash flows so far, plus the part of the
    loan that is repaid, minus the total investment.  The loan columns of
    the code's records are then those of the ledger. *)
Theorem principal_and_debt_add_up (it : Iter) :
  annuities_finite pow_frac p = true ->
  In it (iterations pow_frac p) ->
  (forall c, In c (iterations pow_frac p) ->
     (Year.yearIndex (it_year c) <= Year.yearIndex (it_year it))%Z ->
     it_sale c = None) ->
  loan_ledger_number pow_frac p = map loan_row (years pow_frac p) /\
  Year.wealthFromCFAndLoan (it_year it) - Year.cumulativeCF (it_year it)
  + Year.remainingDebt (it_year it) == loanAmount1 p /\
  Year.equityPosition (it_year it)
  == Year.propertyValue (it_year it) + Year.cumulativeCF (it_year it)
     + (loanAmount1 p - Year.remainingDebt (it_year it)) - totalInvestment p.
Proof.
  intros Hfin Hin Hc.
  split; [apply loan_ledger_finite; exact Hfin|].
  unfold iterations in *.
  apply (for_loop_prefix pow_frac p
           (fun s => St.cumPrincipal s + St.remainingDebt s == loanAmount1 p)
           (fun c => it_sale c = None)
           (fun it =>
              Year.wealthFromCFAndLoan (it_year it) - Year.cumulativeCF (it_year it)
              + Year.remainingDebt (it_year it) == loanAmount1 p /\
              Year.equityPosition (it_year it)
              == Year.propertyValue (it_year it) + Year.cumulativeCF (it_year it)
                 + (loanAmount1 p - Year.remainingDebt (it_year it))
                 - totalInvestment p))
    with (fuel := loop_bound p) (y := 1%Z) (s := init p);
    try assumption; [|lia|cbn; ring].
  intros y s _ Hs Hn.
  destruct (step_no_sale_record y s Hn) as [A [B [C _]]].
  pose proof (loan_year_conserves (inject_Z y) s) as K.
  assert (E : Year.wealthFromCFAndLoan (it_year (fst (step pow_frac p y s)))
              - Year.cumulativeCF (it_year (fst (step pow_frac p y s)))
              + Year.remainingDebt (it_year (fst (step pow_frac p y s)))
              == loanAmount1 p).
  { rewrite A, B, <- Hs, <- K. ring. }
  split; [split; [exact E|rewrite C; lra]|].
  rewrite step_st_cumPrincipal, step_st_remainingDebt, Hn, K. exact Hs.
Qed.

Lemma Qpower_succ_r (a : Q) (k : Z) : (0 <= k)%Z -> a ^ (k + 1) == a ^ k * a.
Proof.
  intro Hk. rewrite Qpower_plus' by lia. rewrite Qpower_1_r. reflexivity.
Qed.

(** The property value of a year in which nothing is sold is the land
    and the building compounded at their yearly factors, in the years after
    a sale as in the years before it; in the year of the sale it is 0. *)
Theorem property_value_compounds (it : Iter) :
  In it (iterations pow_frac p) ->
  (it_sale it = None ->
     Year.propertyValue (it_year it)
     == landValue p * (1 + landGrowthRate p) ^ Year.yearIndex (it_year it)
        + (buildingValue p + JS.or (fittingUp p) 0)
          * (1 - buildingLossRate p + constructionCostGrowth p)
            ^ Year.yearIndex (it_year it)) /\
  (it_sale it <> None -> Year.propertyValue (it_year it) = 0).
Proof.
  intro Hin. unfold iterations in Hin.
  pose proof (for_loop_invariant pow_frac p
    (fun y s =>
       St.landVal s == landValue p * (1 + landGrowthRate p) ^ (y - 1) /\
       St.buildingVal s
       == (buildingValue p + JS.or (fittingUp p) 0)
          * (1 - buildingLossRate p + constructionCostGrowth p) ^ (y - 1))
    (fun it =>
       (it_sale it = None ->
          Year.propertyValue (it_year it)
          == landValue p * (1 + landGrowthRate p) ^ Year.yearIndex (it_year it)
             + (buildingValue p + JS.or (fittingUp p) 0)
               * (1 - buildingLossRate p + constructionCostGrowth p)
                 ^ Year.yearIndex (it_year it)) /\
       (it_sale it <> None -> Year.propertyValue (it_year it) = 0))) as F.
  assert (Hstep : forall y s, (1 <= y)%Z -> inject_Z y <= horizonYears p ->
    St.landVal s == landValue p * (1 + landGrowthRate p) ^ (y - 1) /\
    St.buildingVal s
    == (buildingValue p + JS.or (fittingUp p) 0)
       * (1 - buildingLossRate p + constructionCostGrowth p) ^ (y - 1) ->
    ((it_sale (fst (step pow_frac p y s)) = None ->
        Year.propertyValue (it_year (fst (step pow_frac p y s)))
        == landValue p * (1 + landGrowthRate p)
             ^ Year.yearIndex (it_year (fst (step pow_frac p y s)))
           + (buildingValue p + JS.or (fittingUp p) 0)
             * (1 - buildingLossRate p + constructionCostGrowth p)
               ^ Year.yearIndex (it_year (fst (step pow_frac p y s)))) /\
     (it_sale (fst (step pow_frac p y s)) <> None ->
        Year.propertyValue (it_year (fst (step pow_frac p y s))) = 0)) /\
    (St.landVal (snd (step pow_frac p y s))
     == landValue p * (1 + landGrowthRate p) ^ (y + 1 - 1) /\
     St.buildingVal (snd (step pow_frac p y s))
     == (buildingValue p + JS.or (fittingUp p) 0)
        * (1 - buildingLossRate p + constructionCostGrowth p) ^ (y + 1 - 1))).
  { intros y s Hy _ [HL HB].
    assert (EL : St.landVal s * (1 + landGrowthRate p)
                 == landValue p * (1 + landGrowthRate p) ^ y).
    { rewrite HL. replace y with (y - 1 + 1)%Z at 2 by lia.
      rewrite Qpower_succ_r by lia. ring. }
    assert (EB : St.buildingVal s
                 * (1 - buildingLossRate p + constructionCostGrowth p)
                 == (buildingValue p + JS.or (fittingUp p) 0)
                    * (1 - buildingLossRate p + constructionCostGrowth p) ^ y).
    { rewrite HB. replace y with (y - 1 + 1)%Z at 2 by lia.
      rewrite Qpower_succ_r by lia. ring. }
    rewrite step_yearIndex, step_st_landVal, step_st_buildingVal.
    replace (y + 1 - 1)%Z with y by lia.
    split; [split|split; assumption].
    - intro Hn. destruct (step_no_sale_record y s Hn) as [_ [_ [_ D]]].
      rewrite D, EL, EB. reflexivity.
    - intro Hs. destruct (it_sale (fst (step pow_frac p y s))) as [ev|] eqn:E;
        [|congruence].
      apply (step_sale_record pow_frac p y s ev E). }
  specialize (F Hstep (loop_bound p) 1%Z (init p) ltac:(lia)).
  rewrite Forall_forall in F. apply F; [|exact Hin].
  cbn. split; ring.
Qed.

End Balances.

Lemma principal_and_debt_add_up_witness :
  exists it,
    nth_error (iterations pow_example (unpack 2026 two_year_loan_inputs)) 1 = Some it /\
    Year.wealthFromCFAndLoan (it_year it) - Year.cumulativeCF (it_year it)
    + Year.remainingDebt (it_year it)
    == loanAmount1 (unpack 2026 two_year_loan_inputs).
Proof.
  eexists. split; [vm_compute; reflexivity|].
  apply (principal_and_debt_add_up pow_example (unpack 2026 two_year_loan_inputs)).
  - vm_compute. reflexivity.
  - vm_compute. right. left. reflexivity.
  - intros c Hc _. vm_compute in Hc.
    destruct Hc as [E|[E|[E|[]]]]; subst c; reflexivity.
Defined.

Lemma property_value_compounds_witness :
  exists it,
    nth_error (iterations pow_example (unpack 2026 sold_land_inputs)) 1 = Some it /\
    Year.propertyValue (it_year it) == 100.
Proof.
  eexists. split; [vm_compute; reflexivity|].
  match goal with
  | |- Year.propertyValue (it_year ?it) == _ =>
      destruct (property_value_compounds pow_example
                  (unpack 2026 sold_land_inputs) it) as [H _]
  end.
  - vm_compute. right. left. reflexivity.
  - rewrite H by reflexivity. vm_compute. reflexivity.
Defined.
Section Amortization.

Variable pow_frac : Q -> Q -> Q.
Variable p : Params.

(** The principal paid in a year comes off the balance. *)
Lemma loan_year_pays (year : Q) (s : St.t) :
  ly_principalPaid (loan_year pow_frac p year s)
  + ly_remainingDebt (loan_year pow_frac p year s)
  == St.remainingDebt s.
Proof.
  unfold loan_year.
  destruct (withinLoan1 p year (St.remainingDebt s)) eqn:W1;
    [|destruct (withinLoan2 p year (St.remainingDebt s)) eqn:W2]; cbn.
  - rewrite Math_max_l; [ring|].
    pose proof (Math_min_le_r (annuity1 pow_frac p - St.remainingDebt s * r1 p)
                  (St.remainingDebt s)). lra.
  - match goal with
    | |- context [JS.Math_min ?a ?b] =>
        pose proof (Math_min_le_r a b); rewrite (Math_max_l (b - JS.Math_min a b) 0)
    end; [ring|lra].
  - ring.
Qed.




End Amortization.


Section SaleTax.

Variable pow_frac : Q -> Q -> Q.
Variable p : Params.

(** The sale block of a year in which it runs. *)
Lemma step_sale_event (y : Z) (s : St.t) (ev : SaleEvent) :
  it_sale (fst (step pow_frac p y s)) = Some ev ->
  exists sy,
    saleYear p = Some sy /\
    sy == inject_Z y /\
    ev = sale_event p sy
           (St.landVal s * (1 + landGrowthRate p)
            + St.buildingVal s * (1 - buildingLossRate p + constructionCostGrowth p))
           (ly_remainingDebt (loan_year pow_frac p (inject_Z y) s)) /\
    Year.cashAfterTax (it_year (fst (step pow_frac p y s)))
    = Year.cashBeforeTax (it_year (fst (step pow_frac p y s)))
      + Year.taxCash (it_year (fst (step pow_frac p y s)))
      + saleNetCF ev.
Proof.
  unfold step.
  destruct (sale_of p (inject_Z y) (St.saleHappened s) _ _) as [e|] eqn:E;
    cbn [fst it_sale it_year Year.cashAfterTax Year.cashBeforeTax Year.taxCash];
    [|discriminate].
  intro H. injection H as <-.
  unfold sale_of in E.
  destruct (sale_fires p (inject_Z y) (St.saleHappened s)) eqn:F; [|discriminate].
  destruct (saleYear p) as [sy|] eqn:S; [|discriminate].
  injection E as <-. exists sy. split; [reflexivity|].
  unfold sale_fires in F. rewrite S in F.
  apply andb_prop in F. destruct F as [_ F]. apply strict_eq_true in F.
  split; [symmetry; exact F|]. split; reflexivity.
Qed.

(** C4.  In the year the sale block runs, the sale price is the land and
    the building compounded to that year, less the selling costs; the
    capital gain is that price less the purchase cost basis; and the
    capital-gains tax is [capitalGain * incomeTaxRate] when
    [saleYear <= 10] and [capitalGain > 0], and 0 otherwise, so 0 for
    every [saleYear > 10].  It is the tax taken off the sale proceeds of
    that year, after the balance of the loan. *)
Theorem capital_gains_tax_rule (it : Iter) (ev : SaleEvent) :
  In it (iterations pow_frac p) ->
  it_sale it = Some ev ->
  exists sy,
    saleYear p = Some sy /\
    sy == inject_Z (Year.yearIndex (it_year it)) /\
    saleGross ev
    == (landValue p * (1 + landGrowthRate p) ^ Year.yearIndex (it_year it)
        + (buildingValue p + JS.or (fittingUp p) 0)
          * (1 - buildingLossRate p + constructionCostGrowth p)
            ^ Year.yearIndex (it_year it))
       * (1 - sellingCostRate p) /\
    capitalGain ev = saleGross ev - purchaseCostBasis p /\
    (sy <= 10 -> 0 < capitalGain ev -> cgt ev = capitalGain ev * incomeTaxRate p) /\
    (~ (sy <= 10 /\ 0 < capitalGain ev) -> cgt ev = 0) /\
    (10 < sy -> cgt ev = 0) /\
    repayDebt ev == it_debtBefore it - Year.principalPaid (it_year it) /\
    saleNetCF ev = saleGross ev - repayDebt ev - cgt ev /\
    Year.cashAfterTax (it_year it) =
      Year.cashBeforeTax (it_year it) + Year.taxCash (it_year it) + saleNetCF ev.
Proof.
  intros Hin Hev. unfold iterations in Hin.
  pose proof (for_loop_invariant pow_frac p
    (fun y s =>
       St.landVal s == landValue p * (1 + landGrowthRate p) ^ (y - 1) /\
       St.buildingVal s
       == (buildingValue p + JS.or (fittingUp p) 0)
          * (1 - buildingLossRate p + constructionCostGrowth p) ^ (y - 1))
    (fun it => forall ev, it_sale it = Some ev ->
       exists sy,
         saleYear p = Some sy /\
         sy == inject_Z (Year.yearIndex (it_year it)) /\
         saleGross ev
         == (landValue p * (1 + landGrowthRate p) ^ Year.yearIndex (it_year it)
             + (buildingValue p + JS.or (fittingUp p) 0)
               * (1 - buildingLossRate p + constructionCostGrowth p)
                 ^ Year.yearIndex (it_year it))
            * (1 - sellingCostRate p) /\
         capitalGain ev = saleGross ev - purchaseCostBasis p /\
         cgt ev = capital_gains_tax p sy (capitalGain ev) /\
         repayDebt ev == it_debtBefore it - Year.principalPaid (it_year it) /\
         saleNetCF ev = saleGross ev - repayDebt ev - cgt ev /\
         Year.cashAfterTax (it_year it) =
           Year.cashBeforeTax (it_year it) + Year.taxCash (it_year it)
           + saleNetCF ev)) as Hall.
  cbv beta in Hall.
  assert (Hall' : Forall
    (fun it => forall ev, it_sale it = Some ev ->
       exists sy,
         saleYear p = Some sy /\
         sy == inject_Z (Year.yearIndex (it_year it)) /\
         saleGross ev
         == (landValue p * (1 + landGrowthRate p) ^ Year.yearIndex (it_year it)
             + (buildingValue p + JS.or (fittingUp p) 0)
               * (1 - buildingLossRate p + constructionCostGrowth p)
                 ^ Year.yearIndex (it_year it))
            * (1 - sellingCostRate p) /\
         capitalGain ev = saleGross ev - purchaseCostBasis p /\
         cgt ev = capital_gains_tax p sy (capitalGain ev) /\
         repayDebt ev == it_debtBefore it - Year.principalPaid (it_year it) /\
         saleNetCF ev = saleGross ev - repayDebt ev - cgt ev /\
         Year.cashAfterTax (it_year it) =
           Year.cashBeforeTax (it_year it) + Year.taxCash (it_year it)
           + saleNetCF ev)
    (fst (for_loop pow_frac p (loop_bound p) 1 (init p)))).
  { apply Hall; [|lia|cbn; split; ring].
    intros y s Hy _ [HL HB].
    assert (EL : St.landVal s * (1 + landGrowthRate p)
                 == landValue p * (1 + landGrowthRate p) ^ y).
    { rewrite HL. replace y with (y - 1 + 1)%Z at 2 by lia.
      rewrite Qpower_succ_r by lia. ring. }
    assert (EB : St.buildingVal s
                 * (1 - buildingLossRate p + constructionCostGrowth p)
                 == (buildingValue p + JS.or (fittingUp p) 0)
                    * (1 - buildingLossRate p + constructionCostGrowth p) ^ y).
    { rewrite HB. replace y with (y - 1 + 1)%Z at 2 by lia.
      rewrite Qpower_succ_r by lia. ring. }
    split.
    - intros ev0 H0.
      destruct (step_sale_event y s ev0 H0) as [sy [S1 [S2 [S3 S4]]]].
      exists sy. rewrite step_yearIndex, step_debtBefore, step_principalPaid.
      split; [exact S1|]. split; [exact S2|].
      subst ev0. cbn [sale_event saleGross capitalGain cgt repayDebt saleNetCF].
      split; [rewrite EL, EB; reflexivity|].
      split; [reflexivity|]. split; [reflexivity|].
      split; [|split; [reflexivity|exact S4]].
      pose proof (loan_year_pays pow_frac p (inject_Z y) s) as K.
      rewrite <- K. ring.
    - rewrite step_st_landVal, step_st_buildingVal.
      replace (y + 1 - 1)%Z with y by lia. split; assumption. }
  rewrite Forall_forall in Hall'.
  destruct (Hall' it Hin ev Hev) as [sy [A [B [G [C0 [C [R [D E]]]]]]]].
  exists sy. split; [exact A|]. split; [exact B|]. split; [exact G|].
  split; [exact C0|].
  unfold capital_gains_tax in C.
  split; [|split; [|split; [|split; [exact R|split; [exact D|exact E]]]]].
  - intros H1 H2. apply le_true in H1. apply gt_true in H2.
    rewrite H1, H2 in C. exact C.
  - intro H. destruct (JS.le sy 10) eqn:H1; [|exact C].
    destruct (JS.gt (capitalGain ev) 0) eqn:H2; [|exact C].
    exfalso. apply H. split; [apply le_true; exact H1|apply gt_true; exact H2].
  - intro H. apply le_false in H. rewrite H in C. exact C.
Qed.

End SaleTax.

Lemma capital_gains_tax_rule_witness :
  (exists it ev,
     nth_error (iterations pow_example (unpack 2026 sold_at_a_gain_inputs)) 0
       = Some it /\
     it_sale it = Some ev /\
     saleGross ev == 150 /\
     capitalGain ev == 50 /\
     cgt ev == 15 /\
     saleNetCF ev == 135 /\
     Year.cashAfterTax (it_year it) == 135) /\
  (exists it ev,
     nth_error (iterations pow_example (unpack 2026 sold_after_ten_years_inputs)) 10
       = Some it /\
     it_sale it = Some ev /\
     100 < capitalGain ev /\
     cgt ev = 0).
Proof.
  split.
  - exists (fst (step pow_example (unpack 2026 sold_at_a_gain_inputs) 1
                   (init (unpack 2026 sold_at_a_gain_inputs)))).
    eexists. split; [vm_compute; reflexivity|].
    split; [vm_compute; reflexivity|].
    match goal with
    | |- saleGross ?ev == _ /\ _ => set (e := ev)
    end.
    destruct (capital_gains_tax_rule pow_example
                (unpack 2026 sold_at_a_gain_inputs)
                (fst (step pow_example (unpack 2026 sold_at_a_gain_inputs) 1
                        (init (unpack 2026 sold_at_a_gain_inputs))))
                e)
      as [sy [S [_ [G [C [T [_ [_ [R [N E]]]]]]]]]].
    + vm_compute. left. reflexivity.
    + vm_compute. reflexivity.
    + injection S as <-.
      assert (G' : saleGross e == 150).
      { rewrite G. vm_compute. reflexivity. }
      assert (C' : capitalGain e == 50).
      { rewrite C, G'. vm_compute. reflexivity. }
      assert (T' : cgt e == 15).
      { rewrite T; [rewrite C'; vm_compute; reflexivity
                   |apply Qle_bool_iff; vm_compute; reflexivity
                   |rewrite C'; reflexivity]. }
      assert (N' : saleNetCF e == 135).
      { rewrite N, G', R, T'. vm_compute. reflexivity. }
      split; [exact G'|]. split; [exact C'|]. split; [exact T'|].
      split; [exact N'|]. rewrite E, N'. vm_compute. reflexivity.
  - exists (fst (step pow_example (unpack 2026 sold_after_ten_years_inputs) 11
                   (snd (for_loop pow_example
                           (unpack 2026 sold_after_ten_years_inputs)
                           10 1
                           (init (unpack 2026 sold_after_ten_years_inputs)))))).
    eexists. split; [vm_compute; reflexivity|].
    split; [vm_compute; reflexivity|].
    match goal with
    | |- _ < capitalGain ?ev /\ _ => set (e := ev)
    end.
    destruct (capital_gains_tax_rule pow_example
                (unpack 2026 sold_after_ten_years_inputs)
                (fst (step pow_example (unpack 2026 sold_after_ten_years_inputs) 11
                        (snd (for_loop pow_example
                                (unpack 2026 sold_after_ten_years_inputs)
                                10 1
                                (init (unpack 2026 sold_after_ten_years_inputs))))))
                e)
      as [sy [S [_ [G [C [_ [_ [Z _]]]]]]]].
    + vm_compute. do 10 right. left. reflexivity.
    + vm_compute. reflexivity.
    + injection S as <-.
      split; [|apply Z; reflexivity].
      rewrite C, G. vm_compute. reflexivity.
Defined.

Section RentAndDepreciation.

Variable pow_frac : Q -> Q -> Q.

(** The rent of an iteration: [Math.pow] is asked for a whole power. *)
Lemma iteration_rent (p : Params) :
  Forall (fun it =>
      Year.grossRent (it_year it)
        = monthlyRent p * 12
          * (1 + rentGrowth p) ^ (Year.yearIndex (it_year it) - 1) /\
      Year.netRent (it_year it) = Year.grossRent (it_year it) * (1 - vacancyRate p))
    (iterations pow_frac p).
Proof.
  unfold iterations.
  apply (for_loop_invariant pow_frac p (fun _ _ => True)); [|lia|exact I].
  intros y s Hy _ _. split; [|exact I].
  assert (Hm : JS.Math_max (inject_Z y - 1) 0 = inject_Z y - 1).
  { apply Math_max_l. rewrite Zle_Qle in Hy. change (inject_Z 1) with 1 in Hy. lra. }
  assert (He : inject_Z y - 1 == inject_Z (y - 1)).
  { unfold Z.sub. rewrite inject_Z_plus, inject_Z_opp. reflexivity. }
  unfold step.
  destruct (sale_of p (inject_Z y) (St.saleHappened s) _ _);
    cbn [fst it_year Year.grossRent Year.netRent Year.yearIndex];
    rewrite Hm, (Math_pow_integer pow_frac _ _ _ He); split; reflexivity.
Qed.

(** The gross rent of a year is the first year's rent compounded at
    [rentGrowth], the net rent is what vacancy leaves of it; [Math.pow] is
    only asked for whole powers here.  With no vacancy and no growth the
    net rent is [monthlyRent * 12] in every year. *)
Theorem rent_of_year (p : Params) (y : Year.t) :
  In y (years pow_frac p) ->
  Year.grossRent y
    == monthlyRent p * 12 * (1 + rentGrowth p) ^ (Year.yearIndex y - 1) /\
  Year.netRent y = Year.grossRent y * (1 - vacancyRate p) /\
  (vacancyRate p == 0 -> rentGrowth p == 0 -> Year.netRent y == monthlyRent p * 12).
Proof.
  intro Hin. apply In_years_iterations in Hin. destruct Hin as [it [Hin <-]].
  pose proof (iteration_rent p) as F.
  rewrite Forall_forall in F. destruct (F it Hin) as [G N].
  split; [rewrite G; reflexivity|]. split; [exact N|].
  intros Hv Hg. rewrite N, G, Hv, Hg.
  setoid_replace (1 + 0) with 1 by ring. rewrite Qpower_1. ring.
Qed.

(** The net rent of the record at position [k]. *)
Lemma netRent_nth (p : Params) (k : nat) (y : Year.t) :
  nth_error (years pow_frac p) k = Some y ->
  Year.netRent y
  == monthlyRent p * 12 * (1 + rentGrowth p) ^ Z.of_nat k * (1 - vacancyRate p).
Proof.
  intro Hk. unfold years in Hk. rewrite nth_error_map in Hk.
  destruct (nth_error (iterations pow_frac p) k) as [it|] eqn:E; [|discriminate].
  injection Hk as <-.
  assert (Hidx : Year.yearIndex (it_year it) = (1 + Z.of_nat k)%Z).
  { unfold iterations in E.
    apply (for_loop_nth_inv pow_frac p (loop_bound p) 1 (init p) k it); [|exact E].
    pose proof (loop_bound_pos p). unfold loop_bound in *. lia. }
  pose proof (iteration_rent p) as F. rewrite Forall_forall in F.
  destruct (F it (nth_error_In _ _ E)) as [G N].
  rewrite N, G, Hidx. replace (1 + Z.of_nat k - 1)%Z with (Z.of_nat k) by lia.
  reflexivity.
Qed.

End RentAndDepreciation.

(** The depreciation rate of a year from 1 on is never negative, for any
    model name and any lifetime; a name that is none of the eight listed
    ones gets 2 % in every year. *)
Theorem afa_rate_nonneg (afaModel : string) (year lifetimeYears : Q) :
  1 <= year ->
  0 <= getAfaRate afaModel year lifetimeYears /\
  (In afaModel
      [ "Linear 2%"; "Linear 2% p.a."; "Linear 3%"; "Linear 3% p.a.";
        "Degressive 5% + Linear 2%"; "Degressive 5% + Linear 3%";
        "Linear 1/Restnutzungsdauer"; "Linear 1 / remaining life" ]%string
   \/ getAfaRate afaModel year lifetimeYears = 0.02).
Proof.
  intro Hy. unfold getAfaRate.
  destruct ((afaModel =? "Linear 2%")%string
            || (afaModel =? "Linear 2% p.a.")%string) eqn:E1.
  { split; [destruct (JS.le year 50); discriminate|]. left.
    apply orb_prop in E1. destruct E1 as [E|E]; apply String.eqb_eq in E;
      subst; simpl; tauto. }
  destruct ((afaModel =? "Linear 3%")%string
            || (afaModel =? "Linear 3% p.a.")%string) eqn:E2.
  { split; [destruct (JS.le year 33); discriminate|]. left.
    apply orb_prop in E2. destruct E2 as [E|E]; apply String.eqb_eq in E;
      subst; simpl; tauto. }
  destruct (afaModel =? "Degressive 5% + Linear 2%")%string eqn:E3.
  { split; [destruct (JS.le year 6); discriminate|]. left.
    apply String.eqb_eq in E3. subst. simpl. tauto. }
  destruct (afaModel =? "Degressive 5% + Linear 3%")%string eqn:E4.
  { split; [destruct (JS.le year 6); discriminate|]. left.
    apply String.eqb_eq in E4. subst. simpl. tauto. }
  destruct ((afaModel =? "Linear 1/Restnutzungsdauer")%string
            || (afaModel =? "Linear 1 / remaining life")%string) eqn:E5.
  { split.
    - destruct (JS.le year lifetimeYears) eqn:L; [|discriminate].
      apply le_true in L.
      assert (0 < lifetimeYears) by lra.
      apply Qle_shift_div_l; [assumption|lra].
    - left. apply orb_prop in E5. destruct E5 as [E|E]; apply String.eqb_eq in E;
        subst; simpl; tauto. }
  split; [discriminate|right; reflexivity].
Qed.

Lemma getAfaRate_remaining_life (y L : Q) :
  getAfaRate "Linear 1/Restnutzungsdauer" y L = if JS.le y L then 1 / L else 0.0.
Proof. reflexivity. Qed.

Lemma getAfaRate_remaining_life' (y L : Q) :
  getAfaRate "Linear 1 / remaining life" y L = if JS.le y L then 1 / L else 0.0.
Proof. reflexivity. Qed.

Lemma getAfaRate_linear2 (y L : Q) :
  getAfaRate "Linear 2%" y L = if JS.le y 50 then 0.02 else 0.0.
Proof. reflexivity. Qed.

Lemma getAfaRate_linear3 (y L : Q) :
  getAfaRate "Linear 3%" y L = if JS.le y 33 then 0.03 else 0.0.
Proof. reflexivity. Qed.

Lemma getAfaRate_degressive2 (y L : Q) :
  getAfaRate "Degressive 5% + Linear 2%" y L = if JS.le y 6 then 0.05 else 0.02.
Proof. reflexivity. Qed.

Lemma getAfaRate_degressive3 (y L : Q) :
  getAfaRate "Degressive 5% + Linear 3%" y L = if JS.le y 6 then 0.05 else 0.03.
Proof. reflexivity. Qed.

Lemma inject_Z_nat_nonzero (L : nat) : (1 <= L)%nat -> ~ inject_Z (Z.of_nat L) == 0.
Proof.
  intros HL H.
  assert (E : Z.of_nat L = 0%Z) by (apply inject_Z_injective; exact H). lia.
Qed.

Lemma afa_total_remaining_life (model : string) (L k : nat) :
  model = "Linear 1/Restnutzungsdauer"%string
  \/ model = "Linear 1 / remaining life"%string ->
  (k <= L)%nat ->
  afa_total (fun y => getAfaRate model y (inject_Z (Z.of_nat L))) k
  == inject_Z (Z.of_nat k) / inject_Z (Z.of_nat L).
Proof.
  intros Hm Hk. induction k as [|k IH].
  - simpl. unfold Qdiv. ring.
  - assert (HL : ~ inject_Z (Z.of_nat L) == 0) by (apply inject_Z_nat_nonzero; lia).
    cbn [afa_total]. rewrite IH by lia.
    assert (R : getAfaRate model (inject_Z (Z.of_nat (S k))) (inject_Z (Z.of_nat L))
                = 1 / inject_Z (Z.of_nat L)).
    { assert (G : JS.le (inject_Z (Z.of_nat (S k))) (inject_Z (Z.of_nat L)) = true).
      { apply le_true. rewrite <- Zle_Qle. lia. }
      destruct Hm; subst model; rewrite ?getAfaRate_remaining_life,
        ?getAfaRate_remaining_life', G; reflexivity. }
    rewrite R. rewrite Nat2Z.inj_succ. unfold Z.succ. rewrite inject_Z_plus.
    change (inject_Z 1) with 1. field. exact HL.
Qed.

Lemma afa_total_step (f : Q -> Q) (n k : nat) (c : Q) :
  (forall j, (n < j)%nat -> f (inject_Z (Z.of_nat j)) == c) ->
  afa_total f (n + k) == afa_total f n + inject_Z (Z.of_nat k) * c.
Proof.
  intro H. induction k as [|k IH].
  - rewrite Nat.add_0_r. simpl. ring.
  - rewrite Nat.add_succ_r. cbn [afa_total]. rewrite IH.
    rewrite <- Nat.add_succ_r, H by lia.
    rewrite Nat2Z.inj_succ. unfold Z.succ. rewrite inject_Z_plus.
    change (inject_Z 1) with 1. ring.
Qed.

(** What the models write off in total.  The remaining-life model writes
    off the whole basis over a lifetime of [L] whole years, and nothing
    after.  "Linear 2%" writes off the whole basis in 50 years, "Linear 3%"
    99 % of it in 33 years, and both nothing after.  The two degressive
    models do not stop: with "Degressive 5% + Linear 2%" more than the
    whole basis is written off from year 42 on, with "Degressive 5% +
    Linear 3%" from year 30 on. *)
Theorem afa_written_off :
  (forall L : nat, (1 <= L)%nat ->
     afa_total (fun y => getAfaRate "Linear 1/Restnutzungsdauer" y
                           (inject_Z (Z.of_nat L))) L == 1 /\
     forall y, inject_Z (Z.of_nat L) < y ->
       getAfaRate "Linear 1/Restnutzungsdauer" y (inject_Z (Z.of_nat L)) == 0) /\
  (forall lifetime,
     afa_total (fun y => getAfaRate "Linear 2%" y lifetime) 50 == 1 /\
     afa_total (fun y => getAfaRate "Linear 3%" y lifetime) 33 == 0.99 /\
     (forall y, 50 < y -> getAfaRate "Linear 2%" y lifetime == 0) /\
     (forall y, 33 < y -> getAfaRate "Linear 3%" y lifetime == 0) /\
     (forall n, (42 <= n)%nat ->
        1 < afa_total (fun y => getAfaRate "Degressive 5% + Linear 2%" y lifetime) n) /\
     (forall n, (30 <= n)%nat ->
        1 < afa_total (fun y => getAfaRate "Degressive 5% + Linear 3%" y lifetime) n)).
Proof.
  split.
  - intros L HL. split.
    + rewrite (afa_total_remaining_life _ L L) by (auto; lia).
      field. apply inject_Z_nat_nonzero. exact HL.
    + intros y Hy. rewrite getAfaRate_remaining_life.
      apply le_false in Hy. rewrite Hy. reflexivity.
  - intro lifetime.
    split; [vm_compute; reflexivity|].
    split; [vm_compute; reflexivity|].
    split; [intros y Hy; rewrite getAfaRate_linear2; apply le_false in Hy;
            rewrite Hy; reflexivity|].
    split; [intros y Hy; rewrite getAfaRate_linear3; apply le_false in Hy;
            rewrite Hy; reflexivity|].
    split.
    + intros n Hn. replace n with (41 + (n - 41))%nat by lia.
      rewrite (afa_total_step _ 41 (n - 41) 0.02).
      * assert (E : afa_total
                      (fun y => getAfaRate "Degressive 5% + Linear 2%" y lifetime) 41
                    == 1) by (vm_compute; reflexivity).
        rewrite E.
        assert (1 <= inject_Z (Z.of_nat (n - 41))).
        { change 1 with (inject_Z 1). rewrite <- Zle_Qle. lia. }
        lra.
      * intros j Hj. rewrite getAfaRate_degressive2.
        assert (G : JS.le (inject_Z (Z.of_nat j)) 6 = false).
        { apply le_false. change 6 with (inject_Z 6). rewrite <- Zlt_Qlt. lia. }
        rewrite G. reflexivity.
    + intros n Hn. replace n with (29 + (n - 29))%nat by lia.
      rewrite (afa_total_step _ 29 (n - 29) 0.03).
      * assert (E : afa_total
                      (fun y => getAfaRate "Degressive 5% + Linear 3%" y lifetime) 29
                    == 0.99) by (vm_compute; reflexivity).
        rewrite E.
        assert (1 <= inject_Z (Z.of_nat (n - 29))).
        { change 1 with (inject_Z 1). rewrite <- Zle_Qle. lia. }
        lra.
      * intros j Hj. rewrite getAfaRate_degressive3.
        assert (G : JS.le (inject_Z (Z.of_nat j)) 6 = false).
        { apply le_false. change 6 with (inject_Z 6). rewrite <- Zlt_Qlt. lia. }
        rewrite G. reflexivity.
Qed.


Lemma rent_of_year_witness :
  exists y,
    nth_error (years pow_example (unpack 2026 sold_land_inputs)) 1 = Some y /\
    Year.netRent y == monthlyRent (unpack 2026 sold_land_inputs) * 12.
Proof.
  eexists. split; [vm_compute; reflexivity|].
  match goal with
  | |- Year.netRent ?y == _ =>
      destruct (rent_of_year pow_example (unpack 2026 sold_land_inputs) y)
        as [_ [_ H]]
  end.
  - vm_compute. right. left. reflexivity.
  - apply H; vm_compute; reflexivity.
Defined.

Lemma afa_rate_nonneg_witness :
  0 <= getAfaRate "Linear 1/Restnutzungsdauer" 3 40 /\
  getAfaRate "linear" 3 40 = 0.02.
Proof.
  destruct (afa_rate_nonneg "Linear 1/Restnutzungsdauer" 3 40) as [H _].
  - apply Qle_bool_iff. vm_compute. reflexivity.
  - split; [exact H|].
    destruct (afa_rate_nonneg "linear" 3 40) as [_ [K|K]].
    + apply Qle_bool_iff. vm_compute. reflexivity.
    + exfalso. simpl in K.
      repeat (destruct K as [K|K]; [discriminate K|]). exact K.
    + exact K.
Defined.

Lemma afa_written_off_witness :
  afa_total (fun y => getAfaRate "Linear 1/Restnutzungsdauer" y
                        (inject_Z (Z.of_nat 40))) 40 == 1 /\
  getAfaRate "Linear 1/Restnutzungsdauer" 41 (inject_Z (Z.of_nat 40)) == 0 /\
  getAfaRate "Linear 2%" 51 40 == 0 /\
  1 < afa_total (fun y => getAfaRate "Degressive 5% + Linear 2%" y 40) 42.
Proof.
  destruct afa_written_off as [A B].
  destruct (A 40%nat ltac:(lia)) as [A1 A2].
  destruct (B 40) as [_ [_ [B3 [_ [B5 _]]]]].
  split; [exact A1|].
  split; [apply A2; reflexivity|].
  split; [apply B3; reflexivity|].
  apply B5. lia.
Defined.

(** [x || 0] is [x]: the fallback only replaces a 0 by 0. *)
Lemma or_zero (x : Q) : JS.or x 0 == x.
Proof.
  unfold JS.or. destruct (Qeq_bool x 0) eqn:E; [|reflexivity].
  apply Qeq_bool_iff in E. symmetry. exact E.
Qed.

(** The acquisition constants.  The side-cost rate is the sum of the four
    rates.  With a payout factor [1 - discountRate] away from 0, what the
    loan pays out is the financing need, and the disagio is [discountRate]
    of the loan.  The basis of the capital gain is the depreciation basis
    plus the land, and with a positive purchase price the depreciation
    basis is the building with its share of the side costs, plus the
    fitting-up. *)
Theorem acquisition_identities (p : Params) :
  sideCostRate p == grEStRate p + maklerRate p + grundbuchRate p + notaryRate p /\
  totalInvestment p
    == purchasePrice p * (1 + sideCostRate p) + companyCost p + fittingUp p
       + initialRepairs p /\
  (1e-9 < Qabs (1 - discountRate p) ->
     loanAmount1 p * (1 - discountRate p) == financingNeed p /\
     disagio p == loanAmount1 p * discountRate p) /\
  purchaseCostBasis p == afaBasis p + landValue p /\
  (0 < purchasePrice p ->
     afaBasis p == buildingValue p * (1 + sideCostRate p) + fittingUp p).
Proof.
  assert (S : sideCostRate p
              == grEStRate p + maklerRate p + grundbuchRate p + notaryRate p).
  { unfold sideCostRate. rewrite !or_zero. reflexivity. }
  split; [exact S|]. split; [|split; [|split]].
  - unfold totalInvestment, sideCostsTotal, sideCostsVariable.
    rewrite !or_zero. ring.
  - intro H.
    assert (P : payoutFactor p == 1 - discountRate p)
      by (unfold payoutFactor; rewrite or_zero; reflexivity).
    assert (N : ~ 1 - discountRate p == 0).
    { intro E. rewrite E in H. vm_compute in H. discriminate. }
    assert (L : loanAmount1 p == financingNeed p / (1 - discountRate p)).
    { unfold loanAmount1, JS.Math_abs.
      assert (G : JS.gt (Qabs (payoutFactor p)) 1e-9 = true)
        by (apply gt_true; rewrite P; exact H).
      rewrite G, P. reflexivity. }
    split.
    + rewrite L. field. exact N.
    + unfold disagio. rewrite L. field. exact N.
  - unfold purchaseCostBasis, afaBasis, purchasePrice. ring.
  - intro H. unfold afaBasis, buildingShare, sideCostsVariable.
    rewrite (proj2 (gt_true _ _) H), or_zero. field.
    intro E. rewrite E in H. discriminate.
Qed.

Lemma acquisition_identities_witness :
  loanAmount1 (unpack 2026
    (Raw.obj [ (Key.buildingValue, 950); (Key.landValue, 50);
               (Key.equity, 100); (Key.discountRate, 0.1) ] []))
  * (1 - 0.1) == 900 /\
  afaBasis (unpack 2026
    (Raw.obj [ (Key.buildingValue, 950); (Key.landValue, 50);
               (Key.equity, 100); (Key.discountRate, 0.1) ] [])) == 950.
Proof.
  destruct (acquisition_identities (unpack 2026
    (Raw.obj [ (Key.buildingValue, 950); (Key.landValue, 50);
               (Key.equity, 100); (Key.discountRate, 0.1) ] [])))
    as [_ [_ [A [_ B]]]].
  split.
  - destruct A as [A _]; [vm_compute; reflexivity|].
    rewrite A. vm_compute. reflexivity.
  - rewrite B by (vm_compute; reflexivity). vm_compute. reflexivity.
Defined.

Section Kpis.

Variable pow_frac : Q -> Q -> Q.

(** The KPIs are read off the last year record: the total profit is its
    equity position, and the end values are its property value, debt and
    cumulative cash flow.  With a positive equity the equity multiple is 1
    plus the total return on equity, and the return times the equity is
    the profit. *)
Theorem kpis_from_last_year (now : Q) (i : Raw.t) :
  exists r last,
    simulateScenario pow_frac now i = Some r /\
    nth_error (Result.years r) (List.length (Result.years r) - 1) = Some last /\
    Kpis.totalProfit (Result.kpis r) = Year.equityPosition last /\
    Kpis.equityPositionEnd (Result.kpis r) = Year.equityPosition last /\
    Kpis.propertyValueEnd (Result.kpis r) = Year.propertyValue last /\
    Kpis.remainingDebtEnd (Result.kpis r) = Year.remainingDebt last /\
    Kpis.cumulativeCFEnd (Result.kpis r) = Year.cumulativeCF last /\
    Kpis.altProfit (Result.kpis r)
      = Kpis.altEndValue (Result.kpis r) - equity (unpack now i) /\
    (0 < equity (unpack now i) ->
       Kpis.equityMultiple (Result.kpis r) == 1 + Kpis.roeTotal (Result.kpis r) /\
       Kpis.roeTotal (Result.kpis r) * equity (unpack now i)
         == Kpis.totalProfit (Result.kpis r)).
Proof.
  unfold simulateScenario.
  destruct (simulate_some pow_frac (unpack now i)) as [last [Hl Hr]].
  eexists. exists last. split; [exact Hr|].
  cbn [Result.years Result.kpis]. split; [exact Hl|].
  unfold kpis_of. cbn. repeat split.
  - apply gt_true in H. rewrite H. field.
    intro E. apply gt_true in H. rewrite E in H. discriminate.
  - apply gt_true in H. rewrite H. field.
    intro E. apply gt_true in H. rewrite E in H. discriminate.
Qed.

End Kpis.

Lemma kpis_from_last_year_witness :
  exists r,
    simulateScenario pow_example 2026 sale_year_zero_inputs = Some r /\
    Kpis.equityMultiple (Result.kpis r) == 1 + Kpis.roeTotal (Result.kpis r).
Proof.
  destruct (kpis_from_last_year pow_example 2026 sale_year_zero_inputs)
    as [r [last [Hr [_ [_ [_ [_ [_ [_ [_ H]]]]]]]]]].
  exists r. split; [exact Hr|]. apply H. vm_compute. reflexivity.
Defined.

Section Annuity.

Variable pow_frac : Q -> Q -> Q.

Lemma annuity_factor_pos (q : Q) (m : nat) :
  0 < q -> 0 < annuity_factor q (S m).
Proof.
  intro Hq. simpl. pose proof (annuity_factor_nonneg q m Hq).
  apply Qlt_shift_div_l; [exact Hq|]. lra.
Qed.

(** The annuity over a whole number [n >= 1] of years, at a rate that is
    0 or at least 1e-9: [n] payments of it are worth [pv] today; on a
    positive [pv] it is more than the interest of the first year, so every
    payment repays principal, and no more than [pv] with that interest. *)
Theorem pmt_annuity (rate nper pv : Q) (n : nat) :
  (1 <= n)%nat -> nper == inject_Z (Z.of_nat n) ->
  rate == 0 \/ 1e-9 <= rate ->
  pmt pow_frac rate nper pv * annuity_factor (1 + rate) n == pv /\
  (0 < pv ->
     pv * rate < pmt pow_frac rate nper pv /\
     pmt pow_frac rate nper pv <= pv * (1 + rate)).
Proof.
  intros Hn Hnper Hrate.
  assert (Hr : 0 <= rate).
  { destruct Hrate as [H|H]; [rewrite H; discriminate|].
    apply Qle_trans with 1e-9; [discriminate|exact H]. }
  assert (Hq : 0 < 1 + rate) by lra.
  assert (Hpos : 0 < nper).
  { rewrite Hnper. change 0 with (inject_Z 0). rewrite <- Zlt_Qlt. lia. }
  assert (Hn0 : ~ inject_Z (Z.of_nat n) == 0) by (apply inject_Z_nat_nonzero; exact Hn).
  assert (Hfac : 0 < annuity_factor (1 + rate) n).
  { destruct n as [|k]; [lia|]. apply annuity_factor_pos. exact Hq. }
  assert (W : pmt pow_frac rate nper pv * annuity_factor (1 + rate) n == pv).
  { destruct Hrate as [Hz|Hnz].
    - rewrite pmt_zero_rate by (rewrite Hz; reflexivity).
      rewrite (proj2 (gt_true _ _) Hpos).
      rewrite annuity_factor_one by (rewrite Hz; reflexivity).
      rewrite Hnper. field. exact Hn0.
    - assert (Habs : 1e-9 <= Qabs rate).
      { rewrite Qabs_pos by exact Hr. exact Hnz. }
      assert (Hb : ~ 1 + rate == 0).
      { intro E. rewrite E in Hq. discriminate. }
      pose proof (annuity_factor_closed rate n Hq) as C.
      assert (Hden : ~ 1 - Qpower (1 + rate) (- Z.of_nat n) == 0).
      { rewrite <- C. intro H.
        assert (0 < rate) by (apply Qlt_le_trans with 1e-9; [reflexivity|exact Hnz]).
        nra. }
      rewrite (pmt_regular pow_frac rate nper pv (Z.of_nat n) Habs Hnper Hb Hden).
      transitivity (pv * (annuity_factor (1 + rate) n * rate)
                    / (1 - Qpower (1 + rate) (- Z.of_nat n))).
      + field. exact Hden.
      + rewrite C. field. exact Hden. }
  split; [exact W|]. intro Hpv.
  set (A := pmt pow_frac rate nper pv) in *.
  assert (HA : 0 < A).
  { apply Qnot_le_lt. intro HA.
    assert (A * annuity_factor (1 + rate) n <= 0) by nra. lra. }
  destruct n as [|k]; [lia|].
  pose proof (annuity_factor_succ (1 + rate) k Hq) as S1.
  pose proof (annuity_factor_nonneg (1 + rate) k Hq) as N0.
  assert (E : pv * (1 + rate) == A * (1 + annuity_factor (1 + rate) k)).
  { rewrite <- W, <- S1. ring. }
  split.
  - (* interest = pv*rate = pv*(1+rate) - pv *)
    assert (F : annuity_factor (1 + rate) (S k) * rate < 1).
    { rewrite (annuity_factor_closed rate (S k) Hq).
      assert (0 < Qpower (1 + rate) (- Z.of_nat (S k)))
        by (apply Qpower_0_lt; exact Hq).
      lra. }
    assert (G : pv * rate == A * (annuity_factor (1 + rate) (S k) * rate)).
    { rewrite <- W. ring. }
    rewrite G. nra.
  - rewrite E. nra.
Qed.

End Annuity.

Lemma pmt_annuity_witness :
  pmt pow_example 0.1 2 2100 * annuity_factor (1 + 0.1) 2 == 2100 /\
  2100 * 0.1 < pmt pow_example 0.1 2 2100 /\
  pmt pow_example 0.1 2 2100 <= 2100 * (1 + 0.1).
Proof.
  destruct (pmt_annuity pow_example 0.1 2 2100 2) as [A B].
  - lia.
  - reflexivity.
  - right. apply Qle_bool_iff. vm_compute. reflexivity.
  - split; [exact A|]. apply B. reflexivity.
Defined.

Section Holding.

Variable p : Params.
Hypothesis holding : saleMode p <> "sell"%string.

Lemma sale_of_holding (year : Q) (sh : bool) (pv d : Q) :
  sale_of p year sh pv d = None.
Proof.
  unfold sale_of, sale_fires.
  destruct (saleMode p =? "sell")%string eqn:E.
  - apply String.eqb_eq in E. contradiction.
  - rewrite andb_false_r. reflexivity.
Qed.

End Holding.

(* ------------------------------------------------------------------ *)
(** ** The scenario variants and the postcode suggestions *)

Lemma Qpower_le_base (a b : Q) (k : Z) :
  0 <= a -> a <= b -> (0 <= k)%Z -> 0 <= a ^ k /\ a ^ k <= b ^ k.
Proof.
  intros Ha Hab Hk. revert k Hk. apply natlike_ind.
  - simpl. split; [discriminate|apply Qle_refl].
  - intros k Hk [IH0 IH]. unfold Z.succ. rewrite !Qpower_succ_r by exact Hk.
    split; [apply Qmult_le_0_compat; assumption|].
    apply Qmult_le_compat_nonneg; split; assumption.
Qed.

Lemma Qmult_le_compat_l' (x y z : Q) : x <= y -> 0 <= z -> z * x <= z * y.
Proof.
  intros H Hz. rewrite (Qmult_comm z x), (Qmult_comm z y).
  apply Qmult_le_compat_r; assumption.
Qed.

(** Rents compare factor by factor. *)
Lemma net_rent_mono (r r' a a' w w' : Q) :
  0 <= r -> r <= r' -> 0 <= a -> a <= a' -> w <= w' -> 0 <= w' ->
  r * 12 * a * w <= r' * 12 * a' * w'.
Proof.
  intros Hr Hrr Ha Haa Hww Hw.
  assert (X0 : 0 <= r * 12 * a) by (apply Qmult_le_0_compat; [lra|exact Ha]).
  assert (XY : r * 12 * a <= r' * 12 * a').
  { apply Qmult_le_compat_nonneg; split; try assumption; lra. }
  apply Qle_trans with (r * 12 * a * w').
  - apply Qmult_le_compat_l'; assumption.
  - apply Qmult_le_compat_r; assumption.
Qed.

(** The variants of a scenario.  A variant other than ["opt"] and
    ["pes"] is the base itself.  The two variants keep every property but
    [monthlyRent], [rentGrowth] and [vacancyRate]; the optimistic vacancy
    and the pessimistic growth are never negative; and for a base with
    non-negative rent, growth and vacancy the three values are ordered
    pessimistic, base, optimistic (the vacancy the other way round). *)
Theorem buildScenarioInputs_variants (baseInputs : Raw.t) (rent g v : Q) :
  Raw.monthlyRent baseInputs = Some rent ->
  Raw.rentGrowth baseInputs = Some g ->
  Raw.vacancyRate baseInputs = Some v ->
  (forall variant, variant <> "opt"%string -> variant <> "pes"%string ->
     buildScenarioInputs baseInputs variant = Some baseInputs) /\
  exists opt pes ro go vo rp gp vp,
    buildScenarioInputs baseInputs "opt" = Some opt /\
    buildScenarioInputs baseInputs "pes" = Some pes /\
    (forall k, k <> Key.monthlyRent -> k <> Key.rentGrowth -> k <> Key.vacancyRate ->
       Raw.get_num k opt = Raw.get_num k baseInputs /\
       Raw.get_num k pes = Raw.get_num k baseInputs) /\
    (forall k, Raw.get_str k opt = Raw.get_str k baseInputs /\
               Raw.get_str k pes = Raw.get_str k baseInputs) /\
    Raw.monthlyRent opt = Some ro /\ Raw.rentGrowth opt = Some go /\
    Raw.vacancyRate opt = Some vo /\
    Raw.monthlyRent pes = Some rp /\ Raw.rentGrowth pes = Some gp /\
    Raw.vacancyRate pes = Some vp /\
    ro == rent * 1.05 /\ rp == rent * 0.95 /\ go == g + 0.005 /\ vp == v + 0.02 /\
    0 <= vo /\ 0 <= gp /\
    (0 <= rent -> rp <= rent /\ rent <= ro) /\
    (0 <= g -> gp <= g /\ g <= go) /\
    (0 <= v -> vo <= v /\ v <= vp).
Proof.
  intros Hr Hg Hv. split.
  - intros variant H1 H2. unfold buildScenarioInputs.
    apply String.eqb_neq in H1, H2. rewrite H1, H2. reflexivity.
  - unfold buildScenarioInputs. cbn [String.eqb]. rewrite Hr, Hg, Hv.
    change ("opt" =? "opt")%string with true.
    change ("pes" =? "opt")%string with false.
    change ("pes" =? "pes")%string with true. cbv iota.
    do 8 eexists.
    split; [reflexivity|]. split; [reflexivity|].
    split; [intros k K1 K2 K3; destruct k; try congruence; split; reflexivity|].
    split; [intros k; destruct k; split; reflexivity|].
    do 6 (split; [reflexivity|]).
    do 4 (split; [reflexivity|]).
    split; [apply Math_max_ge_l|]. split; [apply Math_max_ge_l|].
    split; [intro H; lra|].
    split.
    + intro H. split; [|lra].
      unfold JS.Math_max. destruct (JS.lt 0 (g - 0.005)); lra.
    + intro H. split; [|lra].
      unfold JS.Math_max. destruct (JS.lt 0 (v - 0.02)); lra.
Qed.

Lemma buildScenarioInputs_variants_witness :
  exists opt pes,
    buildScenarioInputs let_flat_inputs "opt" = Some opt /\
    buildScenarioInputs let_flat_inputs "pes" = Some pes /\
    buildScenarioInputs let_flat_inputs "base" = Some let_flat_inputs /\
    Raw.get_num Key.investmentHorizonYears opt = Some 2 /\
    Raw.get_num Key.investmentHorizonYears pes = Some 2.
Proof.
  destruct (buildScenarioInputs_variants let_flat_inputs 1000 0.01 0.05)
    as [B [opt [pes [ro [go [vo [rp [gp [vp [O [P [K _]]]]]]]]]]]];
    try reflexivity.
  exists opt, pes. split; [exact O|]. split; [exact P|].
  split; [apply B; discriminate|].
  destruct (K Key.investmentHorizonYears) as [K1 K2]; try discriminate.
  rewrite K1, K2. split; reflexivity.
Defined.

Section Scenarios.

Variable pow_frac : Q -> Q -> Q.

(** The three scenarios of a recalculation.  For a base with a
    non-negative rent, a non-negative rent growth and a vacancy between 0
    and 1, the three simulations return, with the same number of year
    records, and in every year the net rent of the pessimistic scenario is
    at most that of the base, which is at most that of the optimistic one. *)
Theorem scenarios_order_net_rent (now : Q) (baseInputs : Raw.t) (rent g v : Q) :
  Raw.monthlyRent baseInputs = Some rent ->
  Raw.rentGrowth baseInputs = Some g ->
  Raw.vacancyRate baseInputs = Some v ->
  0 <= rent -> 0 <= g -> 0 <= v -> v <= 1 ->
  exists b o ps,
    recalcAllScenarios pow_frac now baseInputs = Some (b, o, ps) /\
    List.length (Result.years o) = List.length (Result.years b) /\
    List.length (Result.years ps) = List.length (Result.years b) /\
    forall k yb yo yp,
      nth_error (Result.years b) k = Some yb ->
      nth_error (Result.years o) k = Some yo ->
      nth_error (Result.years ps) k = Some yp ->
      Year.netRent yp <= Year.netRent yb /\ Year.netRent yb <= Year.netRent yo.
Proof.
  intros Hr Hg Hv R0 G0 V0 V1.
  unfold recalcAllScenarios, buildScenarioInputs. rewrite Hr, Hg, Hv.
  change ("opt" =? "opt")%string with true.
  change ("pes" =? "opt")%string with false.
  change ("pes" =? "pes")%string with true. cbv iota.
  set (oi := Raw.set_num Key.vacancyRate _ (Raw.set_num Key.rentGrowth _
               (Raw.set_num Key.monthlyRent (rent * 1.05) baseInputs))).
  set (pi := Raw.set_num Key.vacancyRate _ (Raw.set_num Key.rentGrowth _
               (Raw.set_num Key.monthlyRent (rent * 0.95) baseInputs))).
  destruct (simulateScenario_some pow_frac now baseInputs) as [b [Hb [Yb _]]].
  destruct (simulateScenario_some pow_frac now oi) as [o [Ho [Yo _]]].
  destruct (simulateScenario_some pow_frac now pi) as [ps [Hp [Yp _]]].
  rewrite Hb, Ho, Hp. exists b, o, ps. split; [reflexivity|].
  rewrite Yb, Yo, Yp, !years_length.
  split; [reflexivity|]. split; [reflexivity|].
  intros k yb yo yp Kb Ko Kp.
  rewrite (netRent_nth pow_frac _ k yb Kb), (netRent_nth pow_frac _ k yo Ko),
    (netRent_nth pow_frac _ k yp Kp).
  assert (Mb : monthlyRent (unpack now baseInputs) = rent)
    by (unfold unpack; cbn; rewrite Hr; reflexivity).
  assert (Gb : rentGrowth (unpack now baseInputs) = g)
    by (unfold unpack; cbn; rewrite Hg; reflexivity).
  assert (Vb : vacancyRate (unpack now baseInputs) = v)
    by (unfold unpack; cbn; rewrite Hv; reflexivity).
  rewrite Mb, Gb, Vb.
  change (monthlyRent (unpack now oi)) with (rent * 1.05).
  change (rentGrowth (unpack now oi)) with (g + 0.005).
  change (vacancyRate (unpack now oi)) with (JS.Math_max 0 (v - 0.02)).
  change (monthlyRent (unpack now pi)) with (rent * 0.95).
  change (rentGrowth (unpack now pi)) with (JS.Math_max 0 (g - 0.005)).
  change (vacancyRate (unpack now pi)) with (v + 0.02).
  assert (Gp : 0 <= JS.Math_max 0 (g - 0.005) /\ JS.Math_max 0 (g - 0.005) <= g).
  { split; [apply Math_max_ge_l|].
    unfold JS.Math_max. destruct (JS.lt 0 (g - 0.005)); lra. }
  assert (Vo : 0 <= JS.Math_max 0 (v - 0.02) /\ JS.Math_max 0 (v - 0.02) <= v).
  { split; [apply Math_max_ge_l|].
    unfold JS.Math_max. destruct (JS.lt 0 (v - 0.02)); lra. }
  split.
  - destruct (Qpower_le_base (1 + JS.Math_max 0 (g - 0.005)) (1 + g) (Z.of_nat k))
      as [P0 P1]; [lra|lra|lia|].
    apply net_rent_mono; try assumption; lra.
  - destruct (Qpower_le_base (1 + g) (1 + (g + 0.005)) (Z.of_nat k))
      as [P0 P1]; [lra|lra|lia|].
    apply net_rent_mono; try assumption; lra.
Qed.

End Scenarios.

Lemma scenarios_order_net_rent_witness :
  exists b o ps,
    recalcAllScenarios pow_example 2026 let_flat_inputs = Some (b, o, ps) /\
    List.length (Result.years o) = List.length (Result.years b) /\
    List.length (Result.years ps) = List.length (Result.years b) /\
    forall k yb yo yp,
      nth_error (Result.years b) k = Some yb ->
      nth_error (Result.years o) k = Some yo ->
      nth_error (Result.years ps) k = Some yp ->
      Year.netRent yp <= Year.netRent yb /\ Year.netRent yb <= Year.netRent yo.
Proof.
  apply (scenarios_order_net_rent pow_example 2026 let_flat_inputs 1000 0.01 0.05);
    try reflexivity; apply Qle_bool_iff; vm_compute; reflexivity.
Defined.

(** The suggestions for a postcode.  Without a selected record there are
    none.  With one, the suggested rent growth is between 0.004 and 0.018,
    whatever the record holds, so the floor at 0 never applies; the
    suggested vacancy is the record's percentage over 100; and without a
    positive floor area there is no suggested rent, and the price badge is
    "neutral" with no comment. *)
Theorem socio_suggestions (r : SocioRecord) (sqm buildingValue landValue : Q) :
  buildSocioSuggestions None sqm buildingValue landValue = None /\
  exists s,
    buildSocioSuggestions (Some r) sqm buildingValue landValue = Some s /\
    Suggest.rentGrowth s = suggested_growth r /\
    0.004 <= Suggest.rentGrowth s /\ Suggest.rentGrowth s <= 0.018 /\
    Suggest.suggestedVacancyRate s = vacancy_rate_pct r / 100 /\
    Suggest.totalPrice s = buildingValue + landValue /\
    (0 < sqm ->
       Suggest.suggestedMonthlyRent s = Some (avg_rent_eur_m2 r * sqm) /\
       Suggest.benchmarkTotalPrice s = Some (avg_purchase_price_eur_m2 r * sqm)) /\
    (sqm <= 0 ->
       Suggest.suggestedMonthlyRent s = None /\
       Suggest.benchmarkTotalPrice s = None /\
       Suggest.priceBadge s = "neutral"%string /\
       Suggest.priceComment s = ""%string).
Proof.
  split; [reflexivity|].
  assert (Hrange : 0.004 <= suggested_growth r /\ suggested_growth r <= 0.018).
  { unfold suggested_growth.
    destruct (JS.gt (population_growth_pct r) 1.5);
      [|destruct (JS.lt (population_growth_pct r) 0)];
      destruct (JS.lt (vacancy_rate_pct r) 2);
      destruct (JS.gt (new_construction_units_per_1000_residents r) 5);
      split; apply Qle_bool_iff; vm_compute; reflexivity. }
  assert (Hclamp : JS.lt (suggested_growth r) 0 = false).
  { apply lt_false. apply Qle_trans with 0.004; [discriminate|tauto]. }
  unfold buildSocioSuggestions. rewrite Hclamp.
  destruct (JS.gt sqm 0) eqn:S.
  - match goal with
    | |- context [let '(c, b) := ?e in _] => destruct e as [c b]
    end.
    eexists. split; [reflexivity|].
    cbn [Suggest.rentGrowth Suggest.suggestedVacancyRate Suggest.totalPrice
         Suggest.suggestedMonthlyRent Suggest.benchmarkTotalPrice
         Suggest.priceBadge Suggest.priceComment].
    split; [reflexivity|]. split; [tauto|]. split; [tauto|].
    split; [reflexivity|]. split; [reflexivity|]. split.
    + intros _. split; reflexivity.
    + intro H. apply gt_false in H. congruence.
  - eexists. split; [reflexivity|].
    cbn [Suggest.rentGrowth Suggest.suggestedVacancyRate Suggest.totalPrice
         Suggest.suggestedMonthlyRent Suggest.benchmarkTotalPrice
         Suggest.priceBadge Suggest.priceComment].
    split; [reflexivity|]. split; [tauto|]. split; [tauto|].
    split; [reflexivity|]. split; [reflexivity|]. split.
    + intro H. apply gt_true in H. congruence.
    + intros _. repeat split; reflexivity.
Qed.

(** The price badge.  With a positive floor area, a positive benchmark
    price per square metre and a positive price, the badge is "good" when
    the price is at most 89 % of the benchmark total, "bad" when it is at
    least 111 % of it, and "neutral" from 91 % to 109 % of it.  (The
    thresholds are 90 % and 110 %; within a hundredth of them the
    rounding of the division decides, which the rationals do not
    model.) *)
Theorem socio_price_badge (r : SocioRecord) (sqm buildingValue landValue : Q) :
  0 < sqm -> 0 < avg_purchase_price_eur_m2 r -> 0 < buildingValue + landValue ->
  exists s,
    buildSocioSuggestions (Some r) sqm buildingValue landValue = Some s /\
    (buildingValue + landValue <= 0.89 * (avg_purchase_price_eur_m2 r * sqm) ->
       Suggest.priceBadge s = "good"%string /\
       Suggest.priceComment s = "Below benchmark price level."%string) /\
    (1.11 * (avg_purchase_price_eur_m2 r * sqm) <= buildingValue + landValue ->
       Suggest.priceBadge s = "bad"%string /\
       Suggest.priceComment s = "Above benchmark price level."%string) /\
    (0.91 * (avg_purchase_price_eur_m2 r * sqm) <= buildingValue + landValue ->
     buildingValue + landValue <= 1.09 * (avg_purchase_price_eur_m2 r * sqm) ->
       Suggest.priceBadge s = "neutral"%string /\
       Suggest.priceComment s = "Around benchmark price level."%string).
Proof.
  intros Hs Hp Ht.
  set (b := avg_purchase_price_eur_m2 r * sqm).
  set (t := buildingValue + landValue) in *.
  assert (Hb : 0 < b) by (apply Qmult_lt_0_compat; assumption).
  assert (Hb0 : ~ b == 0) by (intro E; rewrite E in Hb; discriminate).
  assert (Hd : (t - b) / b * b == t - b) by (field; exact Hb0).
  assert (Lo : JS.lt ((t - b) / b) (- 0.1) = true <-> t < 0.9 * b).
  { rewrite lt_true. rewrite <- (Qmult_lt_r _ _ b Hb), Hd. split; intro; lra. }
  assert (Mid : JS.le (JS.Math_abs ((t - b) / b)) 0.1 = true
                <-> 0.9 * b <= t /\ t <= 1.1 * b).
  { rewrite le_true. unfold JS.Math_abs. rewrite Qabs_Qle_condition.
    rewrite <- (Qmult_le_r _ _ b Hb), <- (Qmult_le_r ((t - b) / b) _ b Hb), Hd.
    split; intros [A B]; split; lra. }
  unfold buildSocioSuggestions. fold t b.
  rewrite (proj2 (gt_true _ _) Hs).
  assert (Tr : negb (Qeq_bool b 0) = true).
  { apply negb_true_iff. destruct (Qeq_bool b 0) eqn:E; [|reflexivity].
    apply Qeq_bool_iff in E. contradiction. }
  rewrite Tr, (proj2 (gt_true _ _) Ht). cbn [andb].
  destruct (JS.lt ((t - b) / b) (- 0.1)) eqn:L;
    [|destruct (JS.le (JS.Math_abs ((t - b) / b)) 0.1) eqn:M];
    (eexists; split; [reflexivity|]); cbn [Suggest.priceBadge Suggest.priceComment].
  - pose proof (proj1 Lo eq_refl).
    split; [intros _; split; reflexivity|].
    split; intros; exfalso; lra.
  - pose proof (proj1 Mid eq_refl) as [A B].
    split; [intro; exfalso; lra|].
    split; [intro; exfalso; lra|].
    intros _ _. split; reflexivity.
  - assert (NL : ~ t < 0.9 * b).
    { intro H. apply Lo in H. congruence. }
    assert (NM : ~ (0.9 * b <= t /\ t <= 1.1 * b)).
    { intro H. apply Mid in H. congruence. }
    split; [intro; exfalso; apply NL; lra|].
    split; [intros _; split; reflexivity|].
    intros; exfalso. apply NM. split; lra.
Qed.

Lemma socio_suggestions_witness :
  exists s,
    buildSocioSuggestions (Some example_postcode) 80 200000 80000 = Some s /\
    0.004 <= Suggest.rentGrowth s /\ Suggest.rentGrowth s <= 0.018 /\
    Suggest.suggestedMonthlyRent s = Some (12 * 80) /\
    exists s0,
      buildSocioSuggestions (Some example_postcode) 0 200000 80000 = Some s0 /\
      Suggest.suggestedMonthlyRent s0 = None /\
      Suggest.priceBadge s0 = "neutral"%string.
Proof.
  destruct (socio_suggestions example_postcode 80 200000 80000)
    as [_ [s [Hs [_ [A [B [_ [_ [P _]]]]]]]]].
  destruct (socio_suggestions example_postcode 0 200000 80000)
    as [_ [s0 [Hs0 [_ [_ [_ [_ [_ [_ N]]]]]]]]].
  exists s. split; [exact Hs|]. split; [exact A|]. split; [exact B|].
  split; [apply P; reflexivity|].
  exists s0. split; [exact Hs0|].
  destruct N as [N1 [_ [N3 _]]]; [discriminate|]. split; assumption.
Defined.

Lemma socio_price_badge_witness :
  (exists s,
     buildSocioSuggestions (Some example_postcode) 80 200000 80000 = Some s /\
     Suggest.priceBadge s = "bad"%string) /\
  (exists s,
     buildSocioSuggestions (Some example_postcode) 80 150000 50000 = Some s /\
     Suggest.priceBadge s = "good"%string) /\
  (exists s,
     buildSocioSuggestions (Some example_postcode) 80 180000 60000 = Some s /\
     Suggest.priceBadge s = "neutral"%string).
Proof.
  split; [|split].
  - destruct (socio_price_badge example_postcode 80 200000 80000)
      as [s [Hs [_ [B _]]]]; try reflexivity.
    exists s. split; [exact Hs|]. apply B.
    apply Qle_bool_iff. vm_compute. reflexivity.
  - destruct (socio_price_badge example_postcode 80 150000 50000)
      as [s [Hs [G _]]]; try reflexivity.
    exists s. split; [exact Hs|]. apply G.
    apply Qle_bool_iff. vm_compute. reflexivity.
  - destruct (socio_price_badge example_postcode 80 180000 60000)
      as [s [Hs [_ [_ N]]]]; try reflexivity.
    exists s. split; [exact Hs|].
    apply N; apply Qle_bool_iff; vm_compute; reflexivity.
Defined.

Lemma years_in_order_witness :
  List.length (years pow_example (unpack 2026 two_year_loan_inputs)) = 3%nat /\
  exists y,
    nth_error (years pow_example (unpack 2026 two_year_loan_inputs)) 2 = Some y /\
    Year.yearIndex y = 3%Z /\
    Year.calendarYear y == 2027.
Proof.
  destruct (years_in_order pow_example (unpack 2026 two_year_loan_inputs))
    as [L [_ H]].
  split; [rewrite L; vm_compute; reflexivity|].
  eexists. split; [vm_compute; reflexivity|].
  match goal with
  | |- Year.yearIndex ?y = _ /\ _ =>
      destruct (H 2%nat y) as [A B]; [vm_compute; reflexivity|]
  end.
  split; [exact A|]. rewrite B. vm_compute. reflexivity.
Defined.

Section NoLoan.

Variable pow_frac : Q -> Q -> Q.

(** Nothing to borrow.  When [loanAmount1] is 1e-6 or less (the equity
    covers the investment, or exceeds it and [loanAmount1] is negative)
    and nothing is sold, no year pays interest or principal, and every
    record reports [loanAmount1] itself as [remainingDebt]. *)
Theorem nothing_borrowed (p : Params) (y : Year.t) :
  loanAmount1 p <= 1e-6 ->
  saleMode p <> "sell"%string ->
  In y (years pow_frac p) ->
  Year.remainingDebt y = loanAmount1 p /\
  Year.interestPaid y = 0 /\
  Year.principalPaid y = 0.
Proof.
  intros Hl Hh Hin. apply In_years_iterations in Hin.
  destruct Hin as [it [Hin <-]]. unfold iterations in Hin.
  assert (F : Forall (fun it =>
              Year.remainingDebt (it_year it) = loanAmount1 p /\
              Year.interestPaid (it_year it) = 0 /\
              Year.principalPaid (it_year it) = 0)
            (fst (for_loop pow_frac p (loop_bound p) 1 (init p)))).
  { apply (for_loop_invariant pow_frac p
             (fun _ s => St.remainingDebt s = loanAmount1 p));
      [|lia|reflexivity].
    intros y' s _ _ Hs.
    assert (E : ly_phase (loan_year pow_frac p (inject_Z y') s) = Repaid).
    { apply loan_year_idle. left. rewrite Hs. exact Hl. }
    pose proof (loan_year_Repaid pow_frac p _ _ E) as [_ [A [B [C _]]]].
    assert (D : St.remainingDebt (snd (step pow_frac p y' s)) = loanAmount1 p).
    { rewrite step_st_remainingDebt, step_it_sale,
        (sale_of_holding p Hh). rewrite C. exact Hs. }
    rewrite step_remainingDebt, step_interestPaid, step_principalPaid.
    repeat split; assumption. }
  rewrite Forall_forall in F. apply (F it Hin).
Qed.

End NoLoan.

Lemma nothing_borrowed_witness :
  exists y,
    nth_error (years pow_example (unpack 2026 cash_purchase_inputs)) 1 = Some y /\
    Year.remainingDebt y = loanAmount1 (unpack 2026 cash_purchase_inputs) /\
    loanAmount1 (unpack 2026 cash_purchase_inputs) == -50 /\
    Year.interestPaid y = 0 /\
    Year.principalPaid y = 0.
Proof.
  eexists. split; [vm_compute; reflexivity|].
  match goal with
  | |- Year.remainingDebt ?y = _ /\ _ =>
      destruct (nothing_borrowed pow_example (unpack 2026 cash_purchase_inputs) y)
        as [A [B C]]
  end.
  - apply Qle_bool_iff. vm_compute. reflexivity.
  - vm_compute. discriminate.
  - vm_compute. right. left. reflexivity.
  - split; [exact A|]. split; [vm_compute; reflexivity|]. split; assumption.
Defined.
